(** * Call-center voice agent: audio relay, codec and ambient mixer

    A shallow embedding of the real-time audio path of the accelerator:

    - [Base64], [Audioop]: the CPython library routines the telephony
      adapter calls ([base64.b64decode], [audioop.ulaw2lin],
      [audioop.ratecv]), modelled after their C implementation;
    - [Twilio]: [mulaw_b64_to_pcm16] of [twilio_handler.py];
    - [Float32], [Mixer]: the [AmbientMixer] class of [ambient_mixer.py]
      over IEEE binary32 numbers;
    - [VoiceLive]: the stream context, the receive-loop dispatch and the
      transcript persistence task of [voice_live_handler.py];
    - [Base64Encode], [RelaySend], [Lifecycle]: the send path of the relay
      ([base64.b64encode], [send_pcm16]) and its [start], [close] and
      [_sender_loop];
    - [TwilioStream]: the [TwilioMediaStreamHandler] class of
      [twilio_handler.py].

    Python integers are [Z], byte strings are [list byte], [str] is
    [string], exceptions are explicit results. *)

From Stdlib Require Import ZArith List String Ascii Bool Lia.
From Stdlib Require Import Strings.Byte.
From Stdlib Require Import Floats.SpecFloat.
Import ListNotations.

Local Open Scope Z_scope.

(** ** Python results and exceptions *)

Inductive exn : Type :=
| ValueError
| TypeError
| AttributeError
| OverflowError
| binascii_Error
| audioop_error
| Exception (what : string).

Inductive result (A : Type) : Type :=
| Ok (a : A)
| Raise (e : exn).
Arguments Ok {A} a.
Arguments Raise {A} e.

Definition bind {A B : Type} (r : result A) (k : A -> result B) : result B :=
  match r with
  | Ok a => k a
  | Raise e => Raise e
  end.

Notation "x <- r ;; k" := (bind r (fun x => k))
  (at level 61, r at next level, right associativity).

(** ** Byte strings *)

Definition bytes := list byte.

Definition Z_of_byte (b : byte) : Z := Z.of_N (Byte.to_N b).

Definition byte_of_Z (z : Z) : byte :=
  match Byte.of_N (Z.to_N (z mod 256)) with
  | Some b => b
  | None => x00
  end.

(** Little-endian reading and writing of a [w]-byte two's-complement
    integer, the native layout of the [int16] buffers on the platforms the
    service runs on. *)
Fixpoint le_unsigned (bs : bytes) : Z :=
  match bs with
  | [] => 0
  | b :: rest => Z_of_byte b + 256 * le_unsigned rest
  end.

Definition le_signed (w : nat) (bs : bytes) : Z :=
  let u := le_unsigned (firstn w bs) in
  let m := 2 ^ (8 * Z.of_nat w) in
  if u <? m / 2 then u else u - m.

Fixpoint le_bytes (w : nat) (z : Z) : bytes :=
  match w with
  | O => []
  | S w' => byte_of_Z z :: le_bytes w' (Z.shiftr z 8)
  end.

(** The number of 16-bit samples a PCM16 buffer holds. *)
Definition sample_count (pcm16 : bytes) : nat := Nat.div (List.length pcm16) 2.

(** ** base64.b64decode *)

Module Base64.

(** [table_a2b_base64] of [binascii.c]: the value of an alphabet
    character, [None] for the entries the C table marks invalid. *)
Definition table_a2b_base64 (c : Z) : option Z :=
  if (65 <=? c) && (c <=? 90) then Some (c - 65)
  else if (97 <=? c) && (c <=? 122) then Some (c - 97 + 26)
  else if (48 <=? c) && (c <=? 57) then Some (c - 48 + 52)
  else if c =? 43 then Some 62
  else if c =? 47 then Some 63
  else None.

Definition BASE64_PAD : Z := 61.

(** The decoding loop of [binascii.a2b_base64] with [strict_mode] off.
    [quad_pos], [leftchar] and [pads] are the C locals; [out] is the
    output written so far.  A complete pad sequence leaves the loop at
    once ([goto done]); running off the end with an open quad raises
    [binascii.Error]. *)
Fixpoint a2b_loop (data : list Z) (quad_pos leftchar pads : Z) (out : bytes)
  : result bytes :=
  match data with
  | [] => if quad_pos =? 0 then Ok out else Raise binascii_Error
  | this_ch :: rest =>
      if this_ch =? BASE64_PAD then
        if 2 <=? quad_pos then
          if 4 <=? quad_pos + (pads + 1) then Ok out
          else a2b_loop rest quad_pos leftchar (pads + 1) out
        else a2b_loop rest quad_pos leftchar pads out
      else
        match table_a2b_base64 this_ch with
        | None => a2b_loop rest quad_pos leftchar pads out
        | Some v =>
            if quad_pos =? 0 then
              a2b_loop rest 1 v 0 out
            else if quad_pos =? 1 then
              a2b_loop rest 2 (Z.land v 15) 0
                (out ++ [byte_of_Z (Z.lor (Z.shiftl leftchar 2) (Z.shiftr v 4))])
            else if quad_pos =? 2 then
              a2b_loop rest 3 (Z.land v 3) 0
                (out ++ [byte_of_Z (Z.lor (Z.shiftl leftchar 4) (Z.shiftr v 2))])
            else
              a2b_loop rest 0 0 0
                (out ++ [byte_of_Z (Z.lor (Z.shiftl leftchar 6) v)])
        end
  end.

Definition a2b_base64 (data : list Z) : result bytes :=
  a2b_loop data 0 0 0 [].

Definition codes (s : string) : list Z :=
  map (fun c => Z.of_nat (nat_of_ascii c)) (list_ascii_of_string s).

(** [base64.b64decode(s)] on a [str]: characters outside ASCII are
    refused with [ValueError] by [_bytes_from_decode_data], the rest goes
    through [a2b_base64] (no [altchars], [validate=False]). *)
Definition b64decode (s : string) : result bytes :=
  let data := codes s in
  if forallb (fun c => c <? 128) data then a2b_base64 data
  else Raise ValueError.

End Base64.

(** ** audioop *)

Module Audioop.

Definition BIAS : Z := 132.       (* 0x84 *)
Definition QUANT_MASK : Z := 15.  (* 0x0f *)
Definition SEG_MASK : Z := 112.   (* 0x70 *)
Definition SEG_SHIFT : Z := 4.
Definition SIGN_BIT : Z := 128.   (* 0x80 *)

(** [st_ulaw2linear16]: one G.711 mu-law byte to a 16-bit sample. *)
Definition st_ulaw2linear16 (u_val : Z) : Z :=
  let u := Z.lxor u_val 255 in    (* u_val = ~u_val on an unsigned char *)
  let t := Z.shiftl (Z.land u QUANT_MASK) 3 + BIAS in
  let t := Z.shiftl t (Z.shiftr (Z.land u SEG_MASK) SEG_SHIFT) in
  if Z.land u SIGN_BIT =? 0 then t - BIAS else BIAS - t.

Definition check_size (width : Z) : bool :=
  (1 <=? width) && (width <=? 4).

(** [SETSAMPLE32(width, ...)]: the top [width] bytes of a 32-bit value. *)
Definition SETSAMPLE32 (width : Z) (val : Z) : bytes :=
  le_bytes (Z.to_nat width) (Z.shiftr val (32 - 8 * width)).

(** [GETSAMPLE32(width, cp, 0)]: the sample at [cp] scaled to 32 bits. *)
Definition GETSAMPLE32 (width : Z) (cp : bytes) : Z :=
  Z.shiftl (le_signed (Z.to_nat width) cp) (32 - 8 * width).

(** [audioop.ulaw2lin(fragment, width)]. *)
Definition ulaw2lin (fragment : bytes) (width : Z) : result bytes :=
  if check_size width then
    Ok (flat_map
          (fun b => SETSAMPLE32 width (st_ulaw2linear16 (Z_of_byte b) * 65536))
          fragment)
  else Raise audioop_error.

(** The output loop of [ratecv], [while (d >= 0)]: one interpolated
    sample per turn, [d] going down by [inrate].  The C code computes
    [cur_o] in [double]; for 32-bit samples and rates below [2^21] every
    intermediate value is an integer below [2^53] and the quotient is
    truncated, which is [Z.quot]. *)
Fixpoint ratecv_emit (fuel : nat) (width inrate outrate prev_i cur_i d : Z)
         (out : bytes) : Z * bytes :=
  match fuel with
  | O => (d, out)
  | S fuel' =>
      if 0 <=? d then
        let cur_o := Z.quot (prev_i * d + cur_i * (outrate - d)) outrate in
        ratecv_emit fuel' width inrate outrate prev_i cur_i (d - inrate)
                    (out ++ SETSAMPLE32 width cur_o)
      else (d, out)
  end.

(** The input loop, [while (d < 0)], for one channel with the default
    weights [weightA = 1], [weightB = 0]: [len] counts the frames left
    and [cp] is the read pointer.  It is entered with [d < 0]; after a
    frame is taken [d] grows by [outrate] and the output loop runs until
    [d] is negative again. *)
Fixpoint ratecv_feed (len : nat) (cp : bytes) (width inrate outrate prev_i cur_i d : Z)
         (out : bytes) : bytes * (Z * (Z * Z)) :=
  match len with
  | O => (out, (d, (prev_i, cur_i)))
  | S len' =>
      let prev_i' := cur_i in
      let cur_i' := Z.quot (1 * GETSAMPLE32 width cp + 0 * prev_i') (1 + 0) in
      let d' := d + outrate in
      let '(d'', out') :=
        ratecv_emit (Z.to_nat (d' + 1)) width inrate outrate prev_i' cur_i' d' out in
      ratecv_feed len' (skipn (Z.to_nat width) cp) width inrate outrate
                  prev_i' cur_i' d'' out'
  end.

Definition INT_MAX : Z := 2147483647.
Definition INT_MIN : Z := -2147483648.

(** [audioop.ratecv(fragment, width, 1, inrate, outrate, None)]: one
    channel, no previous state, default weights.  Returns the converted
    fragment and the new state [(d, (prev_i, cur_i))].  The rates are C
    [int] arguments: one that does not fit is refused with
    [OverflowError] when the arguments are converted. *)
Definition ratecv (fragment : bytes) (width inrate outrate : Z)
  : result (bytes * (Z * (Z * Z))) :=
  if negb (check_size width) then Raise audioop_error
  else if (INT_MAX <? inrate) || (INT_MAX <? outrate)
          || (inrate <? INT_MIN) || (outrate <? INT_MIN) then Raise OverflowError
  else if negb (Z.of_nat (List.length fragment) mod width =? 0) then Raise audioop_error
  else if (inrate <=? 0) || (outrate <=? 0) then Raise audioop_error
  else
    let g := Z.gcd inrate outrate in
    let inrate := inrate / g in
    let outrate := outrate / g in
    Ok (ratecv_feed (Z.to_nat (Z.of_nat (List.length fragment) / width)) fragment
                    width inrate outrate 0 0 (- outrate) []).

End Audioop.

(** ** twilio_handler.py *)

Module Twilio.

Definition SOURCE_SAMPLE_RATE_HZ : Z := 8000.
Definition TARGET_SAMPLE_RATE_HZ : Z := 24000.

(** [mulaw_b64_to_pcm16(mulaw_b64, target_sample_rate=...)].  The rate is
    [None] or an [int]; [None] and [0] are falsy and skip the
    conversion, as does the source rate itself. *)
Definition mulaw_b64_to_pcm16 (mulaw_b64 : string) (target_sample_rate : option Z)
  : result bytes :=
  mulaw_bytes <- Base64.b64decode mulaw_b64 ;;
  pcm16 <- Audioop.ulaw2lin mulaw_bytes 2 ;;
  match target_sample_rate with
  | Some rate =>
      if negb (rate =? 0) && negb (rate =? SOURCE_SAMPLE_RATE_HZ) then
        r <- Audioop.ratecv pcm16 2 SOURCE_SAMPLE_RATE_HZ rate ;;
        Ok (fst r)
      else Ok pcm16
  | None => Ok pcm16
  end.

End Twilio.

(** ** Python sequences: slices with [start:stop] *)

Module Py.

(** [PySlice_AdjustIndices] for a positive step: a negative index counts
    from the end, and the result is clipped to [0..len]. *)
Definition slice_index (len i : Z) : Z :=
  if i <? 0 then Z.max (i + len) 0 else Z.min i len.

Definition slice_bounds (len start stop : Z) : nat * nat :=
  let s := slice_index len start in
  let e := slice_index len stop in
  (Z.to_nat s, Z.to_nat (e - s)).

(** [a[start:stop]]. *)
Definition getslice {A : Type} (a : list A) (start stop : Z) : list A :=
  let '(s, k) := slice_bounds (Z.of_nat (List.length a)) start stop in
  firstn k (skipn s a).

(** [a[start:stop] = v] on a one-dimensional numpy array: [v] has the
    length of the slice or is a single element that is broadcast;
    anything else is the [ValueError] of a failed broadcast ([None]). *)
Definition setslice {A : Type} (a : list A) (start stop : Z) (v : list A)
  : option (list A) :=
  let '(s, k) := slice_bounds (Z.of_nat (List.length a)) start stop in
  if Nat.eqb (List.length v) k then
    Some (firstn s a ++ v ++ skipn (s + k) a)
  else
    match v with
    | [x] => Some (firstn s a ++ repeat x k ++ skipn (s + k) a)
    | _ => None
    end.

End Py.

(** ** IEEE binary32 ([numpy.float32]) *)

Module Float32.

Definition prec : Z := 24.
Definition emax : Z := 128.

Definition f32 : Type := spec_float.

Definition add : f32 -> f32 -> f32 := SFadd prec emax.
Definition mul : f32 -> f32 -> f32 := SFmul prec emax.
Definition div : f32 -> f32 -> f32 := SFdiv prec emax.

Definition zero : f32 := S754_zero false.

(** An integer as a [float32], rounded to nearest even. *)
Definition of_Z (z : Z) : f32 := binary_normalize prec emax z 0 false.

(** A Python [float] literal [num/den] (a binary64) as the [float32]
    operand numpy makes of it in an operation with a [float32] array. *)
Definition of_literal (num den : Z) : f32 :=
  match SFdiv 53 1024 (binary_normalize 53 1024 num 0 false)
                      (binary_normalize 53 1024 den 0 false) with
  | S754_finite s m e => binary_normalize prec emax (cond_Zopp s (Zpos m)) e s
  | x => x
  end.

(** The integer part of a finite number (rounding toward zero). *)
Definition trunc (x : f32) : option Z :=
  match x with
  | S754_zero _ => Some 0
  | S754_finite s m e =>
      Some (cond_Zopp s (if 0 <=? e then Zpos m * 2 ^ e else Zpos m / 2 ^ (- e)))
  | S754_infinity _ | S754_nan => None
  end.

(** What the numerical routines outside the repository provide:
    [np_tanh] is numpy's [tanh] on [float32] (a libm or SIMD kernel whose
    rounding differs between builds) and [cast_unrepresentable] is what
    the C conversion to a 16-bit integer yields for NaN, infinities and
    values outside the [int16] range, which C leaves undefined. *)
Record Numpy : Type := {
  np_tanh : f32 -> f32;
  cast_unrepresentable : f32 -> Z
}.

(** [x.astype(np.int16)] on one element. *)
Definition astype_int16 (np : Numpy) (x : f32) : Z :=
  match trunc x with
  | Some z =>
      if (-32768 <=? z) && (z <=? 32767) then z else cast_unrepresentable np x
  | None => cast_unrepresentable np x
  end.

(** Element-wise [a + b] of two one-dimensional arrays, with numpy's
    broadcasting of a one-element operand. *)
Definition np_add (a b : list f32) : result (list f32) :=
  if Nat.eqb (List.length a) (List.length b) then
    Ok (map (fun p => add (fst p) (snd p)) (combine a b))
  else
    match a, b with
    | [x], _ => Ok (map (fun y => add x y) b)
    | _, [y] => Ok (map (fun x => add x y) a)
    | _, _ => Raise ValueError
    end.

(** [np.frombuffer(buf, dtype=np.int16)]: a buffer that is not a whole
    number of 2-byte elements is refused. *)
Fixpoint int16_elements (buf : bytes) : list Z :=
  match buf with
  | lo :: hi :: rest => le_signed 2 [lo; hi] :: int16_elements rest
  | _ => []
  end.

Definition frombuffer_int16 (buf : bytes) : result (list Z) :=
  if Z.of_nat (List.length buf) mod 2 =? 0 then Ok (int16_elements buf)
  else Raise ValueError.

(** [a.tobytes()] of an [int16] array. *)
Definition tobytes_int16 (a : list Z) : bytes :=
  flat_map (le_bytes 2) a.

End Float32.

(** ** ambient_mixer.py *)

Module Mixer.
Import Float32.

Definition SAMPLE_RATE : Z := 24000.
Definition BYTES_PER_SAMPLE : Z := 2.
Definition CHANNELS : Z := 1.

Definition PRESETS : list (string * option string) :=
  [ ("none"%string, None);
    ("office"%string, Some "office.wav"%string);
    ("call_center"%string, Some "callcenter.wav"%string) ].

Fixpoint lookup {A : Type} (k : string) (l : list (string * A)) : option A :=
  match l with
  | [] => None
  | (k', v) :: rest => if String.eqb k k' then Some v else lookup k rest
  end.

(** The instance attributes.  [_ambient_gain] is the Python [float] 0.08,
    kept as the [float32] operand it becomes in every use. *)
Record AmbientMixer : Type := {
  preset : string;
  _noise_buffer : option (list f32);
  _noise_position : Z;
  _ambient_gain : f32
}.

Definition set_noise_position (self : AmbientMixer) (p : Z) : AmbientMixer :=
  {| preset := preset self;
     _noise_buffer := _noise_buffer self;
     _noise_position := p;
     _ambient_gain := _ambient_gain self |}.

(** What a method call does: it returns a value, raises, or never comes
    back; the first two leave a mixer behind. *)
Inductive outcome (A : Type) : Type :=
| Returns (a : A) (self : AmbientMixer)
| Raises (e : exn) (self : AmbientMixer)
| Diverges.
Arguments Returns {A} a self.
Arguments Raises {A} e self.
Arguments Diverges {A}.

(** [AmbientMixer.__init__(preset)].  [load_noise] stands for
    [_load_noise], which reads the preset's audio asset and falls back to
    synthetic noise, so it always yields an array. *)
Definition __init__ (load_noise : string -> list f32) (preset_name : string)
  : result AmbientMixer :=
  match lookup preset_name PRESETS with
  | None => Raise ValueError
  | Some file =>
      let truthy_file :=
        match file with
        | Some f => negb (String.eqb f "")
        | None => false
        end in
      Ok {| preset := preset_name;
            _noise_buffer :=
              if negb (String.eqb preset_name "none") && truthy_file
              then Some (load_noise preset_name) else None;
            _noise_position := 0;
            _ambient_gain := of_literal 8 100 |}
  end.

Definition np_zeros (num_samples : Z) : list f32 :=
  repeat zero (Z.to_nat num_samples).

(** The [while remaining > 0] loop of [_get_noise_chunk].  [fuel] bounds
    the number of turns; running out of it is [None]. *)
Fixpoint noise_loop (fuel : nat) (buffer chunk : list f32)
         (position offset remaining : Z) : option (result (list f32) * Z) :=
  if 0 <? remaining then
    match fuel with
    | O => None
    | S fuel' =>
        let available := Z.of_nat (List.length buffer) - position in
        let to_copy := Z.min available remaining in
        match Py.setslice chunk offset (offset + to_copy)
                          (Py.getslice buffer position (position + to_copy)) with
        | None => Some (Raise ValueError, position)
        | Some chunk' =>
            let position := position + to_copy in
            let offset := offset + to_copy in
            let remaining := remaining - to_copy in
            let position :=
              if Z.of_nat (List.length buffer) <=? position then 0 else position in
            noise_loop fuel' buffer chunk' position offset remaining
        end
    end
  else Some (Ok chunk, position).

(** [_get_noise_chunk(num_samples)]. *)
Definition _get_noise_chunk (fuel : nat) (self : AmbientMixer) (num_samples : Z)
  : outcome (list f32) :=
  if num_samples <? 0 then Raises ValueError self
  else
    match _noise_buffer self with
    | None => Returns (np_zeros num_samples) self
    | Some buffer =>
        match noise_loop fuel buffer (np_zeros num_samples)
                         (_noise_position self) 0 num_samples with
        | None => Diverges
        | Some (Ok chunk, p) => Returns chunk (set_noise_position self p)
        | Some (Raise e, p) => Raises e (set_noise_position self p)
        end
    end.

(** The contract of the chunk read, for comparison with the loop: sample
    [i] of a chunk of [n] samples read at cursor [c] is
    [buffer[(c + i) mod L]]. *)
Definition looped_read (buffer : list f32) (c n : nat) : list f32 :=
  map (fun i => nth ((c + i) mod List.length buffer) buffer zero) (seq 0 n).

(** [is_enabled()]. *)
Definition is_enabled (self : AmbientMixer) : bool :=
  negb (String.eqb (preset self) "none")
  && match _noise_buffer self with Some _ => true | None => false end.

Section Numerics.
Variable np : Numpy.

Definition threshold : f32 := of_literal 95 100.

(** [_soft_clip(audio)] with the default threshold. *)
Definition _soft_clip (audio : list f32) : list f32 :=
  map (fun x => mul (np_tanh np (div x threshold)) threshold) audio.

(** [(x * 32767).astype(np.int16).tobytes()]. *)
Definition to_pcm16 (x : list f32) : bytes :=
  tobytes_int16 (map (fun v => astype_int16 np (mul v (of_Z 32767))) x).

(** [get_ambient_only_chunk(chunk_size_bytes)]. *)
Definition get_ambient_only_chunk (fuel : nat) (self : AmbientMixer)
           (chunk_size_bytes : Z) : outcome bytes :=
  if negb (is_enabled self) then
    Returns (repeat x00 (Z.to_nat chunk_size_bytes)) self
  else
    let num_samples := chunk_size_bytes / BYTES_PER_SAMPLE in
    match _get_noise_chunk fuel self num_samples with
    | Returns noise self' =>
        let output := map (fun v => mul v (_ambient_gain self')) noise in
        let output := _soft_clip output in
        Returns (to_pcm16 output) self'
    | Raises e self' => Raises e self'
    | Diverges => Diverges
    end.

(** [mix_tts_with_ambient(tts_bytes)]. *)
Definition mix_tts_with_ambient (fuel : nat) (self : AmbientMixer)
           (tts_bytes : bytes) : outcome bytes :=
  if negb (is_enabled self) then Returns tts_bytes self
  else
    match frombuffer_int16 tts_bytes with
    | Raise e => Raises e self
    | Ok samples =>
        let tts := map (fun z => div (of_Z z) (of_Z 32768)) samples in
        match _get_noise_chunk fuel self (Z.of_nat (List.length tts)) with
        | Returns noise self' =>
            let scaled_noise := map (fun v => mul v (_ambient_gain self')) noise in
            match np_add tts scaled_noise with
            | Raise e => Raises e self'
            | Ok mixed => Returns (to_pcm16 (_soft_clip mixed)) self'
            end
        | Raises e self' => Raises e self'
        | Diverges => Diverges
        end
    end.

End Numerics.

(** [reset()]. *)
Definition reset (self : AmbientMixer) : AmbientMixer :=
  set_noise_position self 0.

End Mixer.

(** ** JSON documents as Python values *)

Module Json.

#[local] Unset Elimination Schemes.
(** The value [json.loads] builds: [None], [bool], [int], [float], [str],
    [list], or a [dict] given by its items in document order. *)
Inductive json : Type :=
| JNull
| JBool (b : bool)
| JInt (z : Z)
| JFloat (x : spec_float)
| JStr (s : string)
| JList (l : list json)
| JDict (items : list (string * json)).
#[local] Set Elimination Schemes.

(** Python truth value. *)
Definition truthy (v : json) : bool :=
  match v with
  | JNull => false
  | JBool b => b
  | JInt z => negb (z =? 0)
  | JFloat (S754_zero _) => false
  | JFloat _ => true
  | JStr s => negb (String.eqb s "")
  | JList l => match l with [] => false | _ => true end
  | JDict items => match items with [] => false | _ => true end
  end.

(** The binding of [key], the last one when the document repeats it. *)
Fixpoint find_last (key : string) (items : list (string * json)) (found : option json)
  : option json :=
  match items with
  | [] => found
  | (k, v) :: rest =>
      find_last key rest (if String.eqb k key then Some v else found)
  end.

(** [v.get(key, default)]: only a [dict] has the method. *)
Definition get (v : json) (key : string) (default : json) : result json :=
  match v with
  | JDict items =>
      Ok (match find_last key items None with
          | Some x => x
          | None => default
          end)
  | _ => Raise AttributeError
  end.

Definition is_str (v : json) (s : string) : bool :=
  match v with
  | JStr s' => String.eqb s' s
  | _ => false
  end.

End Json.

(** ** voice_live_handler.py *)

Module VoiceLive.
Import Json.

Definition truthy_str (o : option string) : bool :=
  match o with
  | Some s => negb (String.eqb s "")
  | None => false
  end.

(** [SmsQueueMessage] of [sms_queue.py]. *)
Record SmsQueueMessage : Type := {
  msg_call_sid : string;
  msg_recording_sid : string;
  msg_attempt : Z;
  to_number : string;
  from_number : string;
  transcript_blob_url : string;
  retry_count : Z
}.

(** The transcript store and the SMS queue as the relay sees them: each
    call returns or raises. *)
Record VoicemailTranscriptionStore : Type := {
  store_transcript :
    string -> string -> option Z -> json -> option spec_float -> result string;
  build_sms_candidate :
    option string -> option string -> option Z -> result (option SmsQueueMessage);
  mark_sms_enqueued :
    option string -> option string -> option Z -> result unit
}.

Record SmsQueueProducer : Type := {
  enqueue : SmsQueueMessage -> result unit
}.

Record VoiceLiveStreamingHandler : Type := {
  transcription_store : option VoicemailTranscriptionStore;
  sms_queue : option SmsQueueProducer;
  _on_user_transcript : option (json -> result unit);
  _on_ai_transcript : option (json -> result unit);
  _on_audio_chunk : option (bytes -> result unit);
  _on_audio_stop : option (unit -> result unit);
  call_sid : option string;
  stream_sid : option string;
  recording_sid : option string;
  attempt : option Z
}.

(** The handler [__init__] leaves behind: no callbacks, empty context. *)
Definition new_handler (store : option VoicemailTranscriptionStore)
           (queue : option SmsQueueProducer) : VoiceLiveStreamingHandler :=
  {| transcription_store := store; sms_queue := queue;
     _on_user_transcript := None; _on_ai_transcript := None;
     _on_audio_chunk := None; _on_audio_stop := None;
     call_sid := None; stream_sid := None; recording_sid := None;
     attempt := None |}.

Definition register_event_handlers (self : VoiceLiveStreamingHandler)
           (on_user_transcript on_ai_transcript : option (json -> result unit))
           (on_audio_chunk : option (bytes -> result unit))
           (on_audio_stop : option (unit -> result unit))
  : VoiceLiveStreamingHandler :=
  {| transcription_store := transcription_store self;
     sms_queue := sms_queue self;
     _on_user_transcript := on_user_transcript;
     _on_ai_transcript := on_ai_transcript;
     _on_audio_chunk := on_audio_chunk;
     _on_audio_stop := on_audio_stop;
     call_sid := call_sid self; stream_sid := stream_sid self;
     recording_sid := recording_sid self; attempt := attempt self |}.

(** *** The stream context *)

(** The [attempt] argument of [update_stream_context]: [None], an [int],
    or a value [int()] refuses with [TypeError] or [ValueError]. *)
Inductive attempt_arg : Type :=
| AttemptNone
| AttemptInt (z : Z)
| AttemptInvalid.

Definition int_ (a : attempt_arg) : result Z :=
  match a with
  | AttemptInt z => Ok z
  | AttemptNone => Raise TypeError
  | AttemptInvalid => Raise ValueError
  end.

Record context_update : Type := {
  arg_call_sid : option string;
  arg_stream_sid : option string;
  arg_recording_sid : option string;
  arg_attempt : attempt_arg
}.

(** [update_stream_context(call_sid=..., stream_sid=..., recording_sid=...,
    attempt=...)].  A refused [attempt] is logged and the field kept. *)
Definition update_stream_context (self : VoiceLiveStreamingHandler) (u : context_update)
  : VoiceLiveStreamingHandler :=
  {| transcription_store := transcription_store self;
     sms_queue := sms_queue self;
     _on_user_transcript := _on_user_transcript self;
     _on_ai_transcript := _on_ai_transcript self;
     _on_audio_chunk := _on_audio_chunk self;
     _on_audio_stop := _on_audio_stop self;
     call_sid :=
       if truthy_str (arg_call_sid u) then arg_call_sid u else call_sid self;
     stream_sid :=
       if truthy_str (arg_stream_sid u) then arg_stream_sid u else stream_sid self;
     recording_sid :=
       if truthy_str (arg_recording_sid u) then arg_recording_sid u
       else recording_sid self;
     attempt :=
       match arg_attempt u with
       | AttemptNone => attempt self
       | a => match int_ a with
              | Ok z => Some z
              | Raise _ => attempt self
              end
       end |}.

(** A call's worth of updates, oldest first. *)
Definition update_all (self : VoiceLiveStreamingHandler) (us : list context_update)
  : VoiceLiveStreamingHandler :=
  fold_left update_stream_context us self.

(** *** Observable effects of the relay *)

Inductive effect : Type :=
| UserTranscript (text : json)
| AiTranscript (text : json)
| AudioChunk (chunk : bytes)
| AudioStop
| StoreTranscript (call recording : string) (att : option Z) (transcript : json)
                  (confidence : option spec_float) (returned : result string)
| BuildSmsCandidate (call recording : option string) (att : option Z)
                    (returned : result (option SmsQueueMessage))
| Enqueue (candidate : SmsQueueMessage) (returned : result unit)
| MarkSmsEnqueued (call recording : option string) (att : option Z)
                  (returned : result unit)
| CreateTask (name : string) (transcript : json) (confidence : option spec_float)
| Log (level message : string).

(** A coroutine run to its end: what it did, and how it ended. *)
Definition io (A : Type) : Type := list effect * result A.

Definition ret {A : Type} (a : A) : io A := ([], Ok a).

Definition io_bind {A B : Type} (m : io A) (k : A -> io B) : io B :=
  match m with
  | (t, Ok a) => let '(t', r) := k a in (t ++ t', r)
  | (t, Raise e) => (t, Raise e)
  end.

Definition lift {A : Type} (r : result A) : io A := ([], r).

Definition perform (e : effect) : io unit := ([e], Ok tt).

(** A call that is recorded together with what it returned. *)
Definition call {A : Type} (record : result A -> effect) (r : result A) : io A :=
  ([record r], r).

(** [try: m except Exception: handler]. *)
Definition try_except {A : Type} (m : io A) (handler : exn -> io A) : io A :=
  match m with
  | (t, Ok a) => (t, Ok a)
  | (t, Raise e) => let '(t', r) := handler e in (t ++ t', r)
  end.

Notation "x <~ m ;; k" := (io_bind m (fun x => k))
  (at level 61, m at next level, right associativity).

(** *** Callbacks *)

Definition _emit_user_transcript (self : VoiceLiveStreamingHandler) (text : json)
  : io unit :=
  match _on_user_transcript self with
  | Some cb => call (fun _ => UserTranscript text) (cb text)
  | None => ret tt
  end.

Definition _emit_ai_transcript (self : VoiceLiveStreamingHandler) (text : json)
  : io unit :=
  match _on_ai_transcript self with
  | Some cb => call (fun _ => AiTranscript text) (cb text)
  | None => ret tt
  end.

Definition _emit_audio_chunk (self : VoiceLiveStreamingHandler) (chunk : bytes)
  : io unit :=
  match _on_audio_chunk self with
  | Some cb => call (fun _ => AudioChunk chunk) (cb chunk)
  | None => ret tt
  end.

Definition _emit_stop (self : VoiceLiveStreamingHandler) : io unit :=
  match _on_audio_stop self with
  | Some cb => call (fun _ => AudioStop) (cb tt)
  | None => ret tt
  end.

(** *** Transcript persistence *)

Section Relay.

(** [float(s)] on a [str]: the parsed number, [None] for the
    [ValueError] of a string that is not a number. *)
Variable float_of_str : string -> option spec_float.

(** [float(v)]. *)
Definition float_ (v : json) : result spec_float :=
  match v with
  | JBool b => Ok (binary_normalize 53 1024 (if b then 1 else 0) 0 false)
  | JInt z =>
      match binary_normalize 53 1024 z 0 false with
      | S754_infinity _ => Raise OverflowError
      | x => Ok x
      end
  | JFloat x => Ok x
  | JStr s =>
      match float_of_str s with
      | Some x => Ok x
      | None => Raise ValueError
      end
  | JNull | JList _ | JDict _ => Raise TypeError
  end.

(** [try: return float(v) except (TypeError, ValueError): return None]. *)
Definition float_or_none (v : json) : result (option spec_float) :=
  match float_ v with
  | Ok x => Ok (Some x)
  | Raise TypeError | Raise ValueError => Ok None
  | Raise e => Raise e
  end.

(** [_extract_confidence(event)]. *)
Definition _extract_confidence (event : json) : result (option spec_float) :=
  confidence <- get event "confidence" JNull ;;
  match confidence with
  | JNull =>
      alternatives <- get event "alternatives" JNull ;;
      match alternatives with
      | JList (JDict items :: _) =>
          match find_last "confidence" items None with
          | None | Some JNull => Ok None
          | Some value => float_or_none value
          end
      | _ => Ok None
      end
  | c => float_or_none c
  end.

(** [_schedule_transcript_persist(transcript, event)]: the guards, then
    the task is created; its body is [persist] below. *)
Definition _schedule_transcript_persist (self : VoiceLiveStreamingHandler)
           (transcript event : json) : io unit :=
  match transcription_store self with
  | None => ret tt
  | Some _ =>
      if negb (truthy_str (call_sid self)) || negb (truthy_str (recording_sid self))
      then ret tt
      else
        match attempt self with
        | None =>
            perform (Log "debug" "[VoiceLive] Skipping persistence; attempt number not set")
        | Some _ =>
            confidence <~ lift (_extract_confidence event) ;;
            perform (CreateTask "voice-live-transcript-persist" transcript confidence)
        end
  end.

End Relay.

(** The task runs after it was created, and other coroutines run while it
    awaits: these are the [update_stream_context] calls that reach the
    handler before the task starts, while [store_transcript] is awaited,
    and while [build_sms_candidate] and [enqueue] are awaited. *)
Record interleaving : Type := {
  before_start : list context_update;
  during_store : list context_update;
  during_enqueue : list context_update
}.

Definition or_empty (o : option string) : string :=
  match o with
  | Some s => s
  | None => ""
  end.

(** [self.attr.method] on an attribute that may be [None]. *)
Definition attr {A : Type} (o : option A) : io A :=
  match o with
  | Some a => ret a
  | None => lift (Raise AttributeError)
  end.

(** The body of the task, [persist()], for the handler [self] that
    scheduled it. *)
Definition persist (self : VoiceLiveStreamingHandler) (i : interleaving)
           (transcript : json) (confidence : option spec_float) : io unit :=
  let self1 := update_all self (before_start i) in
  let self2 := update_all self1 (during_store i) in
  let self3 := update_all self2 (during_enqueue i) in
  try_except
    (store <~ attr (transcription_store self1) ;;
     blob_url <~ call (StoreTranscript (or_empty (call_sid self1))
                                       (or_empty (recording_sid self1))
                                       (attempt self1) transcript confidence)
                      (store_transcript store (or_empty (call_sid self1))
                                        (or_empty (recording_sid self1))
                                        (attempt self1) transcript confidence) ;;
     match sms_queue self2 with
     | None => ret tt
     | Some queue =>
         store <~ attr (transcription_store self2) ;;
         candidate <~ call (BuildSmsCandidate (call_sid self2) (recording_sid self2)
                                              (attempt self2))
                           (build_sms_candidate store (call_sid self2)
                                                (recording_sid self2) (attempt self2)) ;;
         match candidate with
         | None => ret tt
         | Some candidate =>
             try_except
               (_ <~ call (Enqueue candidate) (enqueue queue candidate) ;;
                store <~ attr (transcription_store self3) ;;
                call (MarkSmsEnqueued (call_sid self3) (recording_sid self3)
                                      (attempt self3))
                     (mark_sms_enqueued store (call_sid self3) (recording_sid self3)
                                        (attempt self3)))
               (fun _ =>
                  perform (Log "exception" "[VoiceLive] Failed to enqueue SMS delivery job"))
         end
     end)
    (fun _ =>
       perform (Log "exception" "[VoiceLive] Failed to persist voicemail transcript")).

(** *** The receive loop *)

(** [base64.b64decode(delta)] on a JSON value: a [str] is decoded, any
    other truthy value is not bytes-like. *)
Definition b64decode_value (delta : json) : result bytes :=
  match delta with
  | JStr s => Base64.b64decode s
  | _ => Raise TypeError
  end.

Section Loop.
Variable float_of_str : string -> option spec_float.

(** One turn of [async for message in self.ws], from the decoded
    [event] on. *)
Definition on_event (self : VoiceLiveStreamingHandler) (event : json) : io unit :=
  event_type <~ lift (get event "type" JNull) ;;
  if is_str event_type "session.created" then
    session <~ lift (get event "session" (JDict [])) ;;
    session_id <~ lift (get session "id" JNull) ;;
    perform (Log "info" "[VoiceLive] Session ID: %s")
  else if is_str event_type "input_audio_buffer.cleared" then
    perform (Log "debug" "[VoiceLive] Input audio buffer cleared")
  else if is_str event_type "input_audio_buffer.speech_started" then
    _emit_stop self
  else if is_str event_type "conversation.item.input_audio_transcription.completed" then
    transcript <~ lift (get event "transcript" JNull) ;;
    if truthy transcript then
      _ <~ _emit_user_transcript self transcript ;;
      _schedule_transcript_persist float_of_str self transcript event
    else ret tt
  else if is_str event_type "conversation.item.input_audio_transcription.failed" then
    _ <~ lift (get event "error" JNull) ;;
    perform (Log "warning" "[VoiceLive] Transcription error: %s")
  else if is_str event_type "response.audio_transcript.done" then
    transcript <~ lift (get event "transcript" JNull) ;;
    if truthy transcript then _emit_ai_transcript self transcript else ret tt
  else if is_str event_type "response.audio.delta" then
    delta <~ lift (get event "delta" JNull) ;;
    if truthy delta then
      chunk <~ lift (b64decode_value delta) ;;
      _emit_audio_chunk self chunk
    else ret tt
  else if is_str event_type "error" then
    perform (Log "error" "[VoiceLive] Error event received: %s")
  else
    perform (Log "debug" "[VoiceLive] Unhandled event: %s").

(** [_receiver_loop] over the messages the connection delivers, each
    given as what [json.loads] makes of it.  The first exception of a
    turn ends the loop and is logged; the loop itself never raises. *)
Fixpoint _receiver_loop (self : VoiceLiveStreamingHandler)
         (messages : list (result json)) : io unit :=
  match messages with
  | [] => ret tt
  | message :: rest =>
      match (event <~ lift message ;; on_event self event) with
      | (t, Ok _) => let '(t', r) := _receiver_loop self rest in (t ++ t', r)
      | (t, Raise _) =>
          (t ++ [Log "exception" "[VoiceLive] Receiver loop error"], Ok tt)
      end
  end.

End Loop.

(** The payloads handed to the [AudioChunk] callback in a run, in order. *)
Fixpoint audio_chunks (t : list effect) : list bytes :=
  match t with
  | [] => []
  | AudioChunk chunk :: rest => chunk :: audio_chunks rest
  | _ :: rest => audio_chunks rest
  end.

End VoiceLive.

(** ** Sample data

    Concrete values on which the statements below are exercised. *)

Module Samples.
Import Float32 Mixer.

(** A stand-in for [tanh] that clamps to [-1, 1]; like [tanh] it maps each
    zero to itself. *)
Definition clamp_tanh (x : f32) : f32 :=
  match x with
  | S754_infinity s => S754_finite s 8388608 (-23)
  | S754_finite s m e =>
      if SFltb (S754_finite false 8388608 (-23)) (S754_finite false m e)
      then S754_finite s 8388608 (-23)
      else x
  | _ => x
  end.

Definition numpy : Numpy :=
  {| np_tanh := clamp_tanh; cast_unrepresentable := fun _ => -32768 |}.

(** A three-sample noise buffer: 0.5, -0.25, 0.125. *)
Definition noise3 : list f32 :=
  [ S754_finite false 8388608 (-24);
    S754_finite true 8388608 (-25);
    S754_finite false 8388608 (-26) ].

(** An enabled mixer over [noise3] with the cursor on the last sample. *)
Definition office_mixer : AmbientMixer :=
  {| preset := "office";
     _noise_buffer := Some noise3;
     _noise_position := 2;
     _ambient_gain := of_literal 8 100 |}.

(** The mixer [AmbientMixer("none")] builds. *)
Definition none_mixer : AmbientMixer :=
  {| preset := "none";
     _noise_buffer := None;
     _noise_position := 0;
     _ambient_gain := of_literal 8 100 |}.

End Samples.

Module RelaySamples.
Import Json VoiceLive.
Local Open Scope string_scope.

Definition no_float : string -> option spec_float := fun _ => None.

Definition sms : SmsQueueMessage :=
  {| msg_call_sid := "CA1"; msg_recording_sid := "RE1"; msg_attempt := 1;
     to_number := "+15550100"; from_number := "+15550199";
     transcript_blob_url := "https://voicemail.example/CA1/RE1-1.json";
     retry_count := 0 |}.

(** A store in which every call succeeds and a candidate is due. *)
Definition store : VoicemailTranscriptionStore :=
  {| store_transcript :=
       fun _ _ _ _ _ => Ok "https://voicemail.example/CA1/RE1-1.json";
     build_sms_candidate := fun _ _ _ => Ok (Some sms);
     mark_sms_enqueued := fun _ _ _ => Ok tt |}.

(** A queue that refuses every message. *)
Definition failing_queue : SmsQueueProducer :=
  {| enqueue := fun _ => Raise (Exception "queue unavailable") |}.

Definition set_context (call stream recording : option string) (att : attempt_arg)
  : context_update :=
  {| arg_call_sid := call; arg_stream_sid := stream;
     arg_recording_sid := recording; arg_attempt := att |}.

(** The handler of a Twilio stream once call, recording and attempt are
    known. *)
Definition voicemail_handler : VoiceLiveStreamingHandler :=
  update_stream_context (new_handler (Some store) (Some failing_queue))
    (set_context (Some "CA1") None (Some "RE1") (AttemptInt 1)).

Definition no_interleaving : interleaving :=
  {| before_start := []; during_store := []; during_enqueue := [] |}.

Definition transcription_completed : json :=
  JDict [ ("type", JStr "conversation.item.input_audio_transcription.completed");
          ("transcript", JStr "please call me back") ].

(** A handler with an [AudioChunk] callback that accepts every chunk. *)
Definition listening_handler : VoiceLiveStreamingHandler :=
  register_event_handlers (new_handler None None)
    None None (Some (fun _ => Ok tt)) None.

(** An audio delta carrying four silent 16-bit samples. *)
Definition silent_delta : json :=
  JDict [ ("type", JStr "response.audio.delta"); ("delta", JStr "AAAAAAAAAAA=") ].

(** An audio delta with an empty payload. *)
Definition empty_delta : json :=
  JDict [ ("type", JStr "response.audio.delta"); ("delta", JStr "") ].

End RelaySamples.

(** ** Reading a relay trace *)

Module RelayObservers.
Import Json VoiceLive.

(** Whether an effect is the invocation of a registered callback. *)
Definition is_callback (e : effect) : bool :=
  match e with
  | UserTranscript _ | AiTranscript _ | AudioChunk _ | AudioStop => true
  | _ => false
  end.

(** The callback invocations of a run, in order. *)
Definition callbacks (t : list effect) : list effect := filter is_callback t.

(** Whether an effect is a call of the SMS queue's [enqueue]. *)
Definition is_enqueue (e : effect) : bool :=
  match e with
  | Enqueue _ _ => true
  | _ => false
  end.

End RelayObservers.

(** ** base64.b64encode *)

Module Base64Encode.

(** [table_b2a_base64] of [binascii.c]: the character of a 6-bit value. *)
Definition table_b2a_base64 (v : Z) : Z :=
  if v <? 26 then v + 65
  else if v <? 52 then v - 26 + 97
  else if v <? 62 then v - 52 + 48
  else if v =? 62 then 43
  else 47.

Definition UINT_MAX : Z := 4294967295.

(** [while (leftbits >= 6)]: the 6-bit groups that are ready. *)
Fixpoint b2a_groups (fuel : nat) (leftchar leftbits : Z) (out : list Z)
  : Z * list Z :=
  match fuel with
  | O => (leftbits, out)
  | S fuel' =>
      if 6 <=? leftbits then
        let this_ch := Z.land (Z.shiftr leftchar (leftbits - 6)) 63 in
        b2a_groups fuel' leftchar (leftbits - 6) (out ++ [table_b2a_base64 this_ch])
      else (leftbits, out)
  end.

(** The byte loop of [binascii.b2a_base64]; [leftchar] is a C
    [unsigned int]. *)
Fixpoint b2a_loop (data : bytes) (leftchar leftbits : Z) (out : list Z)
  : Z * Z * list Z :=
  match data with
  | [] => (leftchar, leftbits, out)
  | b :: rest =>
      let leftchar := Z.land (Z.lor (Z.shiftl leftchar 8) (Z_of_byte b)) UINT_MAX in
      let leftbits := leftbits + 8 in
      let '(leftbits, out) :=
        b2a_groups (Z.to_nat (leftbits / 6)) leftchar leftbits out in
      b2a_loop rest leftchar leftbits out
  end.

(** What [binascii.b2a_base64] does after the loop: the bits left over
    and the padding. *)
Definition b2a_pad (state : Z * Z * list Z) : list Z :=
  let '(leftchar, leftbits, out) := state in
  if leftbits =? 2 then
    out ++ [table_b2a_base64 (Z.shiftl (Z.land leftchar 3) 4);
            Base64.BASE64_PAD; Base64.BASE64_PAD]
  else if leftbits =? 4 then
    out ++ [table_b2a_base64 (Z.shiftl (Z.land leftchar 15) 2); Base64.BASE64_PAD]
  else out.

(** [binascii.b2a_base64(data, newline=False)], as character codes. *)
Definition b2a_base64 (data : bytes) : list Z := b2a_pad (b2a_loop data 0 0 []).

Definition str_of_codes (codes : list Z) : string :=
  string_of_list_ascii (map (fun c => ascii_of_nat (Z.to_nat c)) codes).

(** [base64.b64encode(s).decode("ascii")]. *)
Definition b64encode (s : bytes) : string := str_of_codes (b2a_base64 s).

(** The four 6-bit values three bytes are split into. *)
Definition sextets (b1 b2 b3 : Z) : list Z :=
  [ b1 / 4; (b1 mod 4) * 16 + b2 / 16; (b2 mod 16) * 4 + b3 / 64; b3 mod 64 ].

End Base64Encode.

(** ** The relay's send path (voice_live_handler.py) *)

Module RelaySend.
Import Json.

Section Serialised.

(** [json.dumps] with its default arguments. *)
Variable json_dumps : json -> string.

(** The message [_enqueue_audio] builds. *)
Definition audio_append (audio_b64 : string) : json :=
  JDict [ ("type"%string, JStr "input_audio_buffer.append");
          ("audio"%string, JStr audio_b64) ].

(** [_enqueue_audio(audio_b64)]: the queue is unbounded, so [put] appends
    and returns at once. *)
Definition _enqueue_audio (send_queue : list string) (audio_b64 : string)
  : list string :=
  send_queue ++ [json_dumps (audio_append audio_b64)].

(** [send_audio_base64(audio_b64)]. *)
Definition send_audio_base64 (send_queue : list string) (audio_b64 : string)
  : list string :=
  _enqueue_audio send_queue audio_b64.

(** [send_pcm16(pcm_bytes)]. *)
Definition send_pcm16 (send_queue : list string) (pcm_bytes : bytes) : list string :=
  _enqueue_audio send_queue (Base64Encode.b64encode pcm_bytes).

End Serialised.

End RelaySend.

(** ** twilio_handler.py: the media stream handler *)

Module TwilioStream.
Import Json.

(** The attributes of [TwilioMediaStreamHandler] that carry state. *)
Record TwilioMediaStreamHandler : Type := {
  call_sid : option string;
  stream_sid : option string;
  recording_sid : option string;
  attempt : option Z
}.

(** [TwilioMediaStreamHandler.__init__(websocket, voice_live_handler,
    recording_sid=..., attempt=...)]. *)
Definition __init__ (recording : option string) (att : VoiceLive.attempt_arg)
  : TwilioMediaStreamHandler :=
  {| call_sid := None;
     stream_sid := None;
     recording_sid := recording;
     attempt :=
       match att with
       | VoiceLive.AttemptNone => None
       | a => match VoiceLive.int_ a with
              | Ok z => Some z
              | Raise _ => None
              end
       end |}.

(** The handler together with the objects it holds a reference to: the
    Voice Live handler and that handler's send queue. *)
Record stream : Type := {
  twilio : TwilioMediaStreamHandler;
  voice_live_handler : VoiceLive.VoiceLiveStreamingHandler;
  send_queue : list string
}.

(** A websocket frame: binary, or text given by what [json.loads] makes of
    it ([None] when it raises [JSONDecodeError]). *)
Inductive frame : Type :=
| Binary (data : bytes)
| Text (parsed : option json).

(** How [handle_message] ends.  [Untyped] marks a start frame whose
    identifiers are neither strings nor absent, which the string-typed
    stream context does not cover. *)
Inductive handled : Type :=
| Done (s : stream)
| Failed (e : exn) (s : stream)
| Untyped.

Definition identifier (v : json) : option (option string) :=
  match v with
  | JNull => Some None
  | JStr s => Some (Some s)
  | _ => None
  end.

Definition attempt_argument (a : option Z) : VoiceLive.attempt_arg :=
  match a with
  | Some z => VoiceLive.AttemptInt z
  | None => VoiceLive.AttemptNone
  end.

(** [x in {"heartbeat", "mark"}] hashes [x] first. *)
Definition hashable (v : json) : bool :=
  match v with
  | JList _ | JDict _ => false
  | _ => true
  end.

(** The frames of a Twilio media stream, with the fields the handler reads. *)
Definition start_frame (call sid : string) : frame :=
  Text (Some (JDict [ ("event"%string, JStr "start");
                      ("start"%string,
                       JDict [ ("callSid"%string, JStr call);
                               ("streamSid"%string, JStr sid) ]) ])).

Definition media_frame (payload : string) : frame :=
  Text (Some (JDict [ ("event"%string, JStr "media");
                      ("media"%string, JDict [ ("payload"%string, JStr payload) ]) ])).

Definition stop_frame : frame :=
  Text (Some (JDict [ ("event"%string, JStr "stop") ])).

(** What the handler reads in a frame, whatever else the frame holds.
    [start_identifiers]: the call and stream identifiers of a start
    frame; [media_payload]: the payload of a media frame; [is_control]: a
    frame that is neither (binary, not JSON, or an object whose event
    type can be hashed: connected, mark, dtmf, stop, ...). *)
Definition start_identifiers (f : frame) : option (string * string) :=
  match f with
  | Text (Some message) =>
      match get message "event" JNull with
      | Ok event_type =>
          if is_str event_type "start" then
            match (start <- get message "start" (JDict []) ;;
                   call <- get start "callSid" JNull ;;
                   sid <- get start "streamSid" JNull ;;
                   Ok (call, sid)) with
            | Ok (JStr call, JStr sid) => Some (call, sid)
            | _ => None
            end
          else None
      | Raise _ => None
      end
  | _ => None
  end.

Definition media_payload (f : frame) : option string :=
  match f with
  | Text (Some message) =>
      match get message "event" JNull with
      | Ok event_type =>
          if is_str event_type "media" then
            match (media <- get message "media" (JDict []) ;;
                   get media "payload" JNull) with
            | Ok (JStr payload) => Some payload
            | _ => None
            end
          else None
      | Raise _ => None
      end
  | _ => None
  end.

Definition is_control (f : frame) : bool :=
  match f with
  | Binary _ | Text None => true
  | Text (Some message) =>
      match get message "event" JNull with
      | Ok event_type =>
          hashable event_type
          && negb (is_str event_type "start")
          && negb (is_str event_type "media")
      | Raise _ => false
      end
  end.

Section Serialised.
Variable json_dumps : json -> string.

(** [handle_message(raw_message)]. *)
Definition handle_message (s : stream) (raw_message : frame) : handled :=
  match raw_message with
  | Binary _ => Done s
  | Text None => Done s
  | Text (Some message) =>
      match get message "event" JNull with
      | Raise e => Failed e s
      | Ok event_type =>
          if is_str event_type "start" then
            match (start <- get message "start" (JDict []) ;;
                   call <- get start "callSid" JNull ;;
                   sid <- get start "streamSid" JNull ;;
                   Ok (call, sid)) with
            | Raise e => Failed e s
            | Ok (call, sid) =>
                match identifier call, identifier sid with
                | Some call, Some sid =>
                    Done {| twilio :=
                              {| call_sid := call;
                                 stream_sid := sid;
                                 recording_sid := recording_sid (twilio s);
                                 attempt := attempt (twilio s) |};
                            voice_live_handler :=
                              VoiceLive.update_stream_context (voice_live_handler s)
                                {| VoiceLive.arg_call_sid := call;
                                   VoiceLive.arg_stream_sid := sid;
                                   VoiceLive.arg_recording_sid :=
                                     recording_sid (twilio s);
                                   VoiceLive.arg_attempt :=
                                     attempt_argument (attempt (twilio s)) |};
                            send_queue := send_queue s |}
                | _, _ => Untyped
                end
            end
          else if is_str event_type "media" then
            match (media <- get message "media" (JDict []) ;;
                   get media "payload" JNull) with
            | Raise e => Failed e s
            | Ok payload =>
                if negb (truthy payload) then Done s
                else
                  match (match payload with
                         | JStr p =>
                             Twilio.mulaw_b64_to_pcm16 p
                               (Some Twilio.TARGET_SAMPLE_RATE_HZ)
                         | _ => Raise TypeError
                         end) with
                  | Raise e => Failed e s
                  | Ok pcm16 =>
                      Done {| twilio := twilio s;
                              voice_live_handler := voice_live_handler s;
                              send_queue :=
                                RelaySend.send_pcm16 json_dumps (send_queue s) pcm16 |}
                  end
            end
          else if is_str event_type "stop" then Done s
          else if negb (hashable event_type) then Failed TypeError s
          else Done s
      end
  end.

(** The receive loop of the [/twilio/stream] endpoint over the frames that
    arrive: the first exception ends it. *)
Fixpoint handle_all (s : stream) (frames : list frame) : handled :=
  match frames with
  | [] => Done s
  | f :: rest =>
      match handle_message s f with
      | Done s' => handle_all s' rest
      | other => other
      end
  end.

(** [send_transcript(text, speaker_prefix=...)]: the frame handed to
    [websocket.send], if any. *)
Definition send_transcript (self : TwilioMediaStreamHandler) (text : string)
           (speaker_prefix : option string) : option string :=
  match stream_sid self with
  | Some sid =>
      if String.eqb sid "" then None
      else
        let content :=
          match speaker_prefix with
          | Some p => if String.eqb p "" then text else (p ++ ": " ++ text)%string
          | None => text
          end in
        Some (json_dumps (JDict [ ("event"%string, JStr "message");
                                  ("streamSid"%string, JStr sid);
                                  ("text"%string, JStr content) ]))
  | None => None
  end.

Definition send_user_transcript (self : TwilioMediaStreamHandler) (text : string)
  : option string :=
  send_transcript self text (Some "Caller"%string).

Definition send_ai_transcript (self : TwilioMediaStreamHandler) (text : string)
  : option string :=
  send_transcript self text (Some "Assistant"%string).

End Serialised.

End TwilioStream.

(** ** voice_live_handler.py: connection lifecycle *)

Module Lifecycle.
Import Json.

(** [s.rstrip("/")]: [s] without its trailing slashes. *)
Fixpoint rstrip_slash (s : string) : string :=
  match s with
  | EmptyString => EmptyString
  | String a rest =>
      let r := rstrip_slash rest in
      if String.eqb r "" && Ascii.eqb a "/" then EmptyString else String a r
  end.

Fixpoint drop (n : nat) (s : string) : string :=
  match n, s with
  | O, _ => s
  | S n', String _ rest => drop n' rest
  | S _, EmptyString => EmptyString
  end.

(** [s.replace(old, new, 1)]: the leftmost occurrence of [old] replaced. *)
Fixpoint replace_first (old new s : string) : string :=
  if String.prefix old s then (new ++ drop (String.length old) s)%string
  else
    match s with
    | EmptyString => EmptyString
    | String a rest => String a (replace_first old new rest)
    end.

(** A Python [float] literal [num/den]. *)
Definition double (num den : Z) : spec_float :=
  SFdiv 53 1024 (binary_normalize 53 1024 num 0 false)
                (binary_normalize 53 1024 den 0 false).

(** [session_config()]. *)
Definition session_config : json :=
  JDict
    [ ("type"%string, JStr "session.update");
      ("session"%string,
       JDict
         [ ("instructions"%string,
            JStr "You are a helpful AI assistant responding in natural, engaging language.");
           ("turn_detection"%string,
            JDict
              [ ("type"%string, JStr "azure_semantic_vad");
                ("threshold"%string, JFloat (double 3 10));
                ("prefix_padding_ms"%string, JInt 200);
                ("silence_duration_ms"%string, JInt 200);
                ("remove_filler_words"%string, JBool false);
                ("end_of_utterance_detection"%string,
                 JDict
                   [ ("model"%string, JStr "semantic_detection_v1");
                     ("threshold"%string, JFloat (double 1 100));
                     ("timeout"%string, JInt 2) ]) ]);
           ("input_audio_noise_reduction"%string,
            JDict [ ("type"%string, JStr "azure_deep_noise_suppression") ]);
           ("input_audio_echo_cancellation"%string,
            JDict [ ("type"%string, JStr "server_echo_cancellation") ]);
           ("voice"%string,
            JDict
              [ ("name"%string, JStr "en-US-Alloy:DragonHDLatestNeural");
                ("type"%string, JStr "azure-standard");
                ("temperature"%string, JFloat (double 8 10)) ]) ]) ].

(** An open websocket, told by what it was opened with. *)
Record connection : Type := {
  url : string;
  headers : list (string * string)
}.

(** The attributes of [VoiceLiveStreamingHandler] the lifecycle reads and
    writes.  Tasks are told by their names; [_background_tasks] is the set
    of persistence tasks not yet done. *)
Record Relay : Type := {
  endpoint : string;
  model : string;
  api_key : string;
  client_id : string;
  enable_responses : bool;
  send_queue : list string;
  ws : option connection;
  _sender_task : option string;
  _receiver_task : option string;
  _background_tasks : list string
}.

(** How an awaited task ends. *)
Inductive task_end : Type :=
| Finished
| Cancelled
| Crashed (e : exn).

(** What is outside the handler: the credential, the websocket library
    and the event loop.  Each call returns or raises, and does so the same
    way whenever it is made with the same arguments. *)
Record World : Type := {
  uuid4 : string;
  get_token : string -> result string;
  ws_connect : string -> list (string * string) -> result unit;
  ws_send : string -> result unit;
  ws_close : result unit;
  await_task : string -> task_end
}.

Inductive action : Type :=
| GetToken (client : string)
| Connect (to : string) (with_headers : list (string * string))
| Send (message : string)
| CloseTransport
| CreateTask (name : string)
| Cancel (name : string)
| Await (name : string)
| LogException (message : string).

(** How a coroutine ends, with the handler it leaves. *)
Inductive ended : Type :=
| Returned (self : Relay)
| Raised (e : exn) (self : Relay).

Definition with_ws (self : Relay) (c : option connection) : Relay :=
  {| endpoint := endpoint self; model := model self; api_key := api_key self;
     client_id := client_id self; enable_responses := enable_responses self;
     send_queue := send_queue self;
     ws := c;
     _sender_task := _sender_task self; _receiver_task := _receiver_task self;
     _background_tasks := _background_tasks self |}.

Definition with_loops (self : Relay) (sender receiver : option string) : Relay :=
  {| endpoint := endpoint self; model := model self; api_key := api_key self;
     client_id := client_id self; enable_responses := enable_responses self;
     send_queue := send_queue self;
     ws := ws self;
     _sender_task := sender; _receiver_task := receiver;
     _background_tasks := _background_tasks self |}.

Section Coroutines.
Variable json_dumps : json -> string.
Variable world : World.

(** The URL [start] connects to. *)
Definition realtime_url (self : Relay) : string :=
  replace_first "https://" "wss://"
    (rstrip_slash (endpoint self)
     ++ "/voice-live/realtime?api-version=2025-05-01-preview&model="
     ++ model self)%string.

(** [start()], run without interference. *)
Definition start (self : Relay) : list action * ended :=
  match ws self with
  | Some _ => ([], Returned self)
  | None =>
      let first_header := ("x-ms-client-request-id"%string, uuid4 world) in
      let credentials : list action * result (list (string * string)) :=
        if negb (String.eqb (client_id self) "") then
          match get_token world (client_id self) with
          | Ok token =>
              ([GetToken (client_id self)],
               Ok [first_header; ("Authorization"%string, ("Bearer " ++ token)%string)])
          | Raise e => ([GetToken (client_id self)], Raise e)
          end
        else if negb (String.eqb (api_key self) "") then
          ([], Ok [first_header; ("api-key"%string, api_key self)])
        else ([], Raise ValueError) in
      match credentials with
      | (t, Raise e) => (t, Raised e self)
      | (t, Ok hs) =>
          let target := realtime_url self in
          match ws_connect world target hs with
          | Raise e => (t ++ [Connect target hs], Raised e self)
          | Ok _ =>
              let t := t ++ [Connect target hs] in
              let self := with_ws self (Some {| url := target; headers := hs |}) in
              let config := json_dumps session_config in
              match ws_send world config with
              | Raise e => (t ++ [Send config], Raised e self)
              | Ok _ =>
                  let t := t ++ [Send config] in
                  let create := json_dumps (JDict [("type"%string, JStr "response.create")]) in
                  let requested : list action * result unit :=
                    if enable_responses self then ([Send create], ws_send world create)
                    else ([], Ok tt) in
                  match requested with
                  | (t', Raise e) => (t ++ t', Raised e self)
                  | (t', Ok _) =>
                      (t ++ t' ++ [CreateTask "voice-live-sender";
                                   CreateTask "voice-live-receiver"],
                       Returned (with_loops self (Some "voice-live-sender"%string)
                                            (Some "voice-live-receiver"%string)))
                  end
              end
          end
      end
  end.

(** [await task] inside [try ... except CancelledError: pass except
    Exception: log]. *)
Definition await_quietly (message : string) (name : string) : list action :=
  match await_task world name with
  | Crashed _ => [Await name; LogException message]
  | _ => [Await name]
  end.

Definition present (tasks : list (option string)) : list string :=
  flat_map (fun t => match t with Some n => [n] | None => [] end) tasks.

(** [close()], run without interference. *)
Definition close (self : Relay) : list action * ended :=
  let tasks := present [_sender_task self; _receiver_task self] in
  let t1 := map Cancel tasks
            ++ flat_map (await_quietly "[VoiceLive] Error during task shutdown") tasks in
  let t2 := map Cancel (_background_tasks self)
            ++ flat_map (await_quietly "[VoiceLive] Background task error during shutdown")
                        (_background_tasks self) in
  let self1 :=
    {| endpoint := endpoint self; model := model self; api_key := api_key self;
       client_id := client_id self; enable_responses := enable_responses self;
       send_queue := send_queue self;
       ws := ws self;
       _sender_task := None; _receiver_task := None;
       _background_tasks := [] |} in
  match ws self with
  | Some _ =>
      match ws_close world with
      | Raise e => (t1 ++ t2 ++ [CloseTransport], Raised e self1)
      | Ok _ =>
          (t1 ++ t2 ++ [CloseTransport],
           Returned {| endpoint := endpoint self; model := model self;
                       api_key := api_key self; client_id := client_id self;
                       enable_responses := enable_responses self;
                       send_queue := [];
                       ws := None;
                       _sender_task := None; _receiver_task := None;
                       _background_tasks := [] |})
      end
  | None =>
      (t1 ++ t2,
       Returned {| endpoint := endpoint self; model := model self;
                   api_key := api_key self; client_id := client_id self;
                   enable_responses := enable_responses self;
                   send_queue := [];
                   ws := None;
                   _sender_task := None; _receiver_task := None;
                   _background_tasks := [] |})
  end.

(** [_sender_loop] over the messages that are queued: what it writes, and
    what is left in the queue when it stops.  It stops at the first write
    that raises (the message is lost); with the queue empty it waits. *)
Fixpoint _sender_loop (connected : bool) (queue : list string)
  : list action * list string :=
  match queue with
  | [] => ([], [])
  | msg :: rest =>
      if connected then
        match ws_send world msg with
        | Ok _ =>
            let '(t, remaining) := _sender_loop connected rest in
            (Send msg :: t, remaining)
        | Raise _ =>
            ([Send msg; LogException "[VoiceLive] Sender loop error"], rest)
        end
      else _sender_loop connected rest
  end.

End Coroutines.

End Lifecycle.

(** ** Sample streams, relays and collaborators *)

Module StreamSamples.
Import Json VoiceLive RelaySamples.
Local Open Scope string_scope.

Definition quoted (s : string) : string :=
  String (ascii_of_nat 34) (s ++ String (ascii_of_nat 34) "").

(** A stand-in for [json.dumps]: strings without characters to escape,
    [None], booleans, lists and dicts are rendered as [json.dumps] renders
    them; a number is rendered as [0]. *)
Fixpoint text_dumps (v : json) : string :=
  match v with
  | JNull => "null"
  | JBool true => "true"
  | JBool false => "false"
  | JInt _ => "0"
  | JFloat _ => "0"
  | JStr s => quoted s
  | JList l =>
      "[" ++ (fix elements (l : list json) : string :=
                match l with
                | [] => ""
                | x :: rest =>
                    text_dumps x
                    ++ match rest with [] => "" | _ => ", " ++ elements rest end
                end) l ++ "]"
  | JDict items =>
      "{" ++ (fix members (kvs : list (string * json)) : string :=
                match kvs with
                | [] => ""
                | (k, x) :: rest =>
                    quoted k ++ ": " ++ text_dumps x
                    ++ match rest with [] => "" | _ => ", " ++ members rest end
                end) items ++ "}"
  end.

(** Four mu-law bytes [0x10], in base64, and what
    [mulaw_b64_to_pcm16] makes of them at 24 kHz. *)
Definition tone : string := "EBAQEA==".

Definition tone_pcm16 : bytes :=
  Eval vm_compute in
    match Twilio.mulaw_b64_to_pcm16 tone (Some Twilio.TARGET_SAMPLE_RATE_HZ) with
    | Ok pcm16 => pcm16
    | Raise _ => []
    end.

(** Frames as Twilio sends them, with the members the handler does not
    read. *)
Definition twilio_connected : TwilioStream.frame :=
  TwilioStream.Text
    (Some (JDict [ ("event", JStr "connected"); ("protocol", JStr "Call");
                   ("version", JStr "1.0.0") ])).

Definition twilio_start : TwilioStream.frame :=
  TwilioStream.Text
    (Some (JDict
             [ ("event", JStr "start");
               ("sequenceNumber", JStr "1");
               ("start",
                JDict [ ("accountSid", JStr "AC1");
                        ("streamSid", JStr "MZ1");
                        ("callSid", JStr "CA1");
                        ("tracks", JList [JStr "inbound"]);
                        ("mediaFormat",
                         JDict [ ("encoding", JStr "audio/x-mulaw");
                                 ("sampleRate", JInt 8000);
                                 ("channels", JInt 1) ]) ]);
               ("streamSid", JStr "MZ1") ])).

Definition twilio_media : TwilioStream.frame :=
  TwilioStream.Text
    (Some (JDict
             [ ("event", JStr "media");
               ("sequenceNumber", JStr "2");
               ("media",
                JDict [ ("track", JStr "inbound");
                        ("chunk", JStr "1");
                        ("timestamp", JStr "5");
                        ("payload", JStr tone) ]);
               ("streamSid", JStr "MZ1") ])).

Definition twilio_mark : TwilioStream.frame :=
  TwilioStream.Text
    (Some (JDict [ ("event", JStr "mark"); ("sequenceNumber", JStr "3");
                   ("streamSid", JStr "MZ1");
                   ("mark", JDict [("name", JStr "greeting")]) ])).

Definition twilio_stop : TwilioStream.frame :=
  TwilioStream.Text
    (Some (JDict [ ("event", JStr "stop"); ("sequenceNumber", JStr "5");
                   ("streamSid", JStr "MZ1");
                   ("stop", JDict [ ("accountSid", JStr "AC1");
                                    ("callSid", JStr "CA1") ]) ])).

(** The stream of a voicemail call: recording and attempt come with the
    websocket's query string. *)
Definition voicemail_stream : TwilioStream.stream :=
  {| TwilioStream.twilio := TwilioStream.__init__ (Some "RE1") (AttemptInt 1);
     TwilioStream.voice_live_handler := new_handler (Some store) None;
     TwilioStream.send_queue := [] |}.

(** The stream of a call without recording and attempt. *)
Definition anonymous_stream : TwilioStream.stream :=
  {| TwilioStream.twilio := TwilioStream.__init__ None AttemptNone;
     TwilioStream.voice_live_handler := new_handler (Some store) (Some failing_queue);
     TwilioStream.send_queue := [] |}.

(** A world in which every call succeeds and tasks end when cancelled. *)
Definition friendly_world : Lifecycle.World :=
  {| Lifecycle.uuid4 := "3f2b8c1e-0d4a-4e6b-9a57-1c2d3e4f5a6b";
     Lifecycle.get_token := fun _ => Ok "token";
     Lifecycle.ws_connect := fun _ _ => Ok tt;
     Lifecycle.ws_send := fun _ => Ok tt;
     Lifecycle.ws_close := Ok tt;
     Lifecycle.await_task := fun _ => Lifecycle.Cancelled |}.

(** A world whose websocket opens and then refuses every message. *)
Definition deaf_world : Lifecycle.World :=
  {| Lifecycle.uuid4 := "3f2b8c1e-0d4a-4e6b-9a57-1c2d3e4f5a6b";
     Lifecycle.get_token := fun _ => Ok "token";
     Lifecycle.ws_connect := fun _ _ => Ok tt;
     Lifecycle.ws_send := fun _ => Raise (Exception "connection closed");
     Lifecycle.ws_close := Ok tt;
     Lifecycle.await_task := fun _ => Lifecycle.Cancelled |}.

(** The relay [__init__] builds from an endpoint and a key. *)
Definition key_relay (key : string) : Lifecycle.Relay :=
  {| Lifecycle.endpoint := "https://voice.example/";
     Lifecycle.model := "gpt-4o-mini";
     Lifecycle.api_key := key;
     Lifecycle.client_id := "";
     Lifecycle.enable_responses := true;
     Lifecycle.send_queue := [];
     Lifecycle.ws := None;
     Lifecycle._sender_task := None;
     Lifecycle._receiver_task := None;
     Lifecycle._background_tasks := [] |}.

(** A relay in the middle of a call: connected, both loops running, one
    transcript being persisted, one message waiting to be sent. *)
Definition busy_relay : Lifecycle.Relay :=
  {| Lifecycle.endpoint := "https://voice.example/";
     Lifecycle.model := "gpt-4o-mini";
     Lifecycle.api_key := "secret";
     Lifecycle.client_id := "";
     Lifecycle.enable_responses := true;
     Lifecycle.send_queue := ["pending"];
     Lifecycle.ws :=
       Some {| Lifecycle.url := "wss://voice.example/voice-live/realtime";
               Lifecycle.headers := [("api-key", "secret")] |};
     Lifecycle._sender_task := Some "voice-live-sender";
     Lifecycle._receiver_task := Some "voice-live-receiver";
     Lifecycle._background_tasks := ["voice-live-transcript-persist"] |}.

End StreamSamples.

(** * Properties *)

(** ** Codec and resampler *)

Section CodecFacts.
Import Audioop Twilio.

Lemma le_bytes_length (w : nat) (z : Z) : List.length (le_bytes w z) = w.
Proof.
  revert z; induction w as [|w IH]; intros z; simpl; [reflexivity|].
  now rewrite IH.
Qed.

Lemma SETSAMPLE32_length (v : Z) : List.length (SETSAMPLE32 2 v) = 2%nat.
Proof. unfold SETSAMPLE32. apply le_bytes_length. Qed.

Lemma ulaw2lin_length (fragment pcm16 : bytes) :
  ulaw2lin fragment 2 = Ok pcm16 ->
  List.length pcm16 = (2 * List.length fragment)%nat.
Proof.
  unfold ulaw2lin; simpl. intros H; injection H as <-.
  induction fragment as [|b rest IH]; [reflexivity|].
  cbn [flat_map]. rewrite length_app, SETSAMPLE32_length, IH. simpl. lia.
Qed.

(** The turns [ratecv_feed] grants the output loop are enough: it is left
    with [d < 0], as the C loop is. *)
Lemma ratecv_emit_exits (fuel : nat) :
  forall (width inrate outrate prev_i cur_i d : Z) (out : bytes),
    1 <= inrate -> d < Z.of_nat fuel ->
    fst (ratecv_emit fuel width inrate outrate prev_i cur_i d out) < 0.
Proof.
  induction fuel as [|fuel IH]; intros width inrate outrate prev_i cur_i d out Hin Hd.
  - cbn. lia.
  - cbn [ratecv_emit]. destruct (Z.leb_spec 0 d).
    + apply IH; lia.
    + cbn. lia.
Qed.

(** With [inrate = 1] and [outrate = 3] a frame taken at [d = -1] is
    followed by exactly three output samples, and [d] is [-1] again. *)
Lemma ratecv_emit_three (prev_i cur_i : Z) (out : bytes) :
  exists a b c,
    ratecv_emit (Z.to_nat (-1 + 3 + 1)) 2 1 3 prev_i cur_i (-1 + 3) out
    = (-1, ((out ++ SETSAMPLE32 2 a) ++ SETSAMPLE32 2 b) ++ SETSAMPLE32 2 c).
Proof.
  change (Z.to_nat (-1 + 3 + 1)) with 3%nat. change (-1 + 3) with 2.
  cbn [ratecv_emit].
  change (0 <=? 2) with true. cbv iota.
  change (2 - 1) with 1. change (0 <=? 1) with true. cbv iota.
  change (1 - 1) with 0. change (0 <=? 0) with true. cbv iota.
  change (0 - 1) with (-1).
  eexists _, _, _. reflexivity.
Qed.

Lemma ratecv_feed_steady (len : nat) :
  forall (cp : bytes) (prev_i cur_i : Z) (out : bytes),
    List.length (fst (ratecv_feed len cp 2 1 3 prev_i cur_i (-1) out))
    = (List.length out + 6 * len)%nat.
Proof.
  induction len as [|len IH]; intros cp prev_i cur_i out.
  - simpl. lia.
  - cbn [ratecv_feed].
    destruct (ratecv_emit_three cur_i
                (Z.quot (1 * GETSAMPLE32 2 cp + 0 * cur_i) (1 + 0)) out)
      as (a & b & c & E).
    rewrite E. rewrite IH.
    rewrite !length_app, !SETSAMPLE32_length. lia.
Qed.

(** The first frame is taken at [d = -outrate] and gives one sample. *)
Lemma ratecv_feed_from_start (len : nat) (cp : bytes) :
  List.length (fst (ratecv_feed len cp 2 1 3 0 0 (-3) []))
  = (2 * (3 * len - 2))%nat.
Proof.
  destruct len as [|len]; [reflexivity|].
  cbn [ratecv_feed].
  change (-3 + 3) with 0. change (Z.to_nat (0 + 1)) with 1%nat.
  cbn [ratecv_emit]. change (0 <=? 0) with true. cbv iota.
  change (0 - 1) with (-1).
  rewrite ratecv_feed_steady, length_app, SETSAMPLE32_length. simpl List.length. lia.
Qed.

Lemma ratecv_8k_to_24k (pcm16 : bytes) (n : nat) :
  List.length pcm16 = (2 * n)%nat ->
  exists out state,
    ratecv pcm16 2 SOURCE_SAMPLE_RATE_HZ 24000 = Ok (out, state)
    /\ List.length out = (2 * (3 * n - 2))%nat.
Proof.
  intros Hlen. unfold ratecv, SOURCE_SAMPLE_RATE_HZ.
  change (check_size 2) with true. cbv [negb].
  change ((INT_MAX <? 8000) || (INT_MAX <? 24000)) with false. cbv iota.
  rewrite Hlen.
  replace (Z.of_nat (2 * n) mod 2) with 0
    by (rewrite Nat2Z.inj_mul, Z.mul_comm, Z.mod_mul; lia).
  change (0 =? 0) with true. cbv iota.
  change ((8000 <=? 0) || (24000 <=? 0)) with false. cbv iota.
  change (Z.gcd 8000 24000) with 8000.
  change (8000 / 8000) with 1. change (24000 / 8000) with 3.
  replace (Z.to_nat (Z.of_nat (2 * n) / 2)) with n
    by (rewrite Nat2Z.inj_mul, Z.mul_comm, Z.div_mul; lia).
  destruct (ratecv_feed n pcm16 2 1 3 0 0 (- (3)) []) as [out state] eqn:E.
  exists out, state. split; [reflexivity|].
  pose proof (ratecv_feed_from_start n pcm16) as H.
  change (-3) with (- (3)) in H. rewrite E in H. exact H.
Qed.

End CodecFacts.

Section Resampling.
Import Audioop Twilio.
Local Open Scope string_scope.

(** C7 (as the code has it): for every base64 string that decodes to a
    mu-law buffer of even length [n], decoding and resampling to
    24000 Hz returns without an exception, and the PCM16 result holds
    exactly [3n - 2] samples ([0] for [n = 0]): the first input sample
    yields one output sample and each later one three, so the count lies
    within two samples of [3n], not within one. *)
Theorem mulaw_b64_to_pcm16_sample_count (mulaw_b64 : string) (mulaw : bytes) :
  Base64.b64decode mulaw_b64 = Ok mulaw ->
  Nat.even (List.length mulaw) = true ->
  exists pcm16,
    mulaw_b64_to_pcm16 mulaw_b64 (Some TARGET_SAMPLE_RATE_HZ) = Ok pcm16
    /\ sample_count pcm16 = (3 * List.length mulaw - 2)%nat
    /\ List.length pcm16 = (2 * sample_count pcm16)%nat
    /\ (3 * List.length mulaw - 2 <= sample_count pcm16 <= 3 * List.length mulaw)%nat.
Proof.
  intros Hdec _. unfold mulaw_b64_to_pcm16. rewrite Hdec. cbn [bind].
  destruct (ulaw2lin mulaw 2) as [pcm|e] eqn:Hu; [|discriminate Hu].
  cbn [bind].
  change (negb (TARGET_SAMPLE_RATE_HZ =? 0)%Z
          && negb (TARGET_SAMPLE_RATE_HZ =? SOURCE_SAMPLE_RATE_HZ)%Z) with true.
  cbv iota.
  destruct (ratecv_8k_to_24k pcm (List.length mulaw) (ulaw2lin_length _ _ Hu))
    as (out & state & Hr & Hlen).
  unfold TARGET_SAMPLE_RATE_HZ. rewrite Hr. cbn [bind fst].
  exists out. unfold sample_count. rewrite Hlen.
  rewrite Nat.mul_comm, Nat.div_mul by lia.
  repeat split; lia.
Qed.

Lemma mulaw_b64_to_pcm16_sample_count_witness :
  exists pcm16,
    mulaw_b64_to_pcm16 "EBAQEA==" (Some TARGET_SAMPLE_RATE_HZ) = Ok pcm16
    /\ sample_count pcm16 = 10%nat.
Proof.
  destruct (mulaw_b64_to_pcm16_sample_count "EBAQEA==" [x10; x10; x10; x10])
    as (pcm16 & H & Hn & _); [reflexivity | reflexivity |].
  exists pcm16. split; [exact H | exact Hn].
Defined.

(** C7, counterexample: the two mu-law bytes [ff ff] decode and resample
    to four samples, outside [3 * 2 - 1 .. 3 * 2 + 1]. *)
Lemma mulaw_b64_to_pcm16_not_within_one_sample :
  Base64.b64decode "//8=" = Ok [xff; xff]
  /\ mulaw_b64_to_pcm16 "//8=" (Some TARGET_SAMPLE_RATE_HZ) = Ok (repeat x00 8)
  /\ sample_count (repeat x00 8) = 4%nat
  /\ ~ (3 * 2 - 1 <= sample_count (repeat x00 8) <= 3 * 2 + 1)%nat.
Proof.
  split; [reflexivity|]. split; [vm_compute; reflexivity|].
  split; [reflexivity|]. cbv [sample_count]. simpl. lia.
Qed.

(** C8: when the requested rate is the source rate (8000 Hz) the
    pipeline applies no rate conversion: the result is the output of the
    mu-law decoder, byte for byte, whatever the input. *)
Theorem mulaw_b64_to_pcm16_same_rate_is_decode (mulaw_b64 : string) :
  mulaw_b64_to_pcm16 mulaw_b64 (Some SOURCE_SAMPLE_RATE_HZ)
  = (mulaw_bytes <- Base64.b64decode mulaw_b64 ;; ulaw2lin mulaw_bytes 2).
Proof.
  unfold mulaw_b64_to_pcm16.
  destruct (Base64.b64decode mulaw_b64) as [mulaw|e]; [|reflexivity].
  cbn [bind]. destruct (ulaw2lin mulaw 2) as [pcm|e]; [|reflexivity].
  cbn [bind]. rewrite Z.eqb_refl. rewrite andb_false_r. reflexivity.
Qed.

End Resampling.

(** ** Ambient mixer *)

Section MixerFacts.
Import Float32 Mixer.

Lemma slice_bounds_in_range (len s k : nat) :
  (s + k <= len)%nat ->
  Py.slice_bounds (Z.of_nat len) (Z.of_nat s) (Z.of_nat s + Z.of_nat k) = (s, k).
Proof.
  intros H. unfold Py.slice_bounds, Py.slice_index.
  destruct (Z.ltb_spec (Z.of_nat s) 0); [lia|].
  destruct (Z.ltb_spec (Z.of_nat s + Z.of_nat k) 0); [lia|].
  rewrite !Z.min_l by lia.
  f_equal; lia.
Qed.

Lemma getslice_in_range {A : Type} (a : list A) (s k : nat) :
  (s + k <= List.length a)%nat ->
  Py.getslice a (Z.of_nat s) (Z.of_nat s + Z.of_nat k) = firstn k (skipn s a).
Proof.
  intros H. unfold Py.getslice. now rewrite slice_bounds_in_range.
Qed.

Lemma setslice_in_range {A : Type} (a v : list A) (s k : nat) :
  (s + k <= List.length a)%nat -> List.length v = k ->
  Py.setslice a (Z.of_nat s) (Z.of_nat s + Z.of_nat k) v
  = Some (firstn s a ++ v ++ skipn (s + k) a).
Proof.
  intros H Hv. unfold Py.setslice. rewrite slice_bounds_in_range by exact H.
  rewrite Hv, Nat.eqb_refl. reflexivity.
Qed.

Lemma setslice_length {A : Type} (a v a' : list A) (start stop : Z) :
  Py.setslice a start stop v = Some a' -> List.length a' = List.length a.
Proof.
  unfold Py.setslice, Py.slice_bounds, Py.slice_index.
  set (n := Z.of_nat (List.length a)).
  set (s := if start <? 0 then Z.max (start + n) 0 else Z.min start n).
  set (e := if stop <? 0 then Z.max (stop + n) 0 else Z.min stop n).
  assert (Hs : 0 <= s <= n) by (subst s n; destruct (Z.ltb_spec start 0); lia).
  assert (He : 0 <= e <= n) by (subst e n; destruct (Z.ltb_spec stop 0); lia).
  assert (Hk : (Z.to_nat s + Z.to_nat (e - s) <= List.length a)%nat) by lia.
  destruct (Nat.eqb_spec (List.length v) (Z.to_nat (e - s))) as [Hv|Hv].
  - intros H; injection H as <-.
    rewrite !length_app, length_firstn, length_skipn. lia.
  - destruct v as [|x [|y v]]; try discriminate.
    intros H; injection H as <-.
    rewrite !length_app, length_firstn, length_skipn, repeat_length. lia.
Qed.

Lemma noise_loop_length (fuel : nat) :
  forall (buffer chunk chunk' : list f32) (position offset remaining p : Z),
    noise_loop fuel buffer chunk position offset remaining = Some (Ok chunk', p) ->
    List.length chunk' = List.length chunk.
Proof.
  induction fuel as [|fuel IH]; intros buffer chunk chunk' position offset remaining p;
    cbn [noise_loop]; destruct (0 <? remaining); try discriminate;
    try (intros H; injection H as <- _; reflexivity).
  destruct (Py.setslice _ _ _ _) as [c1|] eqn:E; [|discriminate].
  intros H. apply IH in H. rewrite H. eapply setslice_length; eassumption.
Qed.

Lemma looped_read_length (buffer : list f32) (c n : nat) :
  List.length (looped_read buffer c n) = n.
Proof. unfold looped_read. now rewrite length_map, length_seq. Qed.

Lemma map_seq_from {A : Type} (b : nat) :
  forall (f : nat -> A) (a : nat),
    map f (seq a b) = map (fun i => f (a + i)%nat) (seq 0 b).
Proof.
  induction b as [|b IH]; intros f a; [reflexivity|].
  cbn [seq map]. rewrite Nat.add_0_r. f_equal.
  rewrite (IH f (S a)), (IH (fun i => f (a + i)%nat) 1%nat).
  apply map_ext. intros i. f_equal. lia.
Qed.

Lemma looped_read_app (buffer : list f32) (c a b : nat) :
  List.length buffer <> 0%nat ->
  looped_read buffer c (a + b)
  = looped_read buffer c a ++ looped_read buffer ((c + a) mod List.length buffer) b.
Proof.
  intros HL. unfold looped_read.
  rewrite seq_app, map_app. f_equal.
  rewrite map_seq_from. apply map_ext. intros i.
  rewrite Nat.Div0.add_mod_idemp_l.
  f_equal. f_equal. lia.
Qed.

Lemma looped_read_no_wrap (buffer : list f32) (c a : nat) :
  (c + a <= List.length buffer)%nat ->
  looped_read buffer c a = firstn a (skipn c buffer).
Proof.
  intros H. apply (nth_ext _ _ zero zero).
  - rewrite looped_read_length, length_firstn, length_skipn. lia.
  - rewrite looped_read_length. intros i Hi.
    unfold looped_read.
    rewrite (nth_indep _ zero (nth ((c + 0) mod List.length buffer) buffer zero))
      by (rewrite length_map, length_seq; exact Hi).
    rewrite (map_nth (fun i => nth ((c + i) mod List.length buffer) buffer zero)
                     (seq 0 a) 0%nat i).
    rewrite seq_nth by exact Hi. simpl Nat.add.
    rewrite nth_firstn. destruct (Nat.ltb_spec i a); [|lia].
    rewrite nth_skipn. rewrite Nat.mod_small by lia. reflexivity.
Qed.

(** The loop from a cursor inside the buffer: each turn copies at least one
    sample, so [remaining] turns are enough, and what it writes from
    [offset] on is the wrap-around read. *)
Lemma noise_loop_in_range (buffer : list f32) (fuel : nat) :
  forall (chunk : list f32) (p o r : nat),
    (p < List.length buffer)%nat ->
    (o + r = List.length chunk)%nat ->
    (r <= fuel)%nat ->
    noise_loop fuel buffer chunk (Z.of_nat p) (Z.of_nat o) (Z.of_nat r)
    = Some (Ok (firstn o chunk ++ looped_read buffer p r),
            Z.of_nat ((p + r) mod List.length buffer)).
Proof.
  set (L := List.length buffer).
  induction fuel as [|fuel IH]; intros chunk p o r Hp Hlen Hfuel.
  - assert (r = 0)%nat as -> by lia. cbn.
    rewrite Nat.add_0_r in *. rewrite Nat.mod_small by exact Hp.
    rewrite app_nil_r, Hlen, firstn_all. reflexivity.
  - cbn [noise_loop]. destruct (Z.ltb_spec 0 (Z.of_nat r)) as [Hr|Hr].
    + set (k := Nat.min (L - p) r).
      assert (Hk : (1 <= k <= r)%nat) by (subst k; lia).
      replace (Z.min (Z.of_nat (List.length buffer) - Z.of_nat p) (Z.of_nat r))
        with (Z.of_nat k) by (subst k L; lia).
      rewrite getslice_in_range by (subst k L; lia).
      rewrite setslice_in_range
        by (try (rewrite length_firstn, length_skipn; subst k L); lia).
      replace (Z.of_nat r - Z.of_nat k) with (Z.of_nat (r - k)) by lia.
      rewrite <- !Nat2Z.inj_add.
      replace (if Z.of_nat (List.length buffer) <=? Z.of_nat (p + k)
               then 0 else Z.of_nat (p + k))
        with (Z.of_nat ((p + k) mod L)).
      2:{ destruct (Z.leb_spec (Z.of_nat (List.length buffer)) (Z.of_nat (p + k))).
          - assert (p + k = L)%nat as -> by (subst k L; lia).
            rewrite Nat.Div0.mod_same. reflexivity.
          - rewrite Nat.mod_small by (subst L; lia). reflexivity. }
      rewrite IH.
      * f_equal. f_equal.
        -- rewrite <- looped_read_no_wrap by (subst k L; lia).
           replace r with (k + (r - k))%nat at 2 by lia.
           rewrite looped_read_app by (subst L; lia). fold L.
           rewrite (app_assoc _ _ (looped_read buffer ((p + k) mod L) (r - k))). f_equal. f_equal.
           rewrite firstn_app, length_firstn.
           replace (o + k - Nat.min o (List.length chunk))%nat with k by lia.
           rewrite firstn_firstn. replace (Nat.min (o + k) o) with o by lia.
           rewrite firstn_app, looped_read_length, Nat.sub_diag, firstn_O, app_nil_r.
           rewrite firstn_all2 with (l := looped_read buffer p k)
             by (rewrite looped_read_length; lia).
           reflexivity.
        -- f_equal. rewrite Nat.Div0.add_mod_idemp_l. f_equal. lia.
      * apply Nat.mod_upper_bound. subst L; lia.
      * rewrite !length_app, length_firstn, length_skipn, length_firstn, length_skipn.
        subst k L. lia.
      * lia.
    + assert (r = 0)%nat as -> by lia.
      rewrite Nat.add_0_r in *. rewrite Nat.mod_small by exact Hp.
      cbn [looped_read seq map]. rewrite app_nil_r, Hlen, firstn_all. reflexivity.
Qed.


Lemma get_noise_chunk_length (fuel : nat) (self self' : AmbientMixer)
      (num_samples : Z) (chunk : list f32) :
  _get_noise_chunk fuel self num_samples = Returns chunk self' ->
  List.length chunk = Z.to_nat num_samples.
Proof.
  unfold _get_noise_chunk. destruct (num_samples <? 0); [discriminate|].
  destruct (_noise_buffer self) as [buffer|].
  - destruct (noise_loop _ _ _ _ _ _) as [[[c|e] p]|] eqn:E; try discriminate.
    intros H; injection H as <- _.
    apply noise_loop_length in E. rewrite E. apply repeat_length.
  - intros H; injection H as <- _. apply repeat_length.
Qed.

Lemma threshold_value : threshold = S754_finite false 15938355 (-24).
Proof. vm_compute. reflexivity. Qed.

Lemma int16_elements_silence (k : nat) :
  int16_elements (repeat x00 (2 * k)) = repeat 0 k.
Proof.
  induction k as [|k IH]; [reflexivity|].
  replace (2 * S k)%nat with (S (S (2 * k))) by lia.
  cbn [repeat int16_elements]. rewrite IH. reflexivity.
Qed.

Lemma combine_repeat_add (k : nat) :
  forall l : list f32,
    List.length l = k ->
    map (fun p => add (fst p) (snd p)) (combine (repeat zero k) l)
    = map (add zero) l.
Proof.
  induction k as [|k IH]; intros [|x l] H; try discriminate; [reflexivity|].
  cbn [repeat combine map fst snd]. rewrite IH by (simpl in H; lia). reflexivity.
Qed.

Section ZeroSpeech.
Variable np : Numpy.
Hypothesis tanh_zero : forall s, np_tanh np (S754_zero s) = S754_zero s.

(** Adding a zero speech sample changes a noise sample only when it is
    [-0.0], and both zeros end as the integer [0]. *)
Lemma add_zero_same_pcm (x : f32) :
  astype_int16 np
    (mul (mul (np_tanh np (div (add zero x) threshold)) threshold) (of_Z 32767))
  = astype_int16 np
      (mul (mul (np_tanh np (div x threshold)) threshold) (of_Z 32767)).
Proof.
  rewrite threshold_value.
  destruct x as [[|]| | |]; try reflexivity.
  cbn [add zero SFadd div SFdiv xorb]. rewrite !tanh_zero. reflexivity.
Qed.

(** A zero sample passes the soft clip as a zero of the same sign. *)
Lemma soft_clip_zero (s : bool) :
  _soft_clip np [S754_zero s] = [S754_zero s].
Proof.
  unfold _soft_clip. cbn [map]. rewrite threshold_value.
  cbn [div SFdiv xorb]. rewrite tanh_zero. destruct s; reflexivity.
Qed.

Lemma zero_speech_same_pcm (noise : list f32) :
  to_pcm16 np (_soft_clip np (map (add zero) noise))
  = to_pcm16 np (_soft_clip np noise).
Proof.
  unfold to_pcm16, _soft_clip. f_equal. rewrite !map_map.
  apply map_ext. intros x. apply add_zero_same_pcm.
Qed.

End ZeroSpeech.

End MixerFacts.

Section MixerProperties.
Import Float32 Mixer Samples.

(** C3: for an Enabled mixer whose noise buffer has length [L > 0] and
    whose cursor [c] lies in [[0, L)], reading [num_samples] samples
    returns exactly the samples [buffer[(c + i) mod L]] for
    [i = 0 .. num_samples - 1] (a span longer than the buffer wraps to
    offset 0 with no gap and no repeated sample).  The cursor of the mixer
    it leaves is [(c + num_samples) mod L], which is again in [[0, L)];
    preset, buffer and gain are as before, so the mixer is still enabled.
    [reset] leaves the cursor at 0, also in [[0, L)].  The loop needs at
    most [num_samples] turns. *)
Theorem get_noise_chunk_wraps (fuel : nat) (self : AmbientMixer)
        (buffer : list f32) (num_samples : Z) :
  is_enabled self = true ->
  _noise_buffer self = Some buffer ->
  0 < Z.of_nat (List.length buffer) ->
  0 <= _noise_position self < Z.of_nat (List.length buffer) ->
  0 <= num_samples ->
  (Z.to_nat num_samples <= fuel)%nat ->
  let L := Z.of_nat (List.length buffer) in
  let c := _noise_position self in
  let chunk :=
    map (fun i => nth (Z.to_nat ((c + Z.of_nat i) mod L)) buffer zero)
        (seq 0 (Z.to_nat num_samples)) in
  exists self',
    _get_noise_chunk fuel self num_samples = Returns chunk self'
    /\ _noise_position self' = (c + num_samples) mod L
    /\ 0 <= _noise_position self' < L
    /\ preset self' = preset self
    /\ _noise_buffer self' = Some buffer
    /\ _ambient_gain self' = _ambient_gain self
    /\ is_enabled self' = true
    /\ List.length chunk = Z.to_nat num_samples
    /\ _noise_position (reset self) = 0
    /\ 0 <= _noise_position (reset self) < L.
Proof.
  intros Hon Hbuf HL Hc Hn Hfuel L c chunk.
  assert (Hchunk : chunk = looped_read buffer (Z.to_nat c) (Z.to_nat num_samples)).
  { subst chunk. unfold looped_read. apply map_ext. intros i. f_equal.
    subst L. rewrite <- (Z2Nat.id c) at 1 by (subst c; lia).
    rewrite <- Nat2Z.inj_add, <- Nat2Z.inj_mod, Nat2Z.id. reflexivity. }
  assert (Hrun : _get_noise_chunk fuel self num_samples
                 = Returns chunk (set_noise_position self ((c + num_samples) mod L))).
  { unfold _get_noise_chunk. destruct (Z.ltb_spec num_samples 0); [lia|].
    rewrite Hbuf.
    pose proof (noise_loop_in_range buffer fuel (np_zeros num_samples)
                  (Z.to_nat c) 0 (Z.to_nat num_samples)) as H1.
    rewrite !Z2Nat.id in H1 by (subst c; lia).
    change (Z.of_nat 0) with 0 in H1. fold c.
    rewrite H1.
    + cbn [firstn app]. rewrite Hchunk. f_equal. f_equal.
      rewrite Nat2Z.inj_mod, Nat2Z.inj_add, !Z2Nat.id by (subst c; lia).
      reflexivity.
    + subst c. lia.
    + unfold np_zeros. rewrite repeat_length. reflexivity.
    + exact Hfuel. }
  exists (set_noise_position self ((c + num_samples) mod L)).
  split; [exact Hrun|].
  cbn [set_noise_position _noise_position preset _noise_buffer _ambient_gain reset].
  repeat split.
  - apply Z.mod_pos_bound. exact HL.
  - apply Z.mod_pos_bound. exact HL.
  - exact Hbuf.
  - unfold is_enabled in *. cbn [preset _noise_buffer]. exact Hon.
  - rewrite Hchunk. apply looped_read_length.
  - lia.
  - subst L. lia.
Qed.

Lemma get_noise_chunk_wraps_witness :
  exists self',
    _get_noise_chunk 7 office_mixer 7
    = Returns [ S754_finite false 8388608 (-26);
                S754_finite false 8388608 (-24);
                S754_finite true 8388608 (-25);
                S754_finite false 8388608 (-26);
                S754_finite false 8388608 (-24);
                S754_finite true 8388608 (-25);
                S754_finite false 8388608 (-26) ]
              self'
    /\ _noise_position self' = 0.
Proof.
  destruct (get_noise_chunk_wraps 7 office_mixer noise3 7)
    as (self' & Hrun & Hpos & _);
    try reflexivity; try (vm_compute; lia); try (cbn; lia).
  exists self'. split; [exact Hrun | exact Hpos].
Defined.

(** C4: for a mixer in the Disabled state (as preset "none" builds it),
    [mix_tts_with_ambient] returns its input byte-identical for every byte
    string, and [get_ambient_only_chunk n] returns exactly [n] zero bytes
    for every [n >= 0]; the mixer itself is unchanged. *)
Theorem disabled_mixer_is_transparent (np : Numpy) (fuel : nat) (self : AmbientMixer) :
  is_enabled self = false ->
  (forall tts_bytes : bytes,
      mix_tts_with_ambient np fuel self tts_bytes = Returns tts_bytes self)
  /\ (forall n : Z, 0 <= n ->
        get_ambient_only_chunk np fuel self n = Returns (repeat x00 (Z.to_nat n)) self
        /\ Z.of_nat (List.length (repeat x00 (Z.to_nat n))) = n).
Proof.
  intros Hoff. split.
  - intros tts_bytes. unfold mix_tts_with_ambient. rewrite Hoff. reflexivity.
  - intros n Hn. unfold get_ambient_only_chunk. rewrite Hoff.
    split; [reflexivity|]. rewrite repeat_length. lia.
Qed.

Lemma disabled_mixer_is_transparent_witness :
  Mixer.__init__ (fun _ => noise3) "none" = Ok none_mixer
  /\ mix_tts_with_ambient numpy 0 none_mixer [x01; x02; x03] = Returns [x01; x02; x03] none_mixer
  /\ get_ambient_only_chunk numpy 0 none_mixer 4 = Returns [x00; x00; x00; x00] none_mixer.
Proof.
  split; [reflexivity|].
  destruct (disabled_mixer_is_transparent numpy 0 none_mixer) as [Hmix Hamb];
    [reflexivity|].
  split; [apply Hmix|]. apply (Hamb 4). lia.
Defined.

(** C10: on an input whose length is odd, [mix_tts_with_ambient] raises
    [ValueError] when the mixer is Enabled (the [int16] reinterpretation
    needs an even byte count) and returns the same input unchanged when it
    is Disabled: whether the call succeeds depends on the mixer's state. *)
Theorem mix_odd_length_depends_on_state (np : Numpy) (fuel : nat)
        (self : AmbientMixer) (tts_bytes : bytes) :
  Nat.odd (List.length tts_bytes) = true ->
  mix_tts_with_ambient np fuel self tts_bytes
  = if is_enabled self then Raises ValueError self else Returns tts_bytes self.
Proof.
  intros Hodd. unfold mix_tts_with_ambient.
  destruct (is_enabled self); [|reflexivity]. cbn [negb].
  unfold frombuffer_int16.
  replace (Z.of_nat (List.length tts_bytes) mod 2) with 1; [reflexivity|].
  apply Nat.odd_spec in Hodd. destruct Hodd as [k ->].
  rewrite Nat2Z.inj_add, Nat2Z.inj_mul. change (Z.of_nat 2) with 2. change (Z.of_nat 1) with 1.
  rewrite Z.add_comm, Z.mul_comm, Z.mod_add by lia. reflexivity.
Qed.

Lemma mix_odd_length_depends_on_state_witness :
  mix_tts_with_ambient numpy 3 office_mixer [x01; x02; x03] = Raises ValueError office_mixer
  /\ mix_tts_with_ambient numpy 3 none_mixer [x01; x02; x03] = Returns [x01; x02; x03] none_mixer.
Proof.
  split.
  - apply (mix_odd_length_depends_on_state numpy 3 office_mixer [x01; x02; x03]). reflexivity.
  - apply (mix_odd_length_depends_on_state numpy 3 none_mixer [x01; x02; x03]). reflexivity.
Defined.

(** C6: in every mixer state (Enabled or Disabled, any cursor) and for
    every even byte count [n >= 0], [get_ambient_only_chunk n] yields the
    same bytes and the same final mixer (hence cursor) as
    [mix_tts_with_ambient] on [n] zero bytes; if one raises or does not
    terminate, so does the other.  The numerical kernel enters only through
    [tanh] mapping each zero to itself, as IEEE 754 prescribes. *)
Theorem ambient_only_is_mix_of_silence (np : Numpy) (fuel : nat)
        (self : AmbientMixer) (n : Z) :
  (forall s, np_tanh np (S754_zero s) = S754_zero s) ->
  0 <= n -> Z.even n = true ->
  get_ambient_only_chunk np fuel self n
  = mix_tts_with_ambient np fuel self (repeat x00 (Z.to_nat n)).
Proof.
  intros Htanh Hn Heven.
  unfold get_ambient_only_chunk, mix_tts_with_ambient.
  destruct (is_enabled self); [|reflexivity]. cbn [negb].
  apply Z.even_spec in Heven. destruct Heven as [k ->].
  assert (Hk : 0 <= k) by lia.
  unfold frombuffer_int16. rewrite repeat_length, Z2Nat.id by lia.
  rewrite Z.mul_comm, Z.mod_mul by lia. cbn [Z.eqb].
  replace (Z.to_nat (k * 2)) with (2 * Z.to_nat k)%nat by lia.
  rewrite int16_elements_silence, map_repeat, repeat_length.
  change (div (of_Z 0) (of_Z 32768)) with zero.
  unfold BYTES_PER_SAMPLE. rewrite Z.div_mul by lia. rewrite Z2Nat.id by lia.
  destruct (_get_noise_chunk fuel self k) as [noise self'| |] eqn:E; try reflexivity.
  apply get_noise_chunk_length in E.
  unfold np_add. rewrite repeat_length, length_map, E, Nat.eqb_refl.
  rewrite combine_repeat_add by (rewrite length_map; exact E).
  rewrite zero_speech_same_pcm by exact Htanh. reflexivity.
Qed.

Lemma ambient_only_is_mix_of_silence_witness :
  get_ambient_only_chunk numpy 4 office_mixer 8
  = mix_tts_with_ambient numpy 4 office_mixer (repeat x00 8).
Proof.
  apply (ambient_only_is_mix_of_silence numpy 4 office_mixer 8).
  - intros s. reflexivity.
  - lia.
  - reflexivity.
Defined.

End MixerProperties.

(** ** Soft clipping: the bound *)

Section Rounding.

(** [digits2_pos p] is the number of binary digits of [p]. *)
Lemma digits2_pos_bounds (p : positive) :
  2 ^ (Z.pos (digits2_pos p) - 1) <= Z.pos p < 2 ^ Z.pos (digits2_pos p).
Proof.
  induction p as [p IH|p IH|]; cbn [digits2_pos];
    try pose proof (Pos2Z.is_pos (digits2_pos p)) as Hpos.
  - rewrite Pos2Z.inj_succ. change (Z.pos p~1) with (2 * Z.pos p + 1).
    replace (Z.succ (Z.pos (digits2_pos p)) - 1) with (Z.succ (Z.pos (digits2_pos p) - 1))
      by lia.
    rewrite !Z.pow_succ_r by lia. lia.
  - rewrite Pos2Z.inj_succ. change (Z.pos p~0) with (2 * Z.pos p).
    replace (Z.succ (Z.pos (digits2_pos p)) - 1) with (Z.succ (Z.pos (digits2_pos p) - 1))
      by lia.
    rewrite !Z.pow_succ_r by lia. lia.
  - cbn. lia.
Qed.

Lemma shr_1_halves (mrs : shr_record) :
  0 <= shr_m mrs -> shr_m (shr_1 mrs) = shr_m mrs / 2.
Proof.
  destruct mrs as [m r s]. cbn [shr_m]. intros Hm.
  destruct m as [|[p|p|]|p]; cbn [shr_1 shr_m]; try lia.
  - reflexivity.
  - change (Z.pos p~1) with (2 * Z.pos p + 1). Z.to_euclidean_division_equations. lia.
  - change (Z.pos p~0) with (2 * Z.pos p). Z.to_euclidean_division_equations. lia.
  - reflexivity.
Qed.

Lemma shr_iter_divides (n : positive) :
  forall mrs : shr_record,
    0 <= shr_m mrs ->
    shr_m (iter_pos shr_1 n mrs) = shr_m mrs / 2 ^ Z.pos n.
Proof.
  induction n as [n IH|n IH|]; intros mrs Hm; cbn [iter_pos].
  - assert (H1 : 0 <= shr_m (shr_1 mrs))
      by (rewrite shr_1_halves by exact Hm; apply Z.div_pos; lia).
    assert (H2 : 0 <= shr_m (iter_pos shr_1 n (shr_1 mrs)))
      by (rewrite IH by exact H1; apply Z.div_pos; [exact H1 | lia]).
    rewrite IH, IH, shr_1_halves by assumption.
    rewrite !Z.div_div by lia.
    change (Z.pos n~1) with (2 * Z.pos n + 1).
    replace (2 * Z.pos n + 1) with (1 + Z.pos n + Z.pos n) by lia.
    rewrite !Z.pow_add_r by lia. rewrite Z.pow_1_r, Z.mul_assoc. reflexivity.
  - assert (H1 : 0 <= shr_m (iter_pos shr_1 n mrs))
      by (rewrite IH by exact Hm; apply Z.div_pos; [exact Hm | lia]).
    rewrite IH, IH by assumption.
    rewrite Z.div_div by lia.
    change (Z.pos n~0) with (2 * Z.pos n).
    replace (2 * Z.pos n) with (Z.pos n + Z.pos n) by lia.
    rewrite Z.pow_add_r by lia. reflexivity.
  - rewrite shr_1_halves by exact Hm. reflexivity.
Qed.

(** [shr] by [n] places: the mantissa is divided by [2 ^ n], the exponent
    grows by [n]; nothing happens for [n <= 0]. *)
Lemma shr_divides (mrs : shr_record) (e n : Z) :
  0 <= shr_m mrs ->
  shr_m (fst (shr mrs e n)) = shr_m mrs / 2 ^ Z.max n 0
  /\ snd (shr mrs e n) = e + Z.max n 0.
Proof.
  intros Hm. destruct n as [|n|n]; cbn [shr fst snd].
  - cbn. rewrite Z.div_1_r. lia.
  - rewrite shr_iter_divides by exact Hm.
    replace (Z.max (Z.pos n) 0) with (Z.pos n) by lia. split; reflexivity.
  - replace (Z.max (Z.neg n) 0) with 0 by lia. cbn. rewrite Z.div_1_r. lia.
Qed.

Lemma round_nearest_even_bounds (m : Z) (l : location) :
  m <= round_nearest_even m l <= m + 1.
Proof.
  destruct l as [|[| |]]; cbn [round_nearest_even]; try lia.
  destruct (Z.even m); lia.
Qed.

Lemma Zdigits2_bounds (m : Z) :
  0 <= m ->
  (m = 0 /\ Zdigits2 m = 0)
  \/ (0 < Zdigits2 m /\ 2 ^ (Zdigits2 m - 1) <= m < 2 ^ Zdigits2 m).
Proof.
  intros Hm. destruct m as [|p|p]; [left; split; reflexivity| |lia].
  right. cbn [Zdigits2]. split; [lia|]. apply digits2_pos_bounds.
Qed.

(** The arithmetic of rounding [m * mt * 2 ^ (e - 24)] to 24 digits, for
    [m * 2 ^ e < 1] and a 24-digit [mt]: the result does not exceed
    [mt * 2 ^ (-24)]. *)
Lemma round_below_factor (mt m e d m2 d2 : Z) :
  2 ^ 23 <= mt < 2 ^ 24 ->
  0 < m < 2 ^ 24 ->
  -149 <= e <= -24 ->
  2 ^ (d - 1) <= m * mt < 2 ^ d ->
  let ex := e - 24 in
  let n1 := Z.max (Z.max (d + ex - 24) (-149) - ex) 0 in
  let e1 := ex + n1 in
  m * mt / 2 ^ n1 <= m2 <= m * mt / 2 ^ n1 + 1 ->
  (m2 = 0 /\ d2 = 0) \/ (0 < d2 /\ 2 ^ (d2 - 1) <= m2 < 2 ^ d2) ->
  let n2 := Z.max (Z.max (d2 + e1 - 24) (-149) - e1) 0 in
  0 <= m2 / 2 ^ n2
  /\ e1 + n2 <= -24
  /\ (e1 + n2 = -24 -> m2 / 2 ^ n2 <= mt).
Proof.
  intros Hmt Hm He Hd ex n1 e1 Hm2 Hd2 n2.
  assert (Hp : 2 ^ 23 <= m * mt < 2 ^ 48).
  { change (2 ^ 48) with (2 ^ 24 * 2 ^ 24). nia. }
  assert (Hd24 : 24 <= d).
  { destruct (Z.lt_ge_cases d 24) as [H|H]; [|exact H].
    assert (2 ^ d <= 2 ^ 23) by (apply Z.pow_le_mono_r; lia). lia. }
  assert (Hd48 : d <= 48).
  { destruct (Z.lt_ge_cases 48 d) as [H|H]; [|exact H].
    assert (2 ^ 48 <= 2 ^ (d - 1)) by (apply Z.pow_le_mono_r; lia). lia. }
  set (k := -24 - e). assert (Hk : 0 <= k <= 125) by (subst k; lia).
  assert (Hn1 : n1 = Z.max (d - 24) (k - 101)) by (subst n1 ex k; lia).
  set (j := 24 + k - n1). assert (Hj : 0 <= j) by (subst j; lia).
  assert (He1 : e1 = -24 - j) by (subst e1 ex j k; lia).
  assert (He1' : -149 <= e1) by (subst e1 n1 ex; lia).
  assert (Hn1' : 0 <= n1) by lia.
  assert (Hm1 : m * mt / 2 ^ n1 < mt * 2 ^ j).
  { apply Z.div_lt_upper_bound; [apply Z.pow_pos_nonneg; lia|].
    assert (Hpow : 2 ^ n1 * 2 ^ j = 2 ^ 24 * 2 ^ k)
      by (rewrite <- !Z.pow_add_r by lia; f_equal; subst j; lia).
    replace (2 ^ n1 * (mt * 2 ^ j)) with (mt * (2 ^ 24 * 2 ^ k))
      by (rewrite <- Hpow; ring).
    assert (0 < 2 ^ k) by (apply Z.pow_pos_nonneg; lia).
    change (2 ^ 23) with 8388608 in *. change (2 ^ 24) with 16777216 in *. nia. }
  assert (Hm2le : m2 <= mt * 2 ^ j) by lia.
  assert (Hm2ge : 0 <= m2).
  { assert (0 <= m * mt / 2 ^ n1) by (apply Z.div_pos; [lia | apply Z.pow_pos_nonneg; lia]).
    lia. }
  assert (Hm2lt : m2 < 2 ^ (24 + j)).
  { rewrite Z.pow_add_r by lia.
    assert (0 < 2 ^ j) by (apply Z.pow_pos_nonneg; lia). nia. }
  assert (Hd2j : d2 - 24 <= j).
  { destruct Hd2 as [[_ ->] | [Hpos [Hlo _]]]; [lia|].
    destruct (Z.lt_ge_cases j (d2 - 24)) as [H|H]; [|lia].
    assert (2 ^ (24 + j) <= 2 ^ (d2 - 1)) by (apply Z.pow_le_mono_r; lia). lia. }
  assert (Hn2 : n2 = Z.max (d2 - 24) 0) by (subst n2; lia).
  split; [apply Z.div_pos; [exact Hm2ge | apply Z.pow_pos_nonneg; lia]|].
  split; [lia|].
  intros Heq. assert (Hnj : n2 = j) by lia.
  rewrite Hnj.
  apply Z.div_le_upper_bound; [apply Z.pow_pos_nonneg; lia|].
  rewrite Z.mul_comm. exact Hm2le.
Qed.

End Rounding.

Section SoftClipBound.
Import Float32 Mixer Samples.

(** A valid binary32 mantissa has at most 24 digits, and its exponent is
    at least -149. *)
Lemma bounded_mantissa (m : positive) (e : Z) :
  bounded prec emax m e = true ->
  0 < Z.pos m < 2 ^ 24 /\ -149 <= e
  /\ (e <> -149 -> 2 ^ 23 <= Z.pos m).
Proof.
  unfold bounded, canonical_mantissa, fexp, emin, prec, emax. intros H.
  apply andb_prop in H. destruct H as [H _]. apply Z.eqb_eq in H.
  pose proof (digits2_pos_bounds m) as [Hlo Hhi].
  pose proof (Pos2Z.is_pos (digits2_pos m)) as Hpos.
  change (3 - 128 - 24) with (-149) in H.
  assert (Hd : Z.pos (digits2_pos m) <= 24) by lia.
  split; [split; [lia|]|split; [lia|]].
  - assert (2 ^ Z.pos (digits2_pos m) <= 2 ^ 24) by (apply Z.pow_le_mono_r; lia). lia.
  - intros He. assert (Z.pos (digits2_pos m) = 24) as Hd24 by lia.
    rewrite Hd24 in Hlo. exact Hlo.
Qed.

(** A binary32 number below 1 times the threshold stays within the
    threshold, after rounding. *)
Lemma mul_threshold_below (s : bool) (m : positive) (e : Z) :
  bounded prec emax m e = true ->
  e <= -24 ->
  SFleb (SFabs (mul (S754_finite s m e) threshold)) threshold = true.
Proof.
  intros Hb He. destruct (bounded_mantissa m e Hb) as (Hm & Hemin & _).
  rewrite threshold_value. unfold mul, SFmul, binary_round_aux, shr_fexp.
  set (p := Z.pos (m * 15938355)).
  assert (Hp : p = Z.pos m * 15938355) by (subst p; apply Pos2Z.inj_mul).
  set (ex := e + -24).
  pose proof (shr_divides (shr_record_of_loc p loc_Exact) ex
                (fexp prec emax (Zdigits2 p + ex) - ex)) as H1.
  destruct (shr (shr_record_of_loc p loc_Exact) ex
                (fexp prec emax (Zdigits2 p + ex) - ex)) as [mrs1 e1].
  cbn [fst snd shr_record_of_loc shr_m] in H1.
  destruct H1 as [Hm1 He1]; [subst p; lia|].
  set (m2 := round_nearest_even (shr_m mrs1) (loc_of_shr_record mrs1)).
  pose proof (round_nearest_even_bounds (shr_m mrs1) (loc_of_shr_record mrs1)) as Hm2.
  fold m2 in Hm2.
  assert (Hm1pos : 0 <= shr_m mrs1).
  { rewrite Hm1. apply Z.div_pos; [subst p; lia | apply Z.pow_pos_nonneg; lia]. }
  pose proof (shr_divides (shr_record_of_loc m2 loc_Exact) e1
                (fexp prec emax (Zdigits2 m2 + e1) - e1)) as H2.
  destruct (shr (shr_record_of_loc m2 loc_Exact) e1
                (fexp prec emax (Zdigits2 m2 + e1) - e1)) as [mrs2 e2].
  cbn [fst snd shr_record_of_loc shr_m] in H2.
  destruct H2 as [Hm3 He2]; [lia|].
  pose proof (digits2_pos_bounds (m * 15938355)) as Hd.
  fold p in Hd. rewrite Hp in Hd.
  assert (Hdig : Zdigits2 p = Z.pos (digits2_pos (m * 15938355))) by reflexivity.
  pose proof (round_below_factor 15938355 (Z.pos m) e
                (Z.pos (digits2_pos (m * 15938355))) m2 (Zdigits2 m2)) as H.
  cbv zeta in H. unfold fexp, emin, prec, emax in *.
  change (3 - 128 - 24) with (-149) in *.
  replace (e - 24) with ex in H by (subst ex; lia).
  rewrite Hdig in *. rewrite <- Hp in H.
  rewrite <- Hm1 in H. rewrite <- He1 in H. rewrite <- Hm3, <- He2 in H.
  destruct H as (Hm3pos & He3 & Hm3le).
  - split; [vm_compute; discriminate | reflexivity].
  - exact Hm.
  - lia.
  - rewrite Hp. exact Hd.
  - exact Hm2.
  - apply Zdigits2_bounds. lia.
  - destruct (shr_m mrs2) as [|m3|m3]; [reflexivity| |lia].
    change (128 - 24) with 104.
    destruct (Z.leb_spec e2 104); [|lia].
    cbn [SFabs]. unfold SFleb, SFcompare.
    destruct (Z.compare_spec e2 (-24)) as [Heq|Hlt|Hgt]; [|reflexivity|lia].
    specialize (Hm3le Heq).
    change (Pos.compare_cont Eq m3 15938355) with (Pos.compare m3 15938355).
    destruct (Pos.compare_spec m3 15938355) as [Hc|Hc|Hc]; try reflexivity. lia.
Qed.

End SoftClipBound.

Section SoftClip.
Import Float32 Mixer Samples.




End SoftClip.

(** ** Stream context *)

Section ContextField.
Import VoiceLive.

(** A string field of the context, read by [field], and the argument of
    [update_stream_context] that feeds it. *)
Variable field : VoiceLiveStreamingHandler -> option string.
Variable arg : context_update -> option string.
Hypothesis field_update :
  forall self u,
    field (update_stream_context self u)
    = if truthy_str (arg u) then arg u else field self.

Lemma field_stays_set (us : list context_update) :
  forall self,
    truthy_str (field self) = true ->
    truthy_str (field (update_all self us)) = true.
Proof.
  induction us as [|u us IH]; intros self Hset; [exact Hset|].
  cbn [update_all fold_left]. apply IH. rewrite field_update.
  destruct (truthy_str (arg u)) eqn:E; [exact E | exact Hset].
Qed.

Lemma field_provenance (us : list context_update) :
  forall self,
    field (update_all self us) = field self
    \/ exists u, In u us /\ truthy_str (arg u) = true
                 /\ field (update_all self us) = arg u.
Proof.
  induction us as [|u us IH]; intros self; [left; reflexivity|].
  cbn [update_all fold_left].
  destruct (IH (update_stream_context self u)) as [Hsame | (u' & Hin & Ht & Hv)].
  - unfold update_all in Hsame. rewrite Hsame, field_update.
    destruct (truthy_str (arg u)) eqn:E.
    + right. exists u. repeat split; [left; reflexivity | exact E].
    + left. reflexivity.
  - right. exists u'. repeat split; [right; exact Hin | exact Ht | exact Hv].
Qed.

Lemma field_kept (us : list context_update) :
  forall self,
    Forall (fun u => truthy_str (arg u) = false) us ->
    field (update_all self us) = field self.
Proof.
  induction us as [|u us IH]; intros self Hnone; [reflexivity|].
  inversion Hnone as [|? ? Hu Hus]; subst.
  cbn [update_all fold_left]. unfold update_all in IH. rewrite (IH _ Hus).
  rewrite field_update, Hu. reflexivity.
Qed.

Lemma field_last_supplied (before after : list context_update) (u : context_update) :
  forall self,
    truthy_str (arg u) = true ->
    Forall (fun v => truthy_str (arg v) = false) after ->
    field (update_all self (before ++ u :: after)) = arg u.
Proof.
  intros self Hu Hafter. unfold update_all. rewrite fold_left_app.
  cbn [fold_left].
  pose proof (field_kept after
                (update_stream_context (fold_left update_stream_context before self) u)
                Hafter) as Hkept.
  unfold update_all in Hkept. rewrite Hkept, field_update, Hu. reflexivity.
Qed.

End ContextField.

Section StreamContext.
Import VoiceLive RelaySamples.
Local Open Scope string_scope.

Lemma attempt_stays_set (us : list context_update) :
  forall self,
    attempt self <> None -> attempt (update_all self us) <> None.
Proof.
  induction us as [|u us IH]; intros self Hset; [exact Hset|].
  cbn [update_all fold_left]. apply IH.
  unfold update_stream_context; cbn [attempt].
  destruct (arg_attempt u); cbn; try exact Hset. discriminate.
Qed.

Lemma attempt_provenance (us : list context_update) :
  forall self,
    attempt (update_all self us) = attempt self
    \/ exists u z, In u us /\ arg_attempt u = AttemptInt z
                   /\ attempt (update_all self us) = Some z.
Proof.
  induction us as [|u us IH]; intros self; [left; reflexivity|].
  cbn [update_all fold_left].
  destruct (IH (update_stream_context self u)) as [Hsame | (u' & z & Hin & Ht & Hv)].
  - unfold update_all in Hsame. rewrite Hsame.
    unfold update_stream_context; cbn [attempt].
    destruct (arg_attempt u) as [|z|] eqn:E; cbn; try (left; reflexivity).
    right. exists u, z. repeat split; [left; reflexivity | exact E].
  - right. exists u', z. repeat split; [right; exact Hin | exact Ht | exact Hv].
Qed.

Lemma attempt_kept (us : list context_update) :
  forall self,
    Forall (fun u => forall z, arg_attempt u <> AttemptInt z) us ->
    attempt (update_all self us) = attempt self.
Proof.
  induction us as [|u us IH]; intros self Hnone; [reflexivity|].
  inversion Hnone as [|? ? Hu Hus]; subst.
  cbn [update_all fold_left]. unfold update_all in IH. rewrite (IH _ Hus).
  unfold update_stream_context; cbn [attempt].
  destruct (arg_attempt u) as [|z|]; try reflexivity.
  destruct (Hu z eq_refl).
Qed.

Lemma attempt_last_supplied (before after : list context_update) (u : context_update)
      (z : Z) :
  forall self,
    arg_attempt u = AttemptInt z ->
    Forall (fun v => forall z', arg_attempt v <> AttemptInt z') after ->
    attempt (update_all self (before ++ u :: after)) = Some z.
Proof.
  intros self Hu Hafter. unfold update_all. rewrite fold_left_app.
  cbn [fold_left].
  pose proof (attempt_kept after
                (update_stream_context (fold_left update_stream_context before self) u)
                Hafter) as Hkept.
  unfold update_all in Hkept. rewrite Hkept.
  unfold update_stream_context; cbn [attempt]. rewrite Hu. reflexivity.
Qed.

(** C1 (as the code has it): once a Stream Context field (call, stream or
    recording identifier, attempt) is set, no sequence of later
    [update_stream_context] calls clears it: it stays non-empty.  What it
    holds after the sequence is decided by the last call that supplies a
    value for it (a non-empty string; for [attempt], an integer): the
    field then holds exactly that value, whatever it held before, so a
    call that supplies a different value overwrites it.  When no call of
    the sequence supplies a value (each passes [None], an empty string,
    or an attempt that is [None] or not convertible), the field holds what
    it held before. *)
Theorem stream_context_set_fields_stay_set
        (self : VoiceLiveStreamingHandler) (us : list context_update) :
  let self' := update_all self us in
  ((truthy_str (call_sid self) = true -> truthy_str (call_sid self') = true)
   /\ (Forall (fun u => truthy_str (arg_call_sid u) = false) us ->
       call_sid self' = call_sid self)
   /\ (forall before u after,
          us = (before ++ u :: after)%list ->
          truthy_str (arg_call_sid u) = true ->
          Forall (fun v => truthy_str (arg_call_sid v) = false) after ->
          call_sid self' = arg_call_sid u))
  /\ ((truthy_str (stream_sid self) = true -> truthy_str (stream_sid self') = true)
      /\ (Forall (fun u => truthy_str (arg_stream_sid u) = false) us ->
          stream_sid self' = stream_sid self)
      /\ (forall before u after,
             us = (before ++ u :: after)%list ->
             truthy_str (arg_stream_sid u) = true ->
             Forall (fun v => truthy_str (arg_stream_sid v) = false) after ->
             stream_sid self' = arg_stream_sid u))
  /\ ((truthy_str (recording_sid self) = true ->
       truthy_str (recording_sid self') = true)
      /\ (Forall (fun u => truthy_str (arg_recording_sid u) = false) us ->
          recording_sid self' = recording_sid self)
      /\ (forall before u after,
             us = (before ++ u :: after)%list ->
             truthy_str (arg_recording_sid u) = true ->
             Forall (fun v => truthy_str (arg_recording_sid v) = false) after ->
             recording_sid self' = arg_recording_sid u))
  /\ ((attempt self <> None -> attempt self' <> None)
      /\ (Forall (fun u => forall z, arg_attempt u <> AttemptInt z) us ->
          attempt self' = attempt self)
      /\ (forall before u after z,
             us = (before ++ u :: after)%list ->
             arg_attempt u = AttemptInt z ->
             Forall (fun v => forall z', arg_attempt v <> AttemptInt z') after ->
             attempt self' = Some z)).
Proof.
  cbv zeta. repeat split.
  - now apply (field_stays_set call_sid arg_call_sid).
  - now apply (field_kept call_sid arg_call_sid).
  - intros before u after ->. now apply (field_last_supplied call_sid arg_call_sid).
  - now apply (field_stays_set stream_sid arg_stream_sid).
  - now apply (field_kept stream_sid arg_stream_sid).
  - intros before u after ->. now apply (field_last_supplied stream_sid arg_stream_sid).
  - now apply (field_stays_set recording_sid arg_recording_sid).
  - now apply (field_kept recording_sid arg_recording_sid).
  - intros before u after ->.
    now apply (field_last_supplied recording_sid arg_recording_sid).
  - now apply attempt_stays_set.
  - now apply attempt_kept.
  - intros before u after z ->. now apply attempt_last_supplied.
Qed.

Lemma stream_context_set_fields_stay_set_witness :
  let self' :=
    update_all voicemail_handler
      [set_context (Some "CA2") (Some "MZ1") (Some "") AttemptNone;
       set_context (Some "") (Some "MZ2") None AttemptInvalid] in
  call_sid voicemail_handler = Some "CA1" /\ call_sid self' = Some "CA2"
  /\ stream_sid self' = Some "MZ2"
  /\ recording_sid self' = Some "RE1"
  /\ attempt self' = Some 1.
Proof.
  pose proof (stream_context_set_fields_stay_set voicemail_handler
                [set_context (Some "CA2") (Some "MZ1") (Some "") AttemptNone;
                 set_context (Some "") (Some "MZ2") None AttemptInvalid]) as H.
  cbv zeta in *.
  destruct H as ((_ & _ & Hcall) & (_ & _ & Hstream) & (_ & Hrec & _) & (_ & Hatt & _)).
  split; [reflexivity|]. split; [|split; [|split]].
  - apply (Hcall [] (set_context (Some "CA2") (Some "MZ1") (Some "") AttemptNone)
             [set_context (Some "") (Some "MZ2") None AttemptInvalid]);
      [reflexivity | reflexivity |].
    repeat constructor.
  - apply (Hstream [set_context (Some "CA2") (Some "MZ1") (Some "") AttemptNone]
             (set_context (Some "") (Some "MZ2") None AttemptInvalid) []);
      [reflexivity | reflexivity | constructor].
  - rewrite Hrec; [reflexivity|]. repeat constructor.
  - rewrite Hatt; [reflexivity|]. repeat constructor; discriminate.
Defined.

(** C1, counterexample: a second call with another call identifier and
    attempt number replaces the values the first call had set. *)
Lemma update_stream_context_overwrites_set_fields :
  let first := update_stream_context (new_handler None None)
                 (set_context (Some "CA1") None None (AttemptInt 1)) in
  let second := update_stream_context first
                  (set_context (Some "CA2") None None (AttemptInt 2)) in
  call_sid first = Some "CA1" /\ attempt first = Some 1
  /\ call_sid second = Some "CA2" /\ attempt second = Some 2
  /\ call_sid second <> call_sid first /\ attempt second <> attempt first.
Proof.
  cbv zeta. repeat split; discriminate.
Qed.

End StreamContext.

(** ** Receive loop *)

Section ReceiveLoop.
Import Json VoiceLive RelaySamples.
Local Open Scope string_scope.

Variable float_of_str : string -> option spec_float.

(** C9 (as the code has it): for a message tagged "response.audio.delta"
    and a registered [AudioChunk] callback, processing the message invokes
    the callback exactly once, with the base64-decoding of the [delta]
    field, when that field is a non-empty string that decodes; when the
    field is absent, empty or otherwise falsy the callback is not invoked
    and the loop goes on. *)
Theorem audio_delta_emits_decoded_chunk
        (self : VoiceLiveStreamingHandler) (event : json)
        (on_audio_chunk : bytes -> result unit) :
  get event "type" JNull = Ok (JStr "response.audio.delta") ->
  _on_audio_chunk self = Some on_audio_chunk ->
  (forall (delta : string) (chunk : bytes),
      get event "delta" JNull = Ok (JStr delta) ->
      delta <> "" ->
      Base64.b64decode delta = Ok chunk ->
      on_event float_of_str self event = ([AudioChunk chunk], on_audio_chunk chunk)
      /\ audio_chunks (fst (on_event float_of_str self event)) = [chunk])
  /\ (forall delta : json,
        get event "delta" JNull = Ok delta ->
        truthy delta = false ->
        on_event float_of_str self event = ([], Ok tt)).
Proof.
  intros Htype Hcb. split.
  - intros delta chunk Hdelta Hne Hdec.
    assert (E : on_event float_of_str self event
                = ([AudioChunk chunk], on_audio_chunk chunk)).
    { unfold on_event. rewrite Htype. cbn. rewrite Hdelta. cbn.
      destruct (String.eqb_spec delta ""); [contradiction|]. cbn.
      rewrite Hdec. unfold _emit_audio_chunk. rewrite Hcb. cbn.
      destruct (on_audio_chunk chunk); reflexivity. }
    rewrite E. split; reflexivity.
  - intros delta Hdelta Hfalsy.
    unfold on_event. rewrite Htype. cbn. rewrite Hdelta. cbn.
    rewrite Hfalsy. reflexivity.
Qed.

End ReceiveLoop.

Section ReceiveLoopScenarios.
Import Json VoiceLive RelaySamples.
Local Open Scope string_scope.

(** The scenario of the specification: a delta encoding four silent 16-bit
    samples gives exactly one [AudioChunk] carrying four zero samples. *)
Lemma audio_delta_emits_decoded_chunk_witness :
  on_event no_float listening_handler silent_delta
  = ([AudioChunk (repeat x00 8)], Ok tt)
  /\ audio_chunks (fst (on_event no_float listening_handler silent_delta))
     = [repeat x00 8]
  /\ Float32.int16_elements (repeat x00 8) = [0; 0; 0; 0].
Proof.
  destruct (audio_delta_emits_decoded_chunk no_float listening_handler silent_delta
              (fun _ => Ok tt)) as [Hsome _]; [reflexivity | reflexivity |].
  destruct (Hsome "AAAAAAAAAAA=" (repeat x00 8)) as [Hrun Hchunks];
    [reflexivity | discriminate | reflexivity |].
  split; [exact Hrun|]. split; [exact Hchunks | reflexivity].
Defined.

(** C9, counterexample: a message tagged "response.audio.delta" whose
    [delta] is the empty string reaches a registered callback zero times. *)
Lemma audio_delta_with_empty_payload_emits_nothing :
  get empty_delta "type" JNull = Ok (JStr "response.audio.delta")
  /\ on_event no_float listening_handler empty_delta = ([], Ok tt)
  /\ audio_chunks (fst (on_event no_float listening_handler empty_delta)) = [].
Proof. repeat split. Qed.

End ReceiveLoopScenarios.

(** ** Transcript persistence task *)

Section PersistFacts.
Import Json VoiceLive.
Local Open Scope string_scope.

Variable float_of_str : string -> option spec_float.

(** A task is created only behind the guards of
    [_schedule_transcript_persist], and it carries the transcript it was
    scheduled for. *)
Lemma schedule_creates_task_behind_guards
      (self : VoiceLiveStreamingHandler) (transcript event : json)
      (name : string) (tr : json) (conf : option spec_float) :
  In (CreateTask name tr conf)
     (fst (_schedule_transcript_persist float_of_str self transcript event)) ->
  transcription_store self <> None
  /\ truthy_str (call_sid self) = true
  /\ truthy_str (recording_sid self) = true
  /\ attempt self <> None
  /\ tr = transcript.
Proof.
  unfold _schedule_transcript_persist.
  destruct (transcription_store self) as [store|]; [|intros []].
  destruct (truthy_str (call_sid self)); [|intros []].
  destruct (truthy_str (recording_sid self)); [|intros []].
  cbn [negb orb].
  destruct (attempt self) as [att|].
  - destruct (_extract_confidence float_of_str event) as [c|e]; cbn.
    + intros [H|[]]. injection H as _ <- _. repeat split; discriminate.
    + intros [].
  - cbn. intros [H|[]]. discriminate H.
Qed.

(** An element of a trace that is an [Enqueue], with what precedes and
    follows it. *)
Ltac split_trace H :=
  match type of H with
  | (_ :: _) = (?pre ++ _ :: _)%list =>
      destruct pre as [|? pre]; cbn [app] in H;
      [ first [ discriminate H | injection H as ? ? ?; subst ]
      | injection H as ? H; subst; split_trace H ]
  | [] = (?pre ++ _ :: _)%list => destruct pre; discriminate H
  end.

Lemma persist_completes (self : VoiceLiveStreamingHandler) (i : interleaving)
      (transcript : json) (confidence : option spec_float) :
  snd (persist self i transcript confidence) = Ok tt.
Proof.
  unfold persist.
  destruct (transcription_store (update_all self (before_start i))) as [st1|];
    [|reflexivity].
  cbn. destruct (store_transcript st1 _ _ _ _ _) as [url|e]; [|reflexivity].
  destruct (sms_queue _) as [queue|]; [|reflexivity].
  destruct (transcription_store _) as [st2|]; [|reflexivity].
  cbn. destruct (build_sms_candidate st2 _ _ _) as [[candidate|]|e]; try reflexivity.
  cbn. destruct (enqueue queue candidate) as [[]|e]; [|reflexivity].
  destruct (transcription_store _) as [st3|]; [|reflexivity].
  cbn. destruct (mark_sms_enqueued st3 _ _ _) as [[]|e]; reflexivity.
Qed.

Lemma persist_enqueue_after_store (self : VoiceLiveStreamingHandler) (i : interleaving)
      (transcript : json) (confidence : option spec_float)
      (pre post : list effect) (candidate : SmsQueueMessage) (returned : result unit) :
  fst (persist self i transcript confidence) = (pre ++ Enqueue candidate returned :: post)%list ->
  (exists call recording att url,
      pre = [StoreTranscript call recording att transcript confidence (Ok url);
             BuildSmsCandidate (call_sid (update_all (update_all self (before_start i)) (during_store i)))
                               (recording_sid (update_all (update_all self (before_start i)) (during_store i)))
                               (attempt (update_all (update_all self (before_start i)) (during_store i)))
                               (Ok (Some candidate))])
  /\ (forall e, returned = Raise e ->
        post = [Log "exception" "[VoiceLive] Failed to enqueue SMS delivery job"]).
Proof.
  unfold persist.
  destruct (transcription_store (update_all self (before_start i))) as [st1|];
    [|cbn; intros H; split_trace H].
  cbn. destruct (store_transcript st1 _ _ _ _ _) as [url|e];
    [|cbn; intros H; split_trace H].
  destruct (sms_queue _) as [queue|]; [|cbn; intros H; split_trace H].
  destruct (transcription_store _) as [st2|]; [|cbn; intros H; split_trace H].
  cbn. destruct (build_sms_candidate st2 _ _ _) as [[cand|]|e];
    [| cbn; intros H; split_trace H | cbn; intros H; split_trace H].
  cbn. destruct (enqueue queue cand) as [[]|e].
  - destruct (transcription_store _) as [st3|].
    + cbn. destruct (mark_sms_enqueued st3 _ _ _) as [[]|e];
        cbn; intros H; split_trace H;
        (split; [do 4 eexists; reflexivity | intros e' He'; discriminate He']).
    + cbn. intros H; split_trace H.
      split; [do 4 eexists; reflexivity | intros e' He'; discriminate He'].
  - cbn. intros H; split_trace H.
    split; [do 4 eexists; reflexivity | intros e' He'; reflexivity].
Qed.

(** C2: an SMS candidate is enqueued only by a persistence task, after
    that task's [store_transcript] call for the same transcript has
    returned successfully, and such a task exists only if a recording
    identifier and an attempt number were known when it was scheduled.
    The task always completes normally: when [enqueue] raises, the
    exception is caught and logged and nothing propagates. *)
Theorem sms_enqueued_only_after_persisted
        (self : VoiceLiveStreamingHandler) (transcript event : json)
        (name : string) (tr : json) (conf : option spec_float) (i : interleaving)
        (pre post : list effect) (candidate : SmsQueueMessage)
        (returned : result unit) :
  In (CreateTask name tr conf)
     (fst (_schedule_transcript_persist float_of_str self transcript event)) ->
  fst (persist self i tr conf) = (pre ++ Enqueue candidate returned :: post)%list ->
  truthy_str (recording_sid self) = true
  /\ attempt self <> None
  /\ (exists call recording att url,
         In (StoreTranscript call recording att transcript conf (Ok url)) pre)
  /\ snd (persist self i tr conf) = Ok tt
  /\ (forall e, returned = Raise e ->
        post = [Log "exception" "[VoiceLive] Failed to enqueue SMS delivery job"]).
Proof.
  intros Htask Hrun.
  destruct (schedule_creates_task_behind_guards _ _ _ _ _ _ Htask)
    as (_ & _ & Hrec & Hatt & ->).
  destruct (persist_enqueue_after_store _ _ _ _ _ _ _ _ Hrun)
    as ((call & recording & att & url & ->) & Hlog).
  repeat split; try assumption.
  - exists call, recording, att, url. left. reflexivity.
  - apply persist_completes.
Qed.

End PersistFacts.

Section PersistScenario.
Import Json VoiceLive RelaySamples.
Local Open Scope string_scope.

Lemma sms_enqueued_only_after_persisted_witness :
  persist voicemail_handler no_interleaving (JStr "please call me back") None
  = ([StoreTranscript "CA1" "RE1" (Some 1) (JStr "please call me back") None
        (Ok "https://voicemail.example/CA1/RE1-1.json");
      BuildSmsCandidate (Some "CA1") (Some "RE1") (Some 1) (Ok (Some sms));
      Enqueue sms (Raise (Exception "queue unavailable"));
      Log "exception" "[VoiceLive] Failed to enqueue SMS delivery job"],
     Ok tt)
  /\ truthy_str (recording_sid voicemail_handler) = true
  /\ attempt voicemail_handler <> None
  /\ snd (persist voicemail_handler no_interleaving (JStr "please call me back") None)
     = Ok tt.
Proof.
  split; [reflexivity|].
  destruct (sms_enqueued_only_after_persisted no_float voicemail_handler
              (JStr "please call me back") transcription_completed
              "voice-live-transcript-persist" (JStr "please call me back") None
              no_interleaving
              [StoreTranscript "CA1" "RE1" (Some 1) (JStr "please call me back") None
                 (Ok "https://voicemail.example/CA1/RE1-1.json");
               BuildSmsCandidate (Some "CA1") (Some "RE1") (Some 1) (Ok (Some sms))]
              [Log "exception" "[VoiceLive] Failed to enqueue SMS delivery job"]
              sms (Raise (Exception "queue unavailable")))
    as (Hrec & Hatt & _ & Hdone & _).
  - left. reflexivity.
  - reflexivity.
  - split; [exact Hrec|]. split; [exact Hatt | exact Hdone].
Defined.

End PersistScenario.

(** ** Ambient mixer: further properties *)

Section MixerMore.
Import Float32 Mixer Samples.

(** The chunk read on a buffer of length [L > 0] with the cursor at
    [c < L], in natural numbers. *)
Lemma get_noise_chunk_looped (fuel : nat) (self : AmbientMixer)
      (buffer : list f32) (c n : nat) :
  _noise_buffer self = Some buffer ->
  _noise_position self = Z.of_nat c ->
  (c < List.length buffer)%nat ->
  (n <= fuel)%nat ->
  _get_noise_chunk fuel self (Z.of_nat n)
  = Returns (looped_read buffer c n)
            (set_noise_position self (Z.of_nat ((c + n) mod List.length buffer))).
Proof.
  intros Hbuf Hpos Hc Hfuel. unfold _get_noise_chunk.
  destruct (Z.ltb_spec (Z.of_nat n) 0); [lia|].
  rewrite Hbuf, Hpos.
  pose proof (noise_loop_in_range buffer fuel (np_zeros (Z.of_nat n)) c 0 n) as H1.
  change (Z.of_nat 0) with 0 in H1. rewrite H1.
  - reflexivity.
  - exact Hc.
  - unfold np_zeros. rewrite repeat_length. lia.
  - exact Hfuel.
Qed.

(** X1: successive reads of the noise buffer join up.  On an enabled
    mixer with the cursor inside a non-empty buffer, reading [n] samples
    and then [m] samples returns, one after the other, exactly what a
    single read of [n + m] samples returns, and leaves the same mixer. *)
Theorem noise_chunks_concatenate (fuel : nat) (self : AmbientMixer)
        (buffer : list f32) (c n m : nat) :
  _noise_buffer self = Some buffer ->
  _noise_position self = Z.of_nat c ->
  (c < List.length buffer)%nat ->
  (n + m <= fuel)%nat ->
  exists chunk1 chunk2 self1 self2,
    _get_noise_chunk fuel self (Z.of_nat n) = Returns chunk1 self1
    /\ _get_noise_chunk fuel self1 (Z.of_nat m) = Returns chunk2 self2
    /\ _get_noise_chunk fuel self (Z.of_nat (n + m)) = Returns (chunk1 ++ chunk2) self2.
Proof.
  intros Hbuf Hpos Hc Hfuel.
  set (L := List.length buffer).
  exists (looped_read buffer c n), (looped_read buffer ((c + n) mod L) m),
         (set_noise_position self (Z.of_nat ((c + n) mod L))),
         (set_noise_position self (Z.of_nat ((c + (n + m)) mod L))).
  split; [|split].
  - apply get_noise_chunk_looped; try assumption. lia.
  - rewrite (get_noise_chunk_looped fuel _ buffer ((c + n) mod L) m);
      try reflexivity; try exact Hbuf; try lia.
    + unfold set_noise_position. cbn. f_equal. f_equal. fold L.
      rewrite Nat.Div0.add_mod_idemp_l, Nat.add_assoc. reflexivity.
    + apply Nat.mod_upper_bound. subst L. lia.
  - rewrite (get_noise_chunk_looped fuel self buffer c (n + m)); try assumption.
    rewrite looped_read_app by lia. reflexivity.
Qed.

Lemma noise_chunks_concatenate_witness :
  exists chunk1 chunk2 self1 self2,
    _get_noise_chunk 5 office_mixer 2 = Returns chunk1 self1
    /\ _get_noise_chunk 5 self1 3 = Returns chunk2 self2
    /\ _get_noise_chunk 5 office_mixer 5 = Returns (chunk1 ++ chunk2) self2.
Proof.
  apply (noise_chunks_concatenate 5 office_mixer noise3 2 2 3);
    try reflexivity; cbn; lia.
Defined.

(** Assigning an empty array to an empty slice always succeeds. *)
Lemma setslice_nothing {A : Type} (a : list A) (i : Z) :
  exists a', Py.setslice a i i [] = Some a'.
Proof.
  unfold Py.setslice, Py.slice_bounds. rewrite Z.sub_diag. cbn.
  eexists. reflexivity.
Qed.

(** The loop on an empty buffer copies nothing and never gets anywhere. *)
Lemma noise_loop_empty_buffer (fuel : nat) :
  forall (chunk : list f32) (offset remaining : Z),
    0 < remaining ->
    noise_loop fuel [] chunk 0 offset remaining = None.
Proof.
  induction fuel as [|fuel IH]; intros chunk offset remaining Hr;
    cbn [noise_loop]; destruct (Z.ltb_spec 0 remaining); try lia; [reflexivity|].
  cbn [List.length]. change (Z.of_nat 0 - 0) with 0.
  rewrite Z.min_l by lia. rewrite !Z.add_0_r, Z.sub_0_r.
  change (Py.getslice (@nil f32) 0 0) with (@nil f32).
  destruct (setslice_nothing chunk offset) as [chunk' ->].
  change (Z.of_nat 0 <=? 0) with true. cbv iota.
  apply IH. exact Hr.
Qed.

(** X2: a mixer that is enabled over an empty noise buffer never returns:
    whatever the number of loop turns allowed, [_get_noise_chunk] of a
    positive number of samples is still running, and so are
    [get_ambient_only_chunk] of two bytes or more and
    [mix_tts_with_ambient] of a non-empty buffer of whole samples. *)
Theorem empty_noise_buffer_never_returns (np : Numpy) (fuel : nat)
        (self : AmbientMixer) :
  is_enabled self = true ->
  _noise_buffer self = Some [] ->
  _noise_position self = 0 ->
  (forall num_samples, 0 < num_samples ->
      _get_noise_chunk fuel self num_samples = Diverges)
  /\ (forall chunk_size_bytes, 2 <= chunk_size_bytes ->
        get_ambient_only_chunk np fuel self chunk_size_bytes = Diverges)
  /\ (forall lo hi rest,
        Nat.even (List.length rest) = true ->
        mix_tts_with_ambient np fuel self (lo :: hi :: rest) = Diverges).
Proof.
  intros Hon Hbuf Hpos.
  assert (Hchunk : forall n, 0 < n -> _get_noise_chunk fuel self n = Diverges).
  { intros n Hn. unfold _get_noise_chunk.
    destruct (Z.ltb_spec n 0); [lia|].
    rewrite Hbuf, Hpos, noise_loop_empty_buffer by exact Hn. reflexivity. }
  split; [exact Hchunk|]. split.
  - intros n Hn. unfold get_ambient_only_chunk. rewrite Hon. cbn [negb].
    rewrite Hchunk; [reflexivity|].
    unfold BYTES_PER_SAMPLE. apply Z.div_str_pos. lia.
  - intros lo hi rest Heven. unfold mix_tts_with_ambient. rewrite Hon. cbn [negb].
    unfold frombuffer_int16.
    replace (Z.of_nat (List.length (lo :: hi :: rest)) mod 2) with 0.
    + cbn [Z.eqb int16_elements map List.length]. rewrite Hchunk; [reflexivity|]. lia.
    + apply Nat.even_spec in Heven. destruct Heven as [k Hk].
      cbn [List.length]. rewrite Hk.
      replace (Z.of_nat (S (S (2 * k)))) with ((Z.of_nat k + 1) * 2) by lia.
      now rewrite Z.mod_mul.
Qed.

Lemma empty_noise_buffer_never_returns_witness :
  exists self,
    __init__ (fun _ => []) "office" = Ok self
    /\ get_ambient_only_chunk numpy 1000 self 2 = Diverges
    /\ mix_tts_with_ambient numpy 1000 self [x00; x00] = Diverges.
Proof.
  eexists. split; [reflexivity|].
  match goal with
  | |- get_ambient_only_chunk _ _ ?m _ = _ /\ _ =>
      destruct (empty_noise_buffer_never_returns numpy 1000 m) as (_ & Hamb & Hmix);
        [reflexivity | reflexivity | reflexivity |]
  end.
  split; [apply Hamb; lia | apply Hmix; reflexivity].
Defined.

Lemma to_pcm16_length (np : Numpy) (x : list f32) :
  List.length (to_pcm16 np x) = (2 * List.length x)%nat.
Proof.
  unfold to_pcm16, tobytes_int16. rewrite flat_map_concat_map, map_map.
  induction x as [|v x IH]; [reflexivity|].
  cbn [map List.concat]. rewrite length_app, le_bytes_length, IH. cbn. lia.
Qed.

Lemma int16_elements_length (k : nat) :
  forall buf : bytes,
    List.length buf = (2 * k)%nat -> List.length (int16_elements buf) = k.
Proof.
  induction k as [|k IH]; intros buf H.
  - destruct buf; [reflexivity | discriminate].
  - destruct buf as [|lo [|hi rest]]; try (cbn in H; lia).
    cbn [int16_elements List.length]. rewrite IH; [reflexivity|].
    cbn in H. lia.
Qed.

(** X3: on an enabled mixer, mixing a buffer of [k] whole samples returns
    a buffer of the same length in bytes and leaves a mixer whose cursor
    is the old one moved by [k] samples modulo the length of the noise
    buffer; preset, noise buffer and gain of that mixer are the old
    ones. *)
Theorem enabled_mix_keeps_length (np : Numpy) (fuel : nat) (self : AmbientMixer)
        (buffer : list f32) (c k : nat) (tts_bytes : bytes) :
  is_enabled self = true ->
  _noise_buffer self = Some buffer ->
  _noise_position self = Z.of_nat c ->
  (c < List.length buffer)%nat ->
  List.length tts_bytes = (2 * k)%nat ->
  (k <= fuel)%nat ->
  exists out self',
    mix_tts_with_ambient np fuel self tts_bytes = Returns out self'
    /\ List.length out = List.length tts_bytes
    /\ _noise_position self' = Z.of_nat ((c + k) mod List.length buffer)
    /\ preset self' = preset self
    /\ _noise_buffer self' = Some buffer
    /\ _ambient_gain self' = _ambient_gain self.
Proof.
  intros Hon Hbuf Hpos Hc Hlen Hfuel.
  unfold mix_tts_with_ambient. rewrite Hon. cbn [negb].
  unfold frombuffer_int16. rewrite Hlen.
  replace (Z.of_nat (2 * k) mod 2) with 0
    by (rewrite Nat2Z.inj_mul, Z.mul_comm, Z.mod_mul; lia).
  cbn [Z.eqb]. rewrite length_map, (int16_elements_length k) by exact Hlen.
  rewrite (get_noise_chunk_looped fuel self buffer c k) by assumption.
  unfold np_add.
  rewrite !length_map, (int16_elements_length k), looped_read_length, Nat.eqb_refl
    by exact Hlen.
  eexists _, _. split; [reflexivity|].
  cbn [set_noise_position _noise_position preset _noise_buffer _ambient_gain].
  split; [|repeat split; exact Hbuf].
  rewrite to_pcm16_length. unfold _soft_clip.
  rewrite !length_map, length_combine, !length_map,
    (int16_elements_length k), looped_read_length by exact Hlen.
  lia.
Qed.

Lemma enabled_mix_keeps_length_witness :
  exists out self',
    mix_tts_with_ambient numpy 2 office_mixer [x00; x10; xff; x7f] = Returns out self'
    /\ List.length out = 4%nat
    /\ _noise_position self' = 1.
Proof.
  destruct (enabled_mix_keeps_length numpy 2 office_mixer noise3 2 2 [x00; x10; xff; x7f])
    as (out & self' & Hrun & Hlen & Hpos & _);
    try reflexivity; try (cbn; lia).
  exists out, self'. repeat split; assumption.
Defined.

(** X4: on an enabled mixer, [get_ambient_only_chunk(chunk_size_bytes)]
    returns whole samples only: [chunk_size_bytes] bytes when that is
    even, one byte less when it is odd. *)
Theorem enabled_ambient_only_length (np : Numpy) (fuel : nat) (self : AmbientMixer)
        (buffer : list f32) (c : nat) (chunk_size_bytes : Z) :
  is_enabled self = true ->
  0 <= chunk_size_bytes ->
  _noise_buffer self = Some buffer ->
  _noise_position self = Z.of_nat c ->
  (c < List.length buffer)%nat ->
  (Z.to_nat (chunk_size_bytes / 2) <= fuel)%nat ->
  exists out self',
    get_ambient_only_chunk np fuel self chunk_size_bytes = Returns out self'
    /\ Z.of_nat (List.length out) = chunk_size_bytes - chunk_size_bytes mod 2.
Proof.
  intros Hon Hn Hbuf Hpos Hc Hfuel. unfold get_ambient_only_chunk.
  rewrite Hon. cbn [negb]. unfold BYTES_PER_SAMPLE. cbv zeta.
  assert (Hk : 0 <= chunk_size_bytes / 2) by (apply Z.div_pos; lia).
  pose proof (Z.div_mod chunk_size_bytes 2 ltac:(lia)) as Hdm.
  set (k := Z.to_nat (chunk_size_bytes / 2)) in *.
  replace (chunk_size_bytes / 2) with (Z.of_nat k) in * by (subst k; lia).
  rewrite (get_noise_chunk_looped fuel self buffer c) by assumption.
  eexists _, _. split; [reflexivity|].
  rewrite to_pcm16_length. unfold _soft_clip.
  rewrite !length_map, looped_read_length. lia.
Qed.

Lemma enabled_ambient_only_length_witness :
  exists out self',
    get_ambient_only_chunk numpy 3 office_mixer 7 = Returns out self'
    /\ Z.of_nat (List.length out) = 6.
Proof.
  apply (enabled_ambient_only_length numpy 3 office_mixer noise3 2 7);
    try reflexivity; cbn; lia.
Defined.

(** What a chunk read leaves behind is the mixer it started from with the
    cursor moved. *)
Lemma get_noise_chunk_moves_cursor_only (fuel : nat) (self : AmbientMixer)
      (num_samples : Z) :
  match _get_noise_chunk fuel self num_samples with
  | Returns _ self' | Raises _ self' =>
      self' = set_noise_position self (_noise_position self')
  | Diverges => True
  end.
Proof.
  unfold _get_noise_chunk.
  destruct (num_samples <? 0); [destruct self; reflexivity|].
  destruct (_noise_buffer self); [|destruct self; reflexivity].
  destruct (noise_loop _ _ _ _ _ _) as [[[chunk|e] p]|]; try reflexivity; exact I.
Qed.

(** X5: the two mixing operations change nothing of the mixer but the
    cursor, however they end; so [reset] after either of them gives the
    mixer that [reset] gives before it. *)
Theorem mixer_operations_move_cursor_only (np : Numpy) (fuel : nat)
        (self : AmbientMixer) :
  (forall tts_bytes,
      match mix_tts_with_ambient np fuel self tts_bytes with
      | Returns _ self' | Raises _ self' =>
          self' = set_noise_position self (_noise_position self')
          /\ reset self' = reset self
      | Diverges => True
      end)
  /\ (forall chunk_size_bytes,
        match get_ambient_only_chunk np fuel self chunk_size_bytes with
        | Returns _ self' | Raises _ self' =>
            self' = set_noise_position self (_noise_position self')
            /\ reset self' = reset self
        | Diverges => True
        end).
Proof.
  assert (Hreset : forall self' p, self' = set_noise_position self p ->
                                    self' = set_noise_position self (_noise_position self')
                                    /\ reset self' = reset self).
  { intros self' p ->. split; reflexivity. }
  assert (Hself : self = set_noise_position self (_noise_position self))
    by (destruct self; reflexivity).
  split.
  - intros tts_bytes. unfold mix_tts_with_ambient.
    destruct (is_enabled self); cbn [negb]; [|eapply Hreset; exact Hself].
    destruct (frombuffer_int16 tts_bytes) as [samples|e]; [|eapply Hreset; exact Hself].
    pose proof (get_noise_chunk_moves_cursor_only fuel self
                  (Z.of_nat (List.length
                     (map (fun z => div (of_Z z) (of_Z 32768)) samples)))) as H.
    destruct (_get_noise_chunk _ _ _) as [noise self'|e self'|]; [| |exact I].
    + destruct (np_add _ _); eapply Hreset; exact H.
    + eapply Hreset; exact H.
  - intros n. unfold get_ambient_only_chunk.
    destruct (is_enabled self); cbn [negb]; [|eapply Hreset; exact Hself].
    pose proof (get_noise_chunk_moves_cursor_only fuel self (n / BYTES_PER_SAMPLE)) as H.
    destruct (_get_noise_chunk _ _ _) as [noise self'|e self'|]; [| |exact I];
      eapply Hreset; exact H.
Qed.

(** X6: [AmbientMixer(preset)] raises [ValueError] exactly for a name
    outside the presets; ["none"] gives a disabled mixer without a buffer,
    ["office"] and ["call_center"] an enabled mixer over the noise loaded
    for that preset; the cursor starts at 0 and the preset is kept. *)
Theorem mixer_init_by_preset (load_noise : string -> list f32) (preset_name : string) :
  match __init__ load_noise preset_name with
  | Ok self =>
      preset self = preset_name
      /\ _noise_position self = 0
      /\ ((preset_name = "none"%string
           /\ _noise_buffer self = None /\ is_enabled self = false)
          \/ ((preset_name = "office"%string \/ preset_name = "call_center"%string)
              /\ _noise_buffer self = Some (load_noise preset_name)
              /\ is_enabled self = true))
  | Raise e =>
      e = ValueError
      /\ preset_name <> "none"%string
      /\ preset_name <> "office"%string
      /\ preset_name <> "call_center"%string
  end.
Proof.
  unfold __init__, PRESETS. cbn [lookup].
  destruct (String.eqb_spec preset_name "none") as [->|Hnone].
  - cbn. repeat split. left. repeat split.
  - destruct (String.eqb_spec preset_name "office") as [->|Hoffice].
    + cbn. repeat split. right. repeat split. left. reflexivity.
    + destruct (String.eqb_spec preset_name "call_center") as [->|Hcc].
      * cbn. repeat split. right. repeat split. right. reflexivity.
      * repeat split; assumption.
Qed.

End MixerMore.

(** ** Codec: further properties *)

Section CodecMore.
Import Audioop Twilio.

(** One mu-law byte: the decoded sample fits 16 bits with room to spare,
    is written and read back unchanged, and flipping the sign bit of the
    byte negates it. *)
Lemma ulaw_byte (b : byte) :
  let v := st_ulaw2linear16 (Z_of_byte b) in
  -32124 <= v <= 32124
  /\ le_signed 2 (SETSAMPLE32 2 (v * 65536)) = v
  /\ st_ulaw2linear16 (Z.lxor (Z_of_byte b) 128) = - v.
Proof.
  destruct b; vm_compute; (split; [split; discriminate | split; reflexivity]).
Qed.

Lemma int16_elements_sample (v : Z) (tail : bytes) :
  Float32.int16_elements (SETSAMPLE32 2 v ++ tail)
  = le_signed 2 (SETSAMPLE32 2 v) :: Float32.int16_elements tail.
Proof.
  unfold SETSAMPLE32. change (Z.to_nat 2) with 2%nat.
  cbn [le_bytes app Float32.int16_elements]. reflexivity.
Qed.

Lemma ulaw2lin_samples (fragment : bytes) :
  Float32.int16_elements
    (flat_map (fun b => SETSAMPLE32 2 (st_ulaw2linear16 (Z_of_byte b) * 65536)) fragment)
  = map (fun b => st_ulaw2linear16 (Z_of_byte b)) fragment.
Proof.
  induction fragment as [|b rest IH]; [reflexivity|].
  cbn [flat_map map]. rewrite int16_elements_sample, IH. f_equal.
  apply ulaw_byte.
Qed.

Lemma ulaw_flip_sign (b : byte) :
  st_ulaw2linear16 (Z_of_byte (byte_of_Z (Z.lxor (Z_of_byte b) 128)))
  = - st_ulaw2linear16 (Z_of_byte b).
Proof. destruct b; vm_compute; reflexivity. Qed.

(** X7: [audioop.ulaw2lin(fragment, 2)] never raises; its 16-bit samples
    are the table values of the bytes, one per byte and in order, all
    within [-32124, 32124]; flipping the sign bit of every byte negates
    every sample. *)
Theorem ulaw2lin_decodes_every_byte (fragment : bytes) :
  exists pcm16 negated,
    ulaw2lin fragment 2 = Ok pcm16
    /\ Float32.int16_elements pcm16
       = map (fun b => st_ulaw2linear16 (Z_of_byte b)) fragment
    /\ Forall (fun v => -32124 <= v <= 32124) (Float32.int16_elements pcm16)
    /\ ulaw2lin (map (fun b => byte_of_Z (Z.lxor (Z_of_byte b) 128)) fragment) 2
       = Ok negated
    /\ Float32.int16_elements negated = map Z.opp (Float32.int16_elements pcm16).
Proof.
  unfold ulaw2lin. change (check_size 2) with true. cbv iota.
  eexists _, _. split; [reflexivity|]. rewrite !ulaw2lin_samples.
  split; [reflexivity|]. split; [|split; [reflexivity|]].
  - apply Forall_forall. intros v Hv. apply in_map_iff in Hv.
    destruct Hv as (b & <- & _). apply ulaw_byte.
  - rewrite ulaw2lin_samples, !map_map. apply map_ext. intros b. apply ulaw_flip_sign.
Qed.

(** With [inrate = 1] the output loop entered at [d >= -1] writes [d + 1]
    samples and stops at [d = -1]. *)
Lemma ratecv_emit_unit_step (fuel : nat) :
  forall (outrate prev_i cur_i d : Z) (out : bytes),
    d + 1 = Z.of_nat fuel ->
    exists out',
      ratecv_emit fuel 2 1 outrate prev_i cur_i d out = (-1, out')
      /\ List.length out' = (List.length out + 2 * fuel)%nat.
Proof.
  induction fuel as [|fuel IH]; intros outrate prev_i cur_i d out Hd.
  - exists out. replace d with (-1) by lia. split; [reflexivity | lia].
  - cbn [ratecv_emit]. destruct (Z.leb_spec 0 d); [|lia].
    destruct (IH outrate prev_i cur_i (d - 1)
                  (out ++ SETSAMPLE32 2
                     (Z.quot (prev_i * d + cur_i * (outrate - d)) outrate)))
      as (out' & E & Hlen); [lia|].
    exists out'. split; [exact E|].
    rewrite Hlen, length_app, SETSAMPLE32_length. lia.
Qed.

Lemma ratecv_feed_unit_step (k : nat) (len : nat) :
  forall (cp : bytes) (prev_i cur_i : Z) (out : bytes),
    List.length (fst (ratecv_feed len cp 2 1 (Z.of_nat k) prev_i cur_i (-1) out))
    = (List.length out + 2 * k * len)%nat.
Proof.
  induction len as [|len IH]; intros cp prev_i cur_i out.
  - cbn. lia.
  - cbn [ratecv_feed].
    destruct (ratecv_emit_unit_step (Z.to_nat (-1 + Z.of_nat k + 1)) (Z.of_nat k) cur_i
                (Z.quot (1 * GETSAMPLE32 2 cp + 0 * cur_i) (1 + 0))
                (-1 + Z.of_nat k) out) as (out' & E & Hlen); [lia|].
    rewrite E, IH, Hlen. lia.
Qed.

Lemma ratecv_integer_factor (pcm16 : bytes) (n k : nat) :
  List.length pcm16 = (2 * n)%nat ->
  (2 <= k)%nat ->
  8000 * Z.of_nat k <= INT_MAX ->
  exists out state,
    ratecv pcm16 2 SOURCE_SAMPLE_RATE_HZ (8000 * Z.of_nat k) = Ok (out, state)
    /\ List.length out = (2 * (k * n - (k - 1)))%nat.
Proof.
  intros Hlen Hk Hmax. unfold ratecv, SOURCE_SAMPLE_RATE_HZ.
  change (check_size 2) with true. cbv [negb].
  unfold INT_MAX, INT_MIN in *.
  destruct (Z.ltb_spec 2147483647 8000); [lia|].
  destruct (Z.ltb_spec 2147483647 (8000 * Z.of_nat k)); [lia|].
  destruct (Z.ltb_spec 8000 (-2147483648)); [lia|].
  destruct (Z.ltb_spec (8000 * Z.of_nat k) (-2147483648)); [lia|]. cbn [orb].
  rewrite Hlen.
  replace (Z.of_nat (2 * n) mod 2) with 0
    by (rewrite Nat2Z.inj_mul, Z.mul_comm, Z.mod_mul; lia).
  change (0 =? 0) with true. cbv iota.
  destruct (Z.leb_spec (8000 * Z.of_nat k) 0); [lia|].
  change (8000 <=? 0) with false. cbn [orb].
  replace (Z.gcd 8000 (8000 * Z.of_nat k)) with 8000.
  2:{ rewrite <- (Z.mul_1_r 8000) at 2.
      rewrite Z.gcd_mul_mono_l_nonneg by lia. rewrite Z.gcd_1_l. reflexivity. }
  change (8000 / 8000) with 1.
  replace (8000 * Z.of_nat k / 8000) with (Z.of_nat k)
    by (rewrite Z.mul_comm, Z.div_mul; lia).
  replace (Z.to_nat (Z.of_nat (2 * n) / 2)) with n
    by (rewrite Nat2Z.inj_mul, Z.mul_comm, Z.div_mul; lia).
  destruct (ratecv_feed n pcm16 2 1 (Z.of_nat k) 0 0 (- Z.of_nat k) []) as [out state] eqn:E.
  exists out, state. split; [reflexivity|].
  replace out with (fst (ratecv_feed n pcm16 2 1 (Z.of_nat k) 0 0 (- Z.of_nat k) []))
    by (rewrite E; reflexivity).
  clear E. destruct n as [|n]; [cbn; lia|].
  cbn [ratecv_feed].
  replace (- Z.of_nat k + Z.of_nat k) with 0 by lia.
  change (Z.to_nat (0 + 1)) with 1%nat.
  cbn [ratecv_emit]. change (0 <=? 0) with true. cbv iota.
  change (0 - 1) with (-1).
  rewrite ratecv_feed_unit_step, length_app, SETSAMPLE32_length. cbn [List.length]. nia.
Qed.

End CodecMore.

Section ResamplingMore.
Import Audioop Twilio.
Local Open Scope string_scope.

(** X8: when the target rate is [k] times the 8000 Hz source rate,
    [mulaw_b64_to_pcm16] turns [n] mu-law bytes into [k * n - (k - 1)]
    samples of two bytes each ([n] samples for [k = 1], where no
    conversion runs). *)
Theorem mulaw_b64_to_pcm16_integer_upsampling
        (mulaw_b64 : string) (mulaw : bytes) (k : nat) :
  Base64.b64decode mulaw_b64 = Ok mulaw ->
  (1 <= k)%nat ->
  (8000 * Z.of_nat k <= INT_MAX)%Z ->
  exists pcm16,
    mulaw_b64_to_pcm16 mulaw_b64 (Some (8000 * Z.of_nat k)%Z) = Ok pcm16
    /\ sample_count pcm16 = (k * List.length mulaw - (k - 1))%nat
    /\ List.length pcm16 = (2 * sample_count pcm16)%nat.
Proof.
  intros Hdec Hk Hmax. unfold mulaw_b64_to_pcm16. rewrite Hdec. cbn [bind].
  destruct (ulaw2lin mulaw 2) as [pcm|e] eqn:Hu; [|discriminate Hu].
  cbn [bind]. pose proof (ulaw2lin_length _ _ Hu) as Hlen.
  destruct (Nat.eq_dec k 1) as [->|Hk1].
  - change (8000 * Z.of_nat 1)%Z with SOURCE_SAMPLE_RATE_HZ.
    rewrite Z.eqb_refl, andb_false_r.
    exists pcm. unfold sample_count. rewrite Hlen.
    rewrite Nat.mul_comm, Nat.div_mul by lia. repeat split; lia.
  - destruct (Z.eqb_spec (8000 * Z.of_nat k) 0); [lia|].
    destruct (Z.eqb_spec (8000 * Z.of_nat k) SOURCE_SAMPLE_RATE_HZ) as [E|_];
      [unfold SOURCE_SAMPLE_RATE_HZ in E; lia|].
    cbn [negb andb].
    destruct (ratecv_integer_factor pcm (List.length mulaw) k Hlen) as (out & st & Hr & Ho);
      [lia | exact Hmax |].
    rewrite Hr. cbn [bind fst]. exists out. unfold sample_count. rewrite Ho.
    rewrite Nat.mul_comm, Nat.div_mul by lia. repeat split; lia.
Qed.

Lemma mulaw_b64_to_pcm16_integer_upsampling_witness :
  exists pcm16,
    mulaw_b64_to_pcm16 "EBAQEA==" (Some 16000%Z) = Ok pcm16
    /\ sample_count pcm16 = 7%nat.
Proof.
  destruct (mulaw_b64_to_pcm16_integer_upsampling "EBAQEA==" [x10; x10; x10; x10] 2)
    as (pcm16 & H & Hn & _); [reflexivity | lia | vm_compute; discriminate |].
  exists pcm16. split; [exact H | exact Hn].
Defined.

(** X9: how [mulaw_b64_to_pcm16] fails.  An error of the base64 decoder
    is the error of the call, whatever the rate.  On a payload that
    decodes, no rate ([None]) gives one sample per byte, a negative rate
    that fits a C [int] raises [audioop.error], and a rate above
    [INT_MAX] raises [OverflowError]. *)
Theorem mulaw_b64_to_pcm16_failures (mulaw_b64 : string) :
  match Base64.b64decode mulaw_b64 with
  | Raise e => forall rate, mulaw_b64_to_pcm16 mulaw_b64 rate = Raise e
  | Ok mulaw =>
      (exists pcm16, mulaw_b64_to_pcm16 mulaw_b64 None = Ok pcm16
                     /\ sample_count pcm16 = List.length mulaw)
      /\ forall rate : Z,
          (- INT_MAX - 1 <= rate < 0 ->
           mulaw_b64_to_pcm16 mulaw_b64 (Some rate) = Raise audioop_error)%Z
          /\ (INT_MAX < rate ->
              mulaw_b64_to_pcm16 mulaw_b64 (Some rate) = Raise OverflowError)%Z
  end.
Proof.
  unfold mulaw_b64_to_pcm16.
  destruct (Base64.b64decode mulaw_b64) as [mulaw|e]; [|reflexivity].
  cbn [bind].
  destruct (ulaw2lin mulaw 2) as [pcm|e] eqn:Hu; [|discriminate Hu].
  cbn [bind]. pose proof (ulaw2lin_length _ _ Hu) as Hlen.
  split.
  - exists pcm. split; [reflexivity|]. unfold sample_count.
    rewrite Hlen, Nat.mul_comm, Nat.div_mul by lia. reflexivity.
  - intros rate.
    assert (Hmod : (Z.of_nat (List.length pcm) mod 2 =? 0)%Z = true).
    { rewrite Hlen, Nat2Z.inj_mul, Z.mul_comm, Z.mod_mul by lia. reflexivity. }
    unfold ratecv, INT_MAX, INT_MIN, SOURCE_SAMPLE_RATE_HZ.
    change (check_size 2) with true. cbv [negb]. rewrite Hmod.
    change (2147483647 <? 8000)%Z with false. change (8000 <=? 0)%Z with false.
    change (8000 <? -2147483648)%Z with false.
    cbn [orb].
    destruct (Z.eqb_spec rate 0) as [->|H0]; cbn [negb andb].
    + split; lia.
    + destruct (Z.eqb_spec rate 8000) as [->|H8]; cbn [negb andb].
      * split; lia.
      * destruct (Z.ltb_spec 2147483647 rate);
          destruct (Z.ltb_spec rate (-2147483648));
          destruct (Z.leb_spec rate 0);
          cbn [orb bind]; split; try lia; try reflexivity.
Qed.

End ResamplingMore.

(** ** Relay: further properties *)

Section RelayMore.
Import Json VoiceLive RelayObservers RelaySamples.
Local Open Scope string_scope.

Variable float_of_str : string -> option spec_float.

Ltac split_trace_at H :=
  match type of H with
  | (_ :: _) = (?pre ++ _ :: _)%list =>
      destruct pre as [|? pre]; cbn [app] in H;
      [ first [ discriminate H | injection H as ? ? ?; subst ]
      | injection H as ? H; subst; split_trace_at H ]
  | [] = (?pre ++ _ :: _)%list => destruct pre; discriminate H
  end.

(** X10: [update_stream_context] is idempotent: applying the same update
    a second time changes nothing. *)
Theorem update_stream_context_idempotent
        (self : VoiceLiveStreamingHandler) (u : context_update) :
  update_stream_context (update_stream_context self u) u
  = update_stream_context self u.
Proof.
  unfold update_stream_context. cbn.
  destruct (truthy_str (arg_call_sid u)), (truthy_str (arg_stream_sid u)),
    (truthy_str (arg_recording_sid u)), (arg_attempt u); reflexivity.
Qed.

(** X11: one Voice Live event invokes at most one of the registered
    callbacks, whatever the event and whatever the handler. *)
Theorem on_event_at_most_one_callback
        (self : VoiceLiveStreamingHandler) (event : json) :
  (List.length (callbacks (fst (on_event float_of_str self event))) <= 1)%nat.
Proof.
  unfold on_event.
  destruct (get event "type" JNull) as [event_type|e]; cbn; [|lia].
  destruct (is_str event_type "session.created").
  { destruct (get event "session" (JDict [])) as [session|e]; cbn; [|lia].
    destruct (get session "id" JNull); cbn; lia. }
  destruct (is_str event_type "input_audio_buffer.cleared"); [cbn; lia|].
  destruct (is_str event_type "input_audio_buffer.speech_started").
  { unfold _emit_stop. destruct (_on_audio_stop self); cbn; lia. }
  destruct (is_str event_type "conversation.item.input_audio_transcription.completed").
  { destruct (get event "transcript" JNull) as [transcript|e]; cbn; [|lia].
    destruct (truthy transcript); cbn; [|lia].
    assert (Hsched : callbacks (fst (_schedule_transcript_persist float_of_str self
                                       transcript event)) = []).
    { unfold _schedule_transcript_persist.
      destruct (transcription_store self); [|reflexivity].
      destruct (negb _ || negb _); [reflexivity|].
      destruct (attempt self); [|reflexivity].
      destruct (_extract_confidence float_of_str event); reflexivity. }
    destruct (_schedule_transcript_persist float_of_str self transcript event)
      as [ts rs] eqn:Es. cbn in Hsched.
    unfold _emit_user_transcript.
    destruct (_on_user_transcript self) as [cb|]; cbn.
    - destruct (cb transcript); cbn; [|lia].
      unfold callbacks in *. cbn. rewrite Hsched. cbn. lia.
    - unfold callbacks in *. rewrite Hsched. cbn. lia. }
  destruct (is_str event_type "conversation.item.input_audio_transcription.failed").
  { destruct (get event "error" JNull); cbn; lia. }
  destruct (is_str event_type "response.audio_transcript.done").
  { destruct (get event "transcript" JNull) as [transcript|e]; cbn; [|lia].
    destruct (truthy transcript); cbn; [|lia].
    unfold _emit_ai_transcript. destruct (_on_ai_transcript self) as [cb|]; cbn; [|lia].
    destruct (cb transcript); cbn; lia. }
  destruct (is_str event_type "response.audio.delta").
  { destruct (get event "delta" JNull) as [delta|e]; cbn; [|lia].
    destruct (truthy delta); cbn; [|lia].
    destruct (b64decode_value delta) as [chunk|e]; cbn; [|lia].
    unfold _emit_audio_chunk. destruct (_on_audio_chunk self) as [cb|]; cbn; [|lia].
    destruct (cb chunk); cbn; lia. }
  destruct (is_str event_type "error"); cbn; lia.
Qed.

(** The loop itself never raises. *)
Lemma receiver_loop_returns (self : VoiceLiveStreamingHandler)
      (messages : list (result json)) :
  snd (_receiver_loop float_of_str self messages) = Ok tt.
Proof.
  induction messages as [|m rest IH]; [reflexivity|].
  cbn [_receiver_loop].
  destruct (event <~ lift m ;; on_event float_of_str self event) as [t [[]|e]].
  - destruct (_receiver_loop float_of_str self rest) as [t' r]. exact IH.
  - reflexivity.
Qed.

(** X12: when no message makes the dispatch raise, [_receiver_loop]
    does, message after message and in arrival order, what the dispatch
    does for each message, and then returns normally. *)
Theorem receiver_loop_delivers_in_order (self : VoiceLiveStreamingHandler)
        (messages : list (result json)) :
  Forall (fun m => snd (event <~ lift m ;; on_event float_of_str self event) = Ok tt)
         messages ->
  _receiver_loop float_of_str self messages
  = (flat_map (fun m => fst (event <~ lift m ;; on_event float_of_str self event))
              messages,
     Ok tt).
Proof.
  induction 1 as [|m rest Hm _ IH]; [reflexivity|].
  cbn [_receiver_loop flat_map].
  destruct (event <~ lift m ;; on_event float_of_str self event) as [t r].
  cbn in Hm. subst r. rewrite IH. reflexivity.
Qed.

(** X13: the first message on which parsing or dispatch raises ends
    [_receiver_loop]: the effects of the messages before it and of the
    failing message up to the exception happen, the exception is logged,
    the loop returns normally, and no later message has any effect. *)
Theorem receiver_loop_stops_at_first_error (self : VoiceLiveStreamingHandler)
        (before after : list (result json)) (failing : result json) (e : exn) :
  Forall (fun m => snd (event <~ lift m ;; on_event float_of_str self event) = Ok tt)
         before ->
  snd (event <~ lift failing ;; on_event float_of_str self event) = Raise e ->
  _receiver_loop float_of_str self (before ++ failing :: after)
  = ((flat_map (fun m => fst (event <~ lift m ;; on_event float_of_str self event))
               before
      ++ fst (event <~ lift failing ;; on_event float_of_str self event)
      ++ [Log "exception" "[VoiceLive] Receiver loop error"])%list,
     Ok tt).
Proof.
  intros Hbefore Hfail.
  induction Hbefore as [|m rest Hm _ IH].
  - cbn [app flat_map _receiver_loop].
    destruct (event <~ lift failing ;; on_event float_of_str self event) as [t r].
    cbn in Hfail. subst r. reflexivity.
  - cbn [app flat_map _receiver_loop].
    destruct (event <~ lift m ;; on_event float_of_str self event) as [t r].
    cbn in Hm. subst r. rewrite IH. cbn [fst]. rewrite <- app_assoc. reflexivity.
Qed.

(** X14: [_extract_confidence] on an event object.  A ["confidence"]
    entry other than [None] decides alone, as [float()] of it with
    [TypeError] and [ValueError] turned into [None] (so text that is not
    a number gives [None]); without ["confidence"] and ["alternatives"]
    the result is [None]; the only exception that can escape is the
    [OverflowError] of [float()] on a too large integer. *)
Theorem extract_confidence_edges (items : list (string * json)) :
  (forall c, find_last "confidence" items None = Some c -> c <> JNull ->
             _extract_confidence float_of_str (JDict items)
             = float_or_none float_of_str c)
  /\ (forall s, find_last "confidence" items None = Some (JStr s) ->
                float_of_str s = None ->
                _extract_confidence float_of_str (JDict items) = Ok None)
  /\ (find_last "confidence" items None = None ->
      find_last "alternatives" items None = None ->
      _extract_confidence float_of_str (JDict items) = Ok None)
  /\ (forall e, _extract_confidence float_of_str (JDict items) = Raise e ->
                e = OverflowError).
Proof.
  assert (Hfloat : forall v e, float_or_none float_of_str v = Raise e -> e = OverflowError).
  { intros v e. unfold float_or_none, float_.
    destruct v as [|b|z|x|s|l|kv]; try discriminate.
    - destruct (binary_normalize 53 1024 z 0 false); try discriminate.
      intros H; injection H as <-. reflexivity.
    - destruct (float_of_str s); discriminate. }
  unfold _extract_confidence, get. cbn [bind].
  split; [|split; [|split]].
  - intros c Hc Hnull. rewrite Hc. destruct c; try reflexivity. contradiction.
  - intros s Hc Hs. rewrite Hc. unfold float_or_none, float_. rewrite Hs. reflexivity.
  - intros Hc Ha. rewrite Hc, Ha. reflexivity.
  - intros e.
    destruct (find_last "confidence" items None) as [c|].
    + destruct c; try apply Hfloat.
      destruct (find_last "alternatives" items None) as [[| | | | |[|[] ?]|]|];
        try discriminate.
      destruct (find_last "confidence" items0 None) as [[]|];
        try discriminate; apply Hfloat.
    + destruct (find_last "alternatives" items None) as [[| | | | |[|[] ?]|]|];
        try discriminate.
      destruct (find_last "confidence" items0 None) as [[]|];
        try discriminate; apply Hfloat.
Qed.

Lemma update_all_keeps_collaborators (us : list context_update) :
  forall self,
    transcription_store (update_all self us) = transcription_store self
    /\ sms_queue (update_all self us) = sms_queue self.
Proof.
  induction us as [|u us IH]; intros self; [split; reflexivity|].
  cbn [update_all fold_left]. apply (IH (update_stream_context self u)).
Qed.

(** X15: a persistence task calls [enqueue] at most once;
    [mark_sms_enqueued] is called only directly after an [enqueue] that
    returned; without an SMS queue the task makes at most two calls and
    never enqueues. *)
Theorem persist_enqueues_at_most_once (self : VoiceLiveStreamingHandler)
        (i : interleaving) (transcript : json) (confidence : option spec_float) :
  (List.length (filter is_enqueue (fst (persist self i transcript confidence))) <= 1)%nat
  /\ (forall pre post call recording att returned,
         fst (persist self i transcript confidence)
         = (pre ++ MarkSmsEnqueued call recording att returned :: post)%list ->
         exists pre' candidate, pre = (pre' ++ [Enqueue candidate (Ok tt)])%list)
  /\ (sms_queue self = None ->
      (List.length (fst (persist self i transcript confidence)) <= 2)%nat
      /\ filter is_enqueue (fst (persist self i transcript confidence)) = []).
Proof.
  unfold persist.
  destruct (update_all_keeps_collaborators (during_store i)
              (update_all self (before_start i))) as [_ Hq2].
  destruct (update_all_keeps_collaborators (before_start i) self) as [_ Hq1].
  rewrite Hq2, Hq1.
  destruct (transcription_store (update_all self (before_start i))) as [st1|].
  2:{ cbn. repeat split; try lia. intros pre post c r a ret H. split_trace_at H. }
  cbn. destruct (store_transcript st1 _ _ _ _ _) as [url|e].
  2:{ cbn. repeat split; try lia. intros pre post c r a ret H. split_trace_at H. }
  destruct (sms_queue self) as [queue|].
  2:{ cbn. repeat split; try lia. intros pre post c r a ret H. split_trace_at H. }
  destruct (transcription_store _) as [st2|].
  2:{ cbn. repeat split; try lia; try discriminate.
      intros pre post c r a ret H. split_trace_at H. }
  cbn. destruct (build_sms_candidate st2 _ _ _) as [[cand|]|e].
  2,3: cbn; repeat split; try lia; try discriminate;
       intros pre post c r a ret H; split_trace_at H.
  cbn. destruct (enqueue queue cand) as [[]|e].
  2:{ cbn. repeat split; try lia; try discriminate.
      intros pre post c r a ret H. split_trace_at H. }
  destruct (transcription_store _) as [st3|].
  2:{ cbn. repeat split; try lia; try discriminate.
      intros pre post c r a ret H. split_trace_at H. }
  cbn. destruct (mark_sms_enqueued st3 _ _ _) as [[]|e];
    cbn; repeat split; try lia; try discriminate;
    intros pre post c r a ret H; split_trace_at H;
    eexists [_; _], _; reflexivity.
Qed.

End RelayMore.

Section RelayExamples.
Import Json VoiceLive RelayObservers RelaySamples.
Local Open Scope string_scope.

Lemma receiver_loop_delivers_in_order_witness :
  _receiver_loop no_float listening_handler
    [Ok silent_delta; Ok empty_delta; Ok silent_delta]
  = ([AudioChunk (repeat x00 8); AudioChunk (repeat x00 8)], Ok tt).
Proof.
  apply (receiver_loop_delivers_in_order no_float listening_handler
           [Ok silent_delta; Ok empty_delta; Ok silent_delta]).
  repeat (apply Forall_cons; [reflexivity|]). apply Forall_nil.
Defined.

Lemma receiver_loop_stops_at_first_error_witness :
  _receiver_loop no_float listening_handler
    [Ok silent_delta; Ok (JList []); Ok silent_delta]
  = ([AudioChunk (repeat x00 8); Log "exception" "[VoiceLive] Receiver loop error"],
     Ok tt).
Proof.
  apply (receiver_loop_stops_at_first_error no_float listening_handler
           [Ok silent_delta] [Ok silent_delta] (Ok (JList [])) AttributeError).
  - apply Forall_cons; [reflexivity | apply Forall_nil].
  - reflexivity.
Defined.

End RelayExamples.

(** ** Twilio media stream *)

Section TwilioStreamFacts.
Import Json TwilioStream.
Local Open Scope string_scope.

Variable json_dumps : json -> string.

Lemma is_str_true (v : json) (s : string) : is_str v s = true -> v = JStr s.
Proof.
  destruct v; try discriminate. cbn. intros H.
  apply String.eqb_eq in H. now subst.
Qed.

(** X16: frames [handle_message] ignores, leaving handler, stream context
    and send queue as they are: binary frames, text that is not JSON,
    objects whose event type is hashable and neither ["start"] nor
    ["media"], and media frames whose payload is falsy. *)
Theorem handle_message_ignored_frames (s : stream) :
  (forall data, handle_message json_dumps s (Binary data) = Done s)
  /\ handle_message json_dumps s (Text None) = Done s
  /\ (forall items event_type,
         get (JDict items) "event" JNull = Ok event_type ->
         hashable event_type = true ->
         event_type <> JStr "start" ->
         event_type <> JStr "media" ->
         handle_message json_dumps s (Text (Some (JDict items))) = Done s)
  /\ (forall items media payload,
         get (JDict items) "event" JNull = Ok (JStr "media") ->
         get (JDict items) "media" (JDict []) = Ok (JDict media) ->
         get (JDict media) "payload" JNull = Ok payload ->
         truthy payload = false ->
         handle_message json_dumps s (Text (Some (JDict items))) = Done s).
Proof.
  split; [reflexivity|]. split; [reflexivity|]. split.
  - intros items event_type Hev Hhash Hstart Hmedia.
    unfold handle_message. rewrite Hev.
    destruct (is_str event_type "start") eqn:E1;
      [apply is_str_true in E1; contradiction|].
    destruct (is_str event_type "media") eqn:E2;
      [apply is_str_true in E2; contradiction|].
    rewrite Hhash. cbn [negb]. destruct (is_str event_type "stop"); reflexivity.
  - intros items media payload Hev Hmedia Hpayload Hfalsy.
    unfold handle_message. rewrite Hev.
    change (is_str (JStr "media") "start") with false.
    change (is_str (JStr "media") "media") with true. cbv iota.
    rewrite Hmedia. cbn [bind].
    rewrite Hpayload, Hfalsy. reflexivity.
Qed.

Ltac start_branch Hev :=
  unfold handle_message; rewrite Hev;
  change (is_str (JStr "start") "start") with true; cbv iota.

Ltac media_branch Hev :=
  unfold handle_message; rewrite Hev;
  change (is_str (JStr "media") "start") with false;
  change (is_str (JStr "media") "media") with true; cbv iota.

Lemma eqb_nonempty (x : string) : x <> "" -> String.eqb x "" = false.
Proof. intros H. now apply String.eqb_neq. Qed.

(** X17: a start frame with non-empty [callSid] and [streamSid] sets both
    on the Twilio handler and on the Voice Live handler, hands the
    recording identifier and the attempt of the Twilio handler to the
    Voice Live handler where they are set, leaves the send queue alone,
    and from then on a caller transcript is sent as a ["message"] frame
    with that stream identifier and the text prefixed with ["Caller: "]. *)
Theorem start_frame_sets_identifiers (s : stream)
        (items start : list (string * json)) (call sid : string) :
  get (JDict items) "event" JNull = Ok (JStr "start") ->
  get (JDict items) "start" (JDict []) = Ok (JDict start) ->
  get (JDict start) "callSid" JNull = Ok (JStr call) ->
  get (JDict start) "streamSid" JNull = Ok (JStr sid) ->
  call <> "" -> sid <> "" ->
  exists s',
    handle_message json_dumps s (Text (Some (JDict items))) = Done s'
    /\ call_sid (twilio s') = Some call
    /\ stream_sid (twilio s') = Some sid
    /\ VoiceLive.call_sid (voice_live_handler s') = Some call
    /\ VoiceLive.stream_sid (voice_live_handler s') = Some sid
    /\ VoiceLive.recording_sid (voice_live_handler s')
       = (if VoiceLive.truthy_str (recording_sid (twilio s))
          then recording_sid (twilio s)
          else VoiceLive.recording_sid (voice_live_handler s))
    /\ VoiceLive.attempt (voice_live_handler s')
       = (match attempt (twilio s) with
          | Some z => Some z
          | None => VoiceLive.attempt (voice_live_handler s)
          end)
    /\ send_queue s' = send_queue s
    /\ (forall text,
           send_user_transcript json_dumps (twilio s') text
           = Some (json_dumps (JDict [ ("event", JStr "message");
                                       ("streamSid", JStr sid);
                                       ("text", JStr ("Caller: " ++ text)) ]))).
Proof.
  intros Hev Hstart Hcall Hsid Hc Hs.
  start_branch Hev. rewrite Hstart. cbn [bind]. rewrite Hcall. cbn [bind].
  rewrite Hsid. cbn [bind identifier].
  eexists. split; [reflexivity|].
  cbn [twilio voice_live_handler send_queue call_sid stream_sid
       VoiceLive.update_stream_context VoiceLive.call_sid VoiceLive.stream_sid
       VoiceLive.recording_sid VoiceLive.attempt VoiceLive.arg_call_sid
       VoiceLive.arg_stream_sid VoiceLive.arg_recording_sid VoiceLive.arg_attempt
       VoiceLive.truthy_str].
  rewrite !eqb_nonempty by assumption. cbn [negb].
  repeat split.
  - destruct (attempt (twilio s)); reflexivity.
  - intros text. unfold send_user_transcript, send_transcript. cbn [stream_sid].
    rewrite eqb_nonempty by assumption. reflexivity.
Qed.

(** X18: a start frame without [streamSid] clears the stream identifier
    of the Twilio handler, so that no transcript is sent back afterwards,
    while the Voice Live handler keeps the stream identifier it had. *)
Theorem start_frame_without_stream_sid (s : stream)
        (items start : list (string * json)) (call : json) (c : option string) :
  get (JDict items) "event" JNull = Ok (JStr "start") ->
  get (JDict items) "start" (JDict []) = Ok (JDict start) ->
  get (JDict start) "callSid" JNull = Ok call ->
  identifier call = Some c ->
  find_last "streamSid" start None = None ->
  exists s',
    handle_message json_dumps s (Text (Some (JDict items))) = Done s'
    /\ stream_sid (twilio s') = None
    /\ (forall text speaker_prefix,
           send_transcript json_dumps (twilio s') text speaker_prefix = None)
    /\ VoiceLive.stream_sid (voice_live_handler s')
       = VoiceLive.stream_sid (voice_live_handler s).
Proof.
  intros Hev Hstart Hcall Hid Hsid.
  start_branch Hev. rewrite Hstart. cbn [bind]. rewrite Hcall. cbn [bind].
  unfold get. rewrite Hsid. cbn [bind identifier]. rewrite Hid.
  eexists. split; [reflexivity|]. repeat split.
Qed.

(** Decoding and resampling a payload that is valid base64. *)
Lemma decode_and_resample (p : string) (mulaw : bytes) :
  Base64.b64decode p = Ok mulaw ->
  exists pcm16,
    Twilio.mulaw_b64_to_pcm16 p (Some Twilio.TARGET_SAMPLE_RATE_HZ) = Ok pcm16
    /\ sample_count pcm16 = (3 * List.length mulaw - 2)%nat.
Proof.
  intros Hdec. unfold Twilio.mulaw_b64_to_pcm16. rewrite Hdec. cbn [bind].
  destruct (Audioop.ulaw2lin mulaw 2) as [pcm|e] eqn:Hu; [|discriminate Hu].
  cbn [bind].
  change (negb (Twilio.TARGET_SAMPLE_RATE_HZ =? 0)%Z
          && negb (Twilio.TARGET_SAMPLE_RATE_HZ =? Twilio.SOURCE_SAMPLE_RATE_HZ)%Z)
    with true. cbv iota.
  destruct (ratecv_8k_to_24k pcm (List.length mulaw) (ulaw2lin_length _ _ Hu))
    as (out & state & Hr & Hlen).
  unfold Twilio.TARGET_SAMPLE_RATE_HZ. rewrite Hr. cbn [bind fst].
  exists out. split; [reflexivity|]. unfold sample_count. rewrite Hlen.
  rewrite Nat.mul_comm, Nat.div_mul by lia. reflexivity.
Qed.


(** X20: frames on which [handle_message] raises, leaving everything as
    it was: JSON that is not an object and a start frame whose ["start"]
    is not an object ([AttributeError]), a media frame whose non-empty
    payload the base64 decoder refuses (the decoder's error), and an event
    type that is a list or an object ([TypeError]). *)
Theorem handle_message_fatal_frames (s : stream) :
  (forall message,
      (forall items, message <> JDict items) ->
      handle_message json_dumps s (Text (Some message)) = Failed AttributeError s)
  /\ (forall items start,
         get (JDict items) "event" JNull = Ok (JStr "start") ->
         get (JDict items) "start" (JDict []) = Ok start ->
         (forall kv, start <> JDict kv) ->
         handle_message json_dumps s (Text (Some (JDict items)))
         = Failed AttributeError s)
  /\ (forall items media p e,
         get (JDict items) "event" JNull = Ok (JStr "media") ->
         get (JDict items) "media" (JDict []) = Ok (JDict media) ->
         get (JDict media) "payload" JNull = Ok (JStr p) ->
         p <> "" ->
         Base64.b64decode p = Raise e ->
         handle_message json_dumps s (Text (Some (JDict items))) = Failed e s)
  /\ (forall items event_type,
         get (JDict items) "event" JNull = Ok event_type ->
         hashable event_type = false ->
         handle_message json_dumps s (Text (Some (JDict items)))
         = Failed TypeError s).
Proof.
  split; [|split; [|split]].
  - intros message Hnot. unfold handle_message.
    destruct message; try reflexivity. destruct (Hnot items eq_refl).
  - intros items start Hev Hstart Hnot. start_branch Hev. rewrite Hstart. cbn [bind].
    destruct start; try reflexivity. destruct (Hnot items0 eq_refl).
  - intros items media p e Hev Hmedia Hpayload Hp Hdec.
    media_branch Hev. rewrite Hmedia. cbn [bind]. rewrite Hpayload.
    cbn [truthy]. rewrite eqb_nonempty by exact Hp. cbn [negb].
    unfold Twilio.mulaw_b64_to_pcm16. rewrite Hdec. reflexivity.
  - intros items event_type Hev Hhash. unfold handle_message. rewrite Hev.
    destruct event_type; try discriminate Hhash; reflexivity.
Qed.

Lemma control_frame_step (s : stream) (f : frame) :
  is_control f = true -> handle_message json_dumps s f = Done s.
Proof.
  destruct f as [data|[message|]]; try reflexivity.
  unfold is_control, handle_message.
  destruct (get message "event" JNull) as [event_type|e]; [|discriminate].
  intros H. apply andb_prop in H. destruct H as [H Hmedia].
  apply andb_prop in H. destruct H as [Hhash Hstart].
  apply negb_true_iff in Hmedia, Hstart. rewrite Hstart, Hmedia, Hhash.
  cbn [negb]. destruct (is_str event_type "stop"); reflexivity.
Qed.

Lemma media_payload_step (s : stream) (f : frame) (p : string) (pcm16 : bytes) :
  media_payload f = Some p ->
  p <> "" ->
  Twilio.mulaw_b64_to_pcm16 p (Some Twilio.TARGET_SAMPLE_RATE_HZ) = Ok pcm16 ->
  handle_message json_dumps s f
  = Done {| twilio := twilio s;
            voice_live_handler := voice_live_handler s;
            send_queue := RelaySend.send_pcm16 json_dumps (send_queue s) pcm16 |}.
Proof.
  intros Hf Hp Hpcm. destruct f as [data|[message|]]; try discriminate Hf.
  unfold media_payload in Hf. unfold handle_message.
  destruct (get message "event" JNull) as [event_type|e]; [|discriminate Hf].
  destruct (is_str event_type "media") eqn:Emedia; [|discriminate Hf].
  apply is_str_true in Emedia. subst event_type.
  change (is_str (JStr "media") "start") with false. cbv iota.
  destruct (media <- get message "media" (JDict []) ;; get media "payload" JNull)
    as [[| | | |payload| |]|e]; try discriminate Hf.
  injection Hf as ->.
  cbn [truthy]. rewrite eqb_nonempty by exact Hp. cbn [negb].
  rewrite Hpcm. reflexivity.
Qed.

Lemma start_identifiers_step (s : stream) (f : frame) (call sid : string) :
  start_identifiers f = Some (call, sid) ->
  handle_message json_dumps s f
  = Done {| twilio :=
              {| call_sid := Some call;
                 stream_sid := Some sid;
                 recording_sid := recording_sid (twilio s);
                 attempt := attempt (twilio s) |};
            voice_live_handler :=
              VoiceLive.update_stream_context (voice_live_handler s)
                {| VoiceLive.arg_call_sid := Some call;
                   VoiceLive.arg_stream_sid := Some sid;
                   VoiceLive.arg_recording_sid := recording_sid (twilio s);
                   VoiceLive.arg_attempt := attempt_argument (attempt (twilio s)) |};
            send_queue := send_queue s |}.
Proof.
  intros Hf. destruct f as [data|[message|]]; try discriminate Hf.
  unfold start_identifiers in Hf. unfold handle_message.
  destruct (get message "event" JNull) as [event_type|e]; [|discriminate Hf].
  destruct (is_str event_type "start"); [|discriminate Hf].
  destruct (start <- get message "start" (JDict []) ;;
            call <- get start "callSid" JNull ;;
            sid <- get start "streamSid" JNull ;; Ok (call, sid))
    as [[[| | | |c| |] [| | | |sd| |]]|e]; try discriminate Hf.
  injection Hf as -> ->. reflexivity.
Qed.

(** The message a forwarded frame leaves in the send queue. *)
Lemma frames_enqueue_in_order (frames : list frame) :
  forall (outs : list (option bytes)) (s : stream),
    Forall2 (fun f out =>
               match out with
               | Some pcm16 =>
                   exists p,
                     media_payload f = Some p /\ p <> ""
                     /\ Twilio.mulaw_b64_to_pcm16 p (Some Twilio.TARGET_SAMPLE_RATE_HZ)
                        = Ok pcm16
               | None => is_control f = true
               end)
            frames outs ->
    handle_all json_dumps s frames
    = Done {| twilio := twilio s;
              voice_live_handler := voice_live_handler s;
              send_queue :=
                (send_queue s
                 ++ flat_map
                      (fun out =>
                         match out with
                         | Some pcm16 =>
                             [json_dumps (RelaySend.audio_append
                                            (Base64Encode.b64encode pcm16))]
                         | None => []
                         end)
                      outs)%list |}.
Proof.
  induction frames as [|f frames IH]; intros outs s H.
  - inversion H; subst. cbn [flat_map handle_all]. rewrite app_nil_r.
    destruct s; reflexivity.
  - inversion H as [|? out ? outs' Hf Hrest]; subst.
    cbn [handle_all flat_map]. destruct out as [pcm16|].
    + destruct Hf as (p & Hpay & Hp & Hpcm).
      rewrite (media_payload_step s f p pcm16 Hpay Hp Hpcm).
      rewrite (IH outs' _ Hrest). cbn [twilio voice_live_handler send_queue].
      unfold RelaySend.send_pcm16, RelaySend._enqueue_audio.
      rewrite <- app_assoc. reflexivity.
    + rewrite (control_frame_step s f Hf). rewrite (IH outs' _ Hrest). reflexivity.
Qed.

Lemma control_frames_change_nothing (frames : list frame) (rest : list frame)
      (s : stream) :
  Forall (fun f => is_control f = true) frames ->
  handle_all json_dumps s (frames ++ rest) = handle_all json_dumps s rest.
Proof.
  induction 1 as [|f frames Hf _ IH]; [reflexivity|].
  cbn [app handle_all]. rewrite (control_frame_step s f Hf). exact IH.
Qed.


(** What a frame can change: the Twilio handler keeps the recording
    identifier and attempt it was built with, and the Voice Live handler is
    touched only through [update_stream_context] with those two values. *)
Lemma handle_message_effect (s : stream) (f : frame) :
  match handle_message json_dumps s f with
  | Done s' =>
      recording_sid (twilio s') = recording_sid (twilio s)
      /\ attempt (twilio s') = attempt (twilio s)
      /\ (voice_live_handler s' = voice_live_handler s
          \/ exists call sid,
              voice_live_handler s'
              = VoiceLive.update_stream_context (voice_live_handler s)
                  {| VoiceLive.arg_call_sid := call;
                     VoiceLive.arg_stream_sid := sid;
                     VoiceLive.arg_recording_sid := recording_sid (twilio s);
                     VoiceLive.arg_attempt := attempt_argument (attempt (twilio s)) |})
  | Failed _ s' => s' = s
  | Untyped => True
  end.
Proof.
  assert (Hsame : recording_sid (twilio s) = recording_sid (twilio s)
                  /\ attempt (twilio s) = attempt (twilio s)
                  /\ (voice_live_handler s = voice_live_handler s
                      \/ exists call sid,
                          voice_live_handler s
                          = VoiceLive.update_stream_context (voice_live_handler s)
                              {| VoiceLive.arg_call_sid := call;
                                 VoiceLive.arg_stream_sid := sid;
                                 VoiceLive.arg_recording_sid := recording_sid (twilio s);
                                 VoiceLive.arg_attempt :=
                                   attempt_argument (attempt (twilio s)) |}))
    by (repeat split; left; reflexivity).
  unfold handle_message. destruct f as [data|[message|]]; try exact Hsame.
  destruct (get message "event" JNull) as [event_type|e]; [|reflexivity].
  destruct (is_str event_type "start").
  { destruct (start <- get message "start" (JDict []) ;;
              call <- get start "callSid" JNull ;;
              sid <- get start "streamSid" JNull ;; Ok (call, sid)) as [[call sid]|e];
      [|reflexivity].
    destruct (identifier call) as [c|]; [|exact I].
    destruct (identifier sid) as [sd|]; [|exact I].
    cbn. repeat split. right. exists c, sd. reflexivity. }
  destruct (is_str event_type "media").
  { destruct (media <- get message "media" (JDict []) ;; get media "payload" JNull)
      as [payload|e]; [|reflexivity].
    destruct (negb (truthy payload)); [exact Hsame|].
    destruct (match payload with
              | JStr p => Twilio.mulaw_b64_to_pcm16 p (Some Twilio.TARGET_SAMPLE_RATE_HZ)
              | _ => Raise TypeError
              end); [|reflexivity].
    cbn. repeat split. left. reflexivity. }
  destruct (is_str event_type "stop"); [exact Hsame|].
  destruct (negb (hashable event_type)); [reflexivity | exact Hsame].
Qed.

(** The recording identifier or the attempt missing on both handlers. *)
Lemma missing_context_is_kept (s : stream) (f : frame) :
  (attempt (twilio s) = None /\ VoiceLive.attempt (voice_live_handler s) = None)
  \/ (VoiceLive.truthy_str (recording_sid (twilio s)) = false
      /\ VoiceLive.truthy_str (VoiceLive.recording_sid (voice_live_handler s)) = false) ->
  forall s', handle_message json_dumps s f = Done s' ->
  (attempt (twilio s') = None /\ VoiceLive.attempt (voice_live_handler s') = None)
  \/ (VoiceLive.truthy_str (recording_sid (twilio s')) = false
      /\ VoiceLive.truthy_str (VoiceLive.recording_sid (voice_live_handler s')) = false).
Proof.
  intros Hinv s' Hstep. pose proof (handle_message_effect s f) as H.
  rewrite Hstep in H. destruct H as (Hrec & Hatt & [Hsame | (call & sid & Hupd)]).
  - rewrite Hrec, Hatt, Hsame. exact Hinv.
  - rewrite Hrec, Hatt, Hupd.
    destruct Hinv as [[Ha Hb] | [Ha Hb]]; [left | right]; split; try assumption.
    + cbn. rewrite Ha. exact Hb.
    + cbn. rewrite Ha. exact Hb.
Qed.

End TwilioStreamFacts.

Section TwilioPersistence.
Import Json TwilioStream.
Local Open Scope string_scope.

Variable json_dumps : json -> string.
Variable float_of_str : string -> option spec_float.

Lemma handle_all_keeps_missing_context (frames : list frame) :
  forall s s' : stream,
    (attempt (twilio s) = None /\ VoiceLive.attempt (voice_live_handler s) = None)
    \/ (VoiceLive.truthy_str (recording_sid (twilio s)) = false
        /\ VoiceLive.truthy_str (VoiceLive.recording_sid (voice_live_handler s)) = false) ->
    (handle_all json_dumps s frames = Done s'
     \/ exists e, handle_all json_dumps s frames = Failed e s') ->
    (attempt (twilio s') = None /\ VoiceLive.attempt (voice_live_handler s') = None)
    \/ (VoiceLive.truthy_str (recording_sid (twilio s')) = false
        /\ VoiceLive.truthy_str (VoiceLive.recording_sid (voice_live_handler s')) = false).
Proof.
  induction frames as [|f frames IH]; intros s s' Hinv Hrun.
  - destruct Hrun as [H | [e H]]; cbn in H; [injection H as <-; exact Hinv | discriminate].
  - cbn [handle_all] in Hrun.
    pose proof (missing_context_is_kept json_dumps s f Hinv) as Hstep.
    pose proof (handle_message_effect json_dumps s f) as Heff.
    destruct (handle_message json_dumps s f) as [s1|e s1|].
    + exact (IH s1 s' (Hstep s1 eq_refl) Hrun).
    + subst s1. destruct Hrun as [H | [e' H]]; [discriminate H|].
      injection H as _ <-. exact Hinv.
    + destruct Hrun as [H | [e' H]]; discriminate H.
Qed.

(** X22: when the attempt is unknown to both handlers, or the recording
    identifier is, no sequence of Twilio frames changes that, whether the
    frames are all handled or one of them raises; so no transcript that
    arrives afterwards starts a persistence task. *)
Theorem stream_without_recording_or_attempt_persists_nothing
        (frames : list frame) (s s' : stream) :
  (attempt (twilio s) = None /\ VoiceLive.attempt (voice_live_handler s) = None)
  \/ (VoiceLive.truthy_str (recording_sid (twilio s)) = false
      /\ VoiceLive.truthy_str (VoiceLive.recording_sid (voice_live_handler s)) = false) ->
  (handle_all json_dumps s frames = Done s'
   \/ exists e, handle_all json_dumps s frames = Failed e s') ->
  forall transcript event name tr conf,
    ~ In (VoiceLive.CreateTask name tr conf)
         (fst (VoiceLive._schedule_transcript_persist float_of_str
                 (voice_live_handler s') transcript event)).
Proof.
  intros Hinv Hrun transcript event name tr conf.
  pose proof (handle_all_keeps_missing_context frames s s' Hinv Hrun) as Hinv'.
  unfold VoiceLive._schedule_transcript_persist.
  destruct (VoiceLive.transcription_store (voice_live_handler s')); [|intros []].
  destruct Hinv' as [[_ Hatt] | [_ Hrec]].
  - rewrite Hatt. destruct (negb _ || negb _); cbn; [intros [] | intros [H|[]]; discriminate H].
  - rewrite Hrec. cbn [negb]. rewrite orb_true_r. intros [].
Qed.

End TwilioPersistence.

Section TwilioStreamExamples.
Import Json TwilioStream RelaySamples StreamSamples.
Local Open Scope string_scope.

Lemma start_frame_sets_identifiers_witness :
  exists s',
    handle_message text_dumps voicemail_stream (start_frame "CA1" "MZ1") = Done s'
    /\ VoiceLive.call_sid (voice_live_handler s') = Some "CA1"
    /\ VoiceLive.recording_sid (voice_live_handler s') = Some "RE1"
    /\ VoiceLive.attempt (voice_live_handler s') = Some 1.
Proof.
  destruct (start_frame_sets_identifiers text_dumps voicemail_stream
              [ ("event", JStr "start");
                ("start", JDict [("callSid", JStr "CA1"); ("streamSid", JStr "MZ1")]) ]
              [("callSid", JStr "CA1"); ("streamSid", JStr "MZ1")] "CA1" "MZ1"
              eq_refl eq_refl eq_refl eq_refl)
    as (s' & H & _ & _ & Hc & _ & Hr & Ha & _); [discriminate | discriminate |].
  exists s'. repeat split; assumption.
Defined.

Lemma start_frame_without_stream_sid_witness :
  exists s',
    handle_message text_dumps voicemail_stream
      (Text (Some (JDict [ ("event", JStr "start");
                           ("start", JDict [("callSid", JStr "CA1")]) ])))
    = Done s'
    /\ send_ai_transcript text_dumps (twilio s') "hello" = None.
Proof.
  destruct (start_frame_without_stream_sid text_dumps voicemail_stream
              [ ("event", JStr "start"); ("start", JDict [("callSid", JStr "CA1")]) ]
              [("callSid", JStr "CA1")] (JStr "CA1") (Some "CA1")
              eq_refl eq_refl eq_refl eq_refl eq_refl)
    as (s' & H & _ & Hnone & _).
  exists s'. split; [exact H | apply Hnone].
Defined.



Lemma stream_without_recording_or_attempt_persists_nothing_witness :
  exists s',
    handle_all text_dumps anonymous_stream [start_frame "CA1" "MZ1"; stop_frame] = Done s'
    /\ ~ In (VoiceLive.CreateTask "voice-live-transcript-persist"
               (JStr "please call me back") None)
            (fst (VoiceLive._schedule_transcript_persist no_float
                    (voice_live_handler s') (JStr "please call me back")
                    transcription_completed)).
Proof.
  eexists. split; [reflexivity|].
  apply (stream_without_recording_or_attempt_persists_nothing text_dumps no_float
           [start_frame "CA1" "MZ1"; stop_frame] anonymous_stream).
  - left. split; reflexivity.
  - left. reflexivity.
Defined.

End TwilioStreamExamples.

(** ** Connection lifecycle *)

Section LifecycleFacts.
Import Json Lifecycle.
Local Open Scope string_scope.

Variable json_dumps : json -> string.
Variable world : World.

Lemma await_quietly_awaits (message name : string) :
  In (Await name) (await_quietly world message name).
Proof.
  unfold await_quietly. destruct (await_task world name); left; reflexivity.
Qed.


Ltac crack :=
  repeat match goal with
         | |- context [get_token ?w ?c] => destruct (get_token w c) as [?|?] eqn:?
         | |- context [ws_connect ?w ?a ?b] => destruct (ws_connect w a b) as [[]|?] eqn:?
         | |- context [ws_send ?w ?m] => destruct (ws_send w m) as [[]|?] eqn:?
         | |- context [if enable_responses ?s then _ else _] =>
             destruct (enable_responses s) eqn:?
         end.

Ltac find_connect H :=
  cbn in H;
  repeat match type of H with
         | _ \/ _ => destruct H as [H|H]
         | False => destruct H
         | _ = _ => first [discriminate H | injection H as <- <-]
         end.

(** X24: the credentials of [start].  With neither client identifier nor
    API key [start] raises [ValueError] before anything is done.  A
    connection is only ever opened to the realtime URL, with the request
    identifier and, when a client identifier is configured, the bearer
    token obtained for it, otherwise with the API key. *)
Theorem start_credentials (self : Relay) :
  ws self = None ->
  (client_id self = "" -> api_key self = "" ->
   start json_dumps world self = ([], Raised ValueError self))
  /\ (forall target hs,
         In (Connect target hs) (fst (start json_dumps world self)) ->
         target = realtime_url self
         /\ (client_id self <> "" ->
             exists token,
               get_token world (client_id self) = Ok token
               /\ hs = [ ("x-ms-client-request-id", uuid4 world);
                         ("Authorization", "Bearer " ++ token) ])
         /\ (client_id self = "" ->
             hs = [ ("x-ms-client-request-id", uuid4 world);
                    ("api-key", api_key self) ])).
Proof.
  intros Hws. unfold start. rewrite Hws. split.
  - intros -> ->. reflexivity.
  - intros target hs. cbv zeta.
    destruct (String.eqb_spec (client_id self) "") as [Hc|Hc]; cbn [negb];
      [destruct (String.eqb_spec (api_key self) "") as [Hk|Hk]; cbn [negb];
       [intros []|]|];
      crack; intros H; find_connect H; repeat split;
      first [ reflexivity
            | intros Hne; contradiction
            | intros _; reflexivity
            | intros _; eexists; split; reflexivity ].
Qed.

(** X25: when [start] returns, the relay is connected and a second
    [start] does nothing; the send queue is untouched.  Starting from a
    relay without connection, [start] obtains a token when a client
    identifier is configured, connects, sends the session configuration,
    requests a response when responses are enabled, and creates the
    sender and the receiver task, in this order and nothing else. *)
Theorem start_is_idempotent (self self' : Relay) (t : list action) :
  start json_dumps world self = (t, Returned self') ->
  start json_dumps world self' = ([], Returned self')
  /\ ws self' <> None
  /\ send_queue self' = send_queue self
  /\ (ws self = None ->
      _sender_task self' = Some "voice-live-sender"
      /\ _receiver_task self' = Some "voice-live-receiver"
      /\ exists hs,
          t = ((if String.eqb (client_id self) "" then []
                else [GetToken (client_id self)])
               ++ [Connect (realtime_url self) hs; Send (json_dumps session_config)]
               ++ (if enable_responses self
                   then [Send (json_dumps (JDict [("type", JStr "response.create")]))]
                   else [])
               ++ [CreateTask "voice-live-sender"; CreateTask "voice-live-receiver"])%list).
Proof.
  unfold start at 1.
  destruct (ws self) as [c|] eqn:Hws.
  { intros H; injection H as <- <-. unfold start. rewrite Hws.
    repeat split; try congruence. }
  destruct (String.eqb (client_id self) ""); cbn [negb enable_responses with_ws].
  - destruct (negb (String.eqb (api_key self) "")); [|discriminate].
    destruct (ws_connect world _ _) as [[]|e]; [|discriminate].
    destruct (ws_send world (json_dumps session_config)) as [[]|e]; [|discriminate].
    destruct (enable_responses self);
      [destruct (ws_send world _) as [[]|e]; [|discriminate]|];
      intros H; injection H as <- <-; unfold start; cbn [ws with_loops with_ws];
      repeat split; try discriminate; eexists; reflexivity.
  - destruct (get_token world (client_id self)) as [token|e]; [|discriminate].
    destruct (ws_connect world _ _) as [[]|e]; [|discriminate].
    destruct (ws_send world (json_dumps session_config)) as [[]|e]; [|discriminate].
    destruct (enable_responses self);
      [destruct (ws_send world _) as [[]|e]; [|discriminate]|];
      intros H; injection H as <- <-; unfold start; cbn [ws with_loops with_ws];
      repeat split; try discriminate; eexists; reflexivity.
Qed.

(** X26: when [start] raises after the connection was opened, the relay
    keeps that connection without sender and receiver task: no task was
    created, and a later [start] returns at once without creating
    them. *)
Theorem start_failure_keeps_connection (self self' : Relay) (t : list action) (e : exn)
        (target : string) (hs : list (string * string)) :
  ws self = None ->
  start json_dumps world self = (t, Raised e self') ->
  In (Connect target hs) t ->
  ws_connect world target hs = Ok tt ->
  ws self' = Some {| url := target; headers := hs |}
  /\ _sender_task self' = _sender_task self
  /\ _receiver_task self' = _receiver_task self
  /\ (forall name, ~ In (CreateTask name) t)
  /\ start json_dumps world self' = ([], Returned self').
Proof.
  intros Hws. unfold start at 1. rewrite Hws.
  destruct (String.eqb (client_id self) ""); cbn [negb enable_responses with_ws].
  - destruct (negb (String.eqb (api_key self) "")).
    2:{ intros H; injection H as <- _ _. intros []. }
    destruct (ws_connect world _ _) as [[]|e0] eqn:Hconn.
    2:{ intros H; injection H as <- <- <-. intros Hin; find_connect Hin.
        intros Hok. cbn in Hok, Hconn. congruence. }
    destruct (ws_send world (json_dumps session_config)) as [[]|e1].
    2:{ intros H; injection H as <- <- <-. intros Hin _; find_connect Hin.
        unfold start. cbn [ws with_ws _sender_task _receiver_task].
        repeat split. intros name Hn; find_connect Hn. }
    destruct (enable_responses self);
      [destruct (ws_send world _) as [[]|e2]; [discriminate|]|discriminate].
    intros H; injection H as <- <- <-. intros Hin _; find_connect Hin.
    unfold start. cbn [ws with_ws _sender_task _receiver_task].
    repeat split. intros name Hn; find_connect Hn.
  - destruct (get_token world (client_id self)) as [token|e0].
    2:{ intros H; injection H as <- _ _. intros Hin; find_connect Hin. }
    destruct (ws_connect world _ _) as [[]|e0] eqn:Hconn.
    2:{ intros H; injection H as <- <- <-. intros Hin; find_connect Hin.
        intros Hok. cbn in Hok, Hconn. congruence. }
    destruct (ws_send world (json_dumps session_config)) as [[]|e1].
    2:{ intros H; injection H as <- <- <-. intros Hin _; find_connect Hin.
        unfold start. cbn [ws with_ws _sender_task _receiver_task].
        repeat split. intros name Hn; find_connect Hn. }
    destruct (enable_responses self);
      [destruct (ws_send world _) as [[]|e2]; [discriminate|]|discriminate].
    intros H; injection H as <- <- <-. intros Hin _; find_connect Hin.
    unfold start. cbn [ws with_ws _sender_task _receiver_task].
    repeat split. intros name Hn; find_connect Hn.
Qed.

(** X27: [_sender_loop] on a connected relay writes the queued messages
    in queue order.  Either every write succeeds and the queue is
    emptied, or the loop ends at the first write that raises: that
    message is lost, the error is logged, and the messages behind it stay
    in the queue. *)
Lemma sender_loop_fifo (queue : list string) :
  exists sent,
    Forall (fun m => ws_send world m = Ok tt) sent
    /\ ((_sender_loop world true queue = (map Send sent, []) /\ queue = sent)
        \/ exists m e remaining,
            _sender_loop world true queue
            = ((map Send sent
                ++ [Send m; LogException "[VoiceLive] Sender loop error"])%list,
               remaining)
            /\ queue = (sent ++ m :: remaining)%list
            /\ ws_send world m = Raise e).
Proof.
  induction queue as [|msg rest (sent & Hok & IH)].
  - exists []. split; [constructor|]. left. split; reflexivity.
  - cbn [_sender_loop]. destruct (ws_send world msg) as [[]|e] eqn:Hsend.
    + exists (msg :: sent). split; [constructor; assumption|].
      destruct IH as [[-> ->] | (m & e & remaining & -> & -> & Hm)].
      * left. split; reflexivity.
      * right. exists m, e, remaining. repeat split. exact Hm.
    + exists []. split; [constructor|]. right. exists msg, e, rest.
      repeat split. exact Hsend.
Qed.

End LifecycleFacts.

Section LifecycleExamples.
Import Json Lifecycle StreamSamples.
Local Open Scope string_scope.


Lemma start_credentials_witness :
  start text_dumps friendly_world (key_relay "")
  = ([], Raised ValueError (key_relay "")).
Proof.
  apply (proj1 (start_credentials text_dumps friendly_world (key_relay "") eq_refl));
    reflexivity.
Defined.

Lemma start_is_idempotent_witness :
  exists t self',
    start text_dumps friendly_world (key_relay "secret") = (t, Returned self')
    /\ start text_dumps friendly_world self' = ([], Returned self')
    /\ List.length t = 5%nat.
Proof.
  eexists _, _. split; [reflexivity|].
  destruct (start_is_idempotent text_dumps friendly_world (key_relay "secret") _ _ eq_refl)
    as (H & _). split; [exact H | reflexivity].
Defined.

Lemma start_failure_keeps_connection_witness :
  exists t e self',
    start text_dumps deaf_world (key_relay "secret") = (t, Raised e self')
    /\ ws self' <> None
    /\ _sender_task self' = None
    /\ start text_dumps deaf_world self' = ([], Returned self').
Proof.
  eexists _, _, _. split; [reflexivity|].
  edestruct (start_failure_keeps_connection text_dumps deaf_world (key_relay "secret"))
    as (Hws & Hs & _ & _ & Hagain).
  - reflexivity.
  - reflexivity.
  - left. reflexivity.
  - reflexivity.
  - split; [rewrite Hws; discriminate|]. split; [exact Hs | exact Hagain].
Defined.

End LifecycleExamples.

(** ** Base64: encoding and decoding *)

Section Base64RoundTrip.
Import Base64 Base64Encode.

Lemma Z_of_byte_range (b : byte) : 0 <= Z_of_byte b < 256.
Proof. destruct b; vm_compute; split; congruence. Qed.

Lemma byte_of_Z_of_byte (b : byte) : byte_of_Z (Z_of_byte b) = b.
Proof. destruct b; reflexivity. Qed.

(** [(a << k) | c] adds when [c] fits in [k] bits. *)
Lemma lor_shiftl_add (a c k : Z) :
  0 <= k -> 0 <= c < 2 ^ k -> Z.lor (Z.shiftl a k) c = a * 2 ^ k + c.
Proof.
  intros Hk Hc.
  assert (Hland : Z.land (Z.shiftl a k) c = 0).
  { apply Z.bits_inj'. intros n Hn.
    rewrite Z.land_spec, Z.bits_0.
    destruct (Z.ltb_spec n k).
    - rewrite Z.shiftl_spec_low by assumption. reflexivity.
    - rewrite <- (Z.mod_small c (2 ^ k)) by assumption.
      rewrite Z.mod_pow2_bits_high by lia. apply andb_false_r. }
  pose proof (Z.add_lor_land (Z.shiftl a k) c) as H.
  rewrite Hland in H. rewrite Z.shiftl_mul_pow2 in * by assumption. lia.
Qed.

(** The encoder's accumulator after one more byte. *)
Lemma leftchar_step (leftchar : Z) (b : byte) :
  Z.land (Z.lor (Z.shiftl leftchar 8) (Z_of_byte b)) UINT_MAX
  = (leftchar * 256 + Z_of_byte b) mod 4294967296.
Proof.
  rewrite lor_shiftl_add by (try lia; apply Z_of_byte_range).
  change UINT_MAX with (Z.ones 32). rewrite Z.land_ones by lia. reflexivity.
Qed.

(** The 6-bit group [k] bits up in the accumulator. *)
Lemma group_at (leftchar k : Z) :
  0 <= k ->
  Z.land (Z.shiftr leftchar k) 63 = (leftchar / 2 ^ k) mod 64.
Proof.
  intros Hk. rewrite Z.shiftr_div_pow2 by assumption.
  change 63 with (Z.ones 6). rewrite Z.land_ones by lia. reflexivity.
Qed.

Lemma table_round_trip (v : Z) :
  0 <= v < 64 ->
  table_a2b_base64 (table_b2a_base64 v) = Some v
  /\ table_b2a_base64 v <> BASE64_PAD
  /\ 0 <= table_b2a_base64 v < 128.
Proof.
  intros Hv. unfold table_a2b_base64, table_b2a_base64, BASE64_PAD.
  destruct (Z.ltb_spec v 26).
  { replace ((65 <=? v + 65) && (v + 65 <=? 90)) with true
      by (symmetry; apply andb_true_intro; split; apply Z.leb_le; lia).
    repeat split; try lia. f_equal. lia. }
  destruct (Z.ltb_spec v 52).
  { replace ((65 <=? v - 26 + 97) && (v - 26 + 97 <=? 90)) with false
      by (symmetry; apply andb_false_intro2; apply Z.leb_gt; lia).
    replace ((97 <=? v - 26 + 97) && (v - 26 + 97 <=? 122)) with true
      by (symmetry; apply andb_true_intro; split; apply Z.leb_le; lia).
    repeat split; try lia. f_equal. lia. }
  destruct (Z.ltb_spec v 62).
  { replace ((65 <=? v - 52 + 48) && (v - 52 + 48 <=? 90)) with false
      by (symmetry; apply andb_false_intro1; apply Z.leb_gt; lia).
    replace ((97 <=? v - 52 + 48) && (v - 52 + 48 <=? 122)) with false
      by (symmetry; apply andb_false_intro1; apply Z.leb_gt; lia).
    replace ((48 <=? v - 52 + 48) && (v - 52 + 48 <=? 57)) with true
      by (symmetry; apply andb_true_intro; split; apply Z.leb_le; lia).
    repeat split; try lia. f_equal. lia. }
  destruct (Z.eqb_spec v 62) as [->|H62].
  { repeat split; try lia; discriminate. }
  assert (v = 63) as -> by lia.
  repeat split; try lia; discriminate.
Qed.

(** One alphabet character through the decoder. *)
Lemma decode_character (v : Z) (rest : list Z) (quad_pos leftchar pads : Z) (out : bytes) :
  0 <= v < 64 ->
  a2b_loop (table_b2a_base64 v :: rest) quad_pos leftchar pads out
  = if quad_pos =? 0 then a2b_loop rest 1 v 0 out
    else if quad_pos =? 1 then
      a2b_loop rest 2 (Z.land v 15) 0
        (out ++ [byte_of_Z (Z.lor (Z.shiftl leftchar 2) (Z.shiftr v 4))])
    else if quad_pos =? 2 then
      a2b_loop rest 3 (Z.land v 3) 0
        (out ++ [byte_of_Z (Z.lor (Z.shiftl leftchar 4) (Z.shiftr v 2))])
    else
      a2b_loop rest 0 0 0 (out ++ [byte_of_Z (Z.lor (Z.shiftl leftchar 6) v)]).
Proof.
  intros Hv. destruct (table_round_trip v Hv) as (Hback & Hpad & _).
  cbn [a2b_loop]. apply Z.eqb_neq in Hpad. rewrite Hpad, Hback. reflexivity.
Qed.

(** Three bytes through the encoder: four characters, no bits left over. *)
Lemma encode_three (b1 b2 b3 : byte) (rest : bytes) (leftchar : Z) (out : list Z) :
  exists leftchar',
    b2a_loop (b1 :: b2 :: b3 :: rest) leftchar 0 out
    = b2a_loop rest leftchar' 0
        (out ++ map table_b2a_base64
                    (sextets (Z_of_byte b1) (Z_of_byte b2) (Z_of_byte b3))).
Proof.
  pose proof (Z_of_byte_range b1). pose proof (Z_of_byte_range b2).
  pose proof (Z_of_byte_range b3).
  eexists.
  change (b2a_loop (b1 :: b2 :: b3 :: rest) leftchar 0 out)
    with (let l1 := Z.land (Z.lor (Z.shiftl leftchar 8) (Z_of_byte b1)) UINT_MAX in
          let l2 := Z.land (Z.lor (Z.shiftl l1 8) (Z_of_byte b2)) UINT_MAX in
          let l3 := Z.land (Z.lor (Z.shiftl l2 8) (Z_of_byte b3)) UINT_MAX in
          b2a_loop rest l3 0
            ((((out ++ [table_b2a_base64 (Z.land (Z.shiftr l1 2) 63)])
               ++ [table_b2a_base64 (Z.land (Z.shiftr l2 4) 63)])
              ++ [table_b2a_base64 (Z.land (Z.shiftr l3 6) 63)])
             ++ [table_b2a_base64 (Z.land (Z.shiftr l3 0) 63)])).
  cbv zeta. rewrite !leftchar_step, !group_at by lia.
  change (2 ^ 2) with 4; change (2 ^ 4) with 16; change (2 ^ 6) with 64;
    change (2 ^ 0) with 1.
  set (l1 := (leftchar * 256 + Z_of_byte b1) mod 4294967296).
  set (l2 := (l1 * 256 + Z_of_byte b2) mod 4294967296).
  set (l3 := (l2 * 256 + Z_of_byte b3) mod 4294967296).
  replace ((l1 / 4) mod 64) with (Z_of_byte b1 / 4)
    by (subst l1; Z.to_euclidean_division_equations; lia).
  replace ((l2 / 16) mod 64) with ((Z_of_byte b1 mod 4) * 16 + Z_of_byte b2 / 16)
    by (subst l2 l1; Z.to_euclidean_division_equations; lia).
  replace ((l3 / 64) mod 64) with ((Z_of_byte b2 mod 16) * 4 + Z_of_byte b3 / 64)
    by (subst l3 l2; Z.to_euclidean_division_equations; lia).
  replace ((l3 / 1) mod 64) with (Z_of_byte b3 mod 64)
    by (subst l3; Z.to_euclidean_division_equations; lia).
  rewrite <- !app_assoc. reflexivity.
Qed.

(** Four characters of three bytes through the decoder. *)
Lemma decode_three (b1 b2 b3 : byte) (rest : list Z) (leftchar : Z) (out : bytes) :
  a2b_loop (map table_b2a_base64
                (sextets (Z_of_byte b1) (Z_of_byte b2) (Z_of_byte b3)) ++ rest)
           0 leftchar 0 out
  = a2b_loop rest 0 0 0 (out ++ [b1; b2; b3]).
Proof.
  pose proof (Z_of_byte_range b1). pose proof (Z_of_byte_range b2).
  pose proof (Z_of_byte_range b3).
  cbn [sextets map app].
  rewrite !decode_character by (Z.to_euclidean_division_equations; lia).
  cbn [Z.eqb Pos.eqb].
  rewrite <- !app_assoc. cbn [app].
  change 15 with (Z.ones 4). change 3 with (Z.ones 2).
  rewrite !Z.land_ones, !Z.shiftr_div_pow2 by lia.
  rewrite !lor_shiftl_add
    by (try lia; change (2 ^ 2) with 4; change (2 ^ 4) with 16; change (2 ^ 6) with 64;
        Z.to_euclidean_division_equations; lia).
  change (2 ^ 2) with 4; change (2 ^ 4) with 16; change (2 ^ 6) with 64.
  replace (Z_of_byte b1 / 4 * 4 + ((Z_of_byte b1 mod 4) * 16 + Z_of_byte b2 / 16) / 16)
    with (Z_of_byte b1) by (Z.to_euclidean_division_equations; lia).
  replace ((((Z_of_byte b1 mod 4) * 16 + Z_of_byte b2 / 16) mod 16) * 16
           + ((Z_of_byte b2 mod 16) * 4 + Z_of_byte b3 / 64) / 4)
    with (Z_of_byte b2) by (Z.to_euclidean_division_equations; lia).
  replace ((((Z_of_byte b2 mod 16) * 4 + Z_of_byte b3 / 64) mod 4) * 64
           + Z_of_byte b3 mod 64)
    with (Z_of_byte b3) by (Z.to_euclidean_division_equations; lia).
  rewrite !byte_of_Z_of_byte. reflexivity.
Qed.

Lemma bytes_by_three (P : bytes -> Prop) :
  P [] -> (forall a, P [a]) -> (forall a b, P [a; b]) ->
  (forall a b c rest, P rest -> P (a :: b :: c :: rest)) ->
  forall data, P data.
Proof.
  intros H0 H1 H2 H3 data.
  assert (H : P data /\ (forall a, P (a :: data)) /\ (forall a b, P (a :: b :: data))).
  { induction data as [|c data (IH0 & IH1 & IH2)].
    - repeat split; auto.
    - repeat split; auto. }
  apply H.
Qed.

(** Encoding from a clean state and decoding what was written. *)
Lemma encode_then_decode (data : bytes) :
  forall (leftchar : Z) (written : list Z) (dec_leftchar : Z) (decoded : bytes),
  exists chars,
    b2a_pad (b2a_loop data leftchar 0 written) = (written ++ chars)%list
    /\ Forall (fun c => 0 <= c < 128) chars
    /\ List.length chars = (4 * ((List.length data + 2) / 3))%nat
    /\ a2b_loop chars 0 dec_leftchar 0 decoded = Ok (decoded ++ data)%list.
Proof.
  induction data as [|a|a b|a b c rest IH] using bytes_by_three;
    intros leftchar written dec_leftchar decoded.
  - exists []. cbn. rewrite !app_nil_r. repeat split. constructor.
  - pose proof (Z_of_byte_range a) as Ha.
    exists [table_b2a_base64 (Z_of_byte a / 4);
            table_b2a_base64 ((Z_of_byte a mod 4) * 16);
            BASE64_PAD; BASE64_PAD].
    assert (H1 : 0 <= Z_of_byte a / 4 < 64) by (Z.to_euclidean_division_equations; lia).
    assert (H2 : 0 <= (Z_of_byte a mod 4) * 16 < 64)
      by (Z.to_euclidean_division_equations; lia).
    split; [|split; [|split]].
    + change (b2a_loop [a] leftchar 0 written)
        with (let l1 := Z.land (Z.lor (Z.shiftl leftchar 8) (Z_of_byte a)) UINT_MAX in
              (l1, 2, (written ++ [table_b2a_base64 (Z.land (Z.shiftr l1 2) 63)])%list)).
      cbv zeta. cbn [b2a_pad Z.eqb Pos.eqb]. rewrite leftchar_step, group_at by lia.
      change 3 with (Z.ones 2). rewrite Z.land_ones, Z.shiftl_mul_pow2 by lia.
      change (2 ^ 2) with 4; change (2 ^ 4) with 16.
      set (l1 := (leftchar * 256 + Z_of_byte a) mod 4294967296).
      replace ((l1 / 4) mod 64) with (Z_of_byte a / 4)
        by (subst l1; Z.to_euclidean_division_equations; lia).
      replace (l1 mod 4) with (Z_of_byte a mod 4)
        by (subst l1; Z.to_euclidean_division_equations; lia).
      rewrite <- app_assoc. reflexivity.
    + repeat constructor; try apply table_round_trip; assumption || (unfold BASE64_PAD; lia).
    + reflexivity.
    + rewrite !decode_character by assumption. cbn [Z.eqb Pos.eqb].
      cbn [a2b_loop]. cbn [Z.eqb Pos.eqb BASE64_PAD Z.leb Z.add Z.compare Pos.compare
                           Pos.compare_cont Pos.add Pos.succ].
      rewrite Z.shiftr_div_pow2 by lia.
      rewrite lor_shiftl_add
        by (try lia; change (2 ^ 2) with 4; change (2 ^ 4) with 16;
            Z.to_euclidean_division_equations; lia).
      change (2 ^ 2) with 4; change (2 ^ 4) with 16.
      replace (Z_of_byte a / 4 * 4 + (Z_of_byte a mod 4) * 16 / 16) with (Z_of_byte a)
        by (Z.to_euclidean_division_equations; lia).
      rewrite byte_of_Z_of_byte. reflexivity.
  - pose proof (Z_of_byte_range a) as Ha. pose proof (Z_of_byte_range b) as Hb.
    exists [table_b2a_base64 (Z_of_byte a / 4);
            table_b2a_base64 ((Z_of_byte a mod 4) * 16 + Z_of_byte b / 16);
            table_b2a_base64 ((Z_of_byte b mod 16) * 4);
            BASE64_PAD].
    assert (H1 : 0 <= Z_of_byte a / 4 < 64) by (Z.to_euclidean_division_equations; lia).
    assert (H2 : 0 <= (Z_of_byte a mod 4) * 16 + Z_of_byte b / 16 < 64)
      by (Z.to_euclidean_division_equations; lia).
    assert (H3 : 0 <= (Z_of_byte b mod 16) * 4 < 64)
      by (Z.to_euclidean_division_equations; lia).
    split; [|split; [|split]].
    + change (b2a_loop [a; b] leftchar 0 written)
        with (let l1 := Z.land (Z.lor (Z.shiftl leftchar 8) (Z_of_byte a)) UINT_MAX in
              let l2 := Z.land (Z.lor (Z.shiftl l1 8) (Z_of_byte b)) UINT_MAX in
              (l2, 4,
               ((written ++ [table_b2a_base64 (Z.land (Z.shiftr l1 2) 63)])
                ++ [table_b2a_base64 (Z.land (Z.shiftr l2 4) 63)])%list)).
      cbv zeta. cbn [b2a_pad Z.eqb Pos.eqb]. rewrite !leftchar_step, !group_at by lia.
      change 15 with (Z.ones 4). rewrite Z.land_ones, Z.shiftl_mul_pow2 by lia.
      change (2 ^ 2) with 4; change (2 ^ 4) with 16.
      set (l1 := (leftchar * 256 + Z_of_byte a) mod 4294967296).
      set (l2 := (l1 * 256 + Z_of_byte b) mod 4294967296).
      replace ((l1 / 4) mod 64) with (Z_of_byte a / 4)
        by (subst l1; Z.to_euclidean_division_equations; lia).
      replace ((l2 / 16) mod 64) with ((Z_of_byte a mod 4) * 16 + Z_of_byte b / 16)
        by (subst l2 l1; Z.to_euclidean_division_equations; lia).
      replace (l2 mod 16) with (Z_of_byte b mod 16)
        by (subst l2; Z.to_euclidean_division_equations; lia).
      rewrite <- !app_assoc. reflexivity.
    + repeat constructor; try apply table_round_trip; assumption || (unfold BASE64_PAD; lia).
    + reflexivity.
    + rewrite !decode_character by assumption. cbn [Z.eqb Pos.eqb].
      cbn [a2b_loop]. cbn [Z.eqb Pos.eqb BASE64_PAD Z.leb Z.add Z.compare Pos.compare
                           Pos.compare_cont Pos.add Pos.succ].
      change 15 with (Z.ones 4).
      rewrite !Z.land_ones, !Z.shiftr_div_pow2 by lia.
      rewrite !lor_shiftl_add
        by (try lia; change (2 ^ 2) with 4; change (2 ^ 4) with 16;
            Z.to_euclidean_division_equations; lia).
      change (2 ^ 2) with 4; change (2 ^ 4) with 16.
      replace (Z_of_byte a / 4 * 4 + ((Z_of_byte a mod 4) * 16 + Z_of_byte b / 16) / 16)
        with (Z_of_byte a) by (Z.to_euclidean_division_equations; lia).
      replace ((((Z_of_byte a mod 4) * 16 + Z_of_byte b / 16) mod 16) * 16
               + (Z_of_byte b mod 16) * 4 / 4)
        with (Z_of_byte b) by (Z.to_euclidean_division_equations; lia).
      rewrite !byte_of_Z_of_byte, <- app_assoc. reflexivity.
  - destruct (encode_three a b c rest leftchar written) as (leftchar' & Henc).
    destruct (IH leftchar'
                 (written ++ map table_b2a_base64
                                 (sextets (Z_of_byte a) (Z_of_byte b) (Z_of_byte c)))%list
                 0 (decoded ++ [a; b; c])%list)
      as (chars & Hchars & Hascii & Hlen & Hdec).
    exists (map table_b2a_base64 (sextets (Z_of_byte a) (Z_of_byte b) (Z_of_byte c))
            ++ chars)%list.
    pose proof (Z_of_byte_range a). pose proof (Z_of_byte_range b).
    pose proof (Z_of_byte_range c).
    split; [|split; [|split]].
    + rewrite Henc, Hchars, app_assoc. reflexivity.
    + apply Forall_app. split; [|exact Hascii].
      cbn [sextets map].
      repeat constructor; apply table_round_trip; Z.to_euclidean_division_equations; lia.
    + rewrite length_app, Hlen. cbn [sextets map List.length].
      replace (S (S (S (List.length rest))) + 2)%nat with (1 * 3 + (List.length rest + 2))%nat
        by lia.
      rewrite Nat.div_add_l by lia. lia.
    + rewrite decode_three, Hdec, <- app_assoc. reflexivity.
Qed.

Lemma codes_str_of_codes (chars : list Z) :
  Forall (fun c => 0 <= c < 128) chars -> codes (str_of_codes chars) = chars.
Proof.
  intros H. unfold codes, str_of_codes.
  rewrite list_ascii_of_string_of_list_ascii, map_map.
  induction H as [|c chars Hc _ IH]; [reflexivity|].
  cbn [map]. rewrite IH, nat_ascii_embedding by lia. f_equal. lia.
Qed.

(** X28: what [base64.b64encode] writes, [base64.b64decode] reads back:
    decoding the text [send_pcm16] puts into a message gives the audio
    bytes again, whatever they are; the text is ASCII and has four
    characters for every three bytes or part of three. *)
Theorem b64decode_b64encode (s : bytes) :
  b64decode (b64encode s) = Ok s
  /\ String.length (b64encode s) = (4 * ((List.length s + 2) / 3))%nat.
Proof.
  destruct (encode_then_decode s 0 [] 0 []) as (chars & Hchars & Hascii & Hlen & Hdec).
  cbn [app] in Hchars, Hdec.
  unfold b64encode, b64decode, b2a_base64. rewrite Hchars.
  split.
  - cbv zeta. rewrite codes_str_of_codes by exact Hascii.
    replace (forallb (fun c => c <? 128) chars) with true.
    + exact Hdec.
    + symmetry. apply forallb_forall. intros c Hc.
      rewrite Forall_forall in Hascii. apply Z.ltb_lt. apply (Hascii c Hc).
  - rewrite <- Hlen. unfold str_of_codes.
    rewrite <- (length_map (fun c => ascii_of_nat (Z.to_nat c)) chars).
    generalize (map (fun c => ascii_of_nat (Z.to_nat c)) chars).
    intros l. induction l as [|x l IH]; [reflexivity|]. cbn. now rewrite IH.
Qed.

End Base64RoundTrip.

(** ** Resampling: where the decoded samples go *)

Section ResamplingSamples.
Import Audioop Twilio.

Lemma int16_elements_app (m : nat) :
  forall a b : bytes,
    List.length a = (2 * m)%nat ->
    Float32.int16_elements (a ++ b)
    = (Float32.int16_elements a ++ Float32.int16_elements b)%list.
Proof.
  induction m as [|m IH]; intros a b Ha.
  - destruct a; [reflexivity | discriminate].
  - destruct a as [|lo [|hi a]]; try (cbn in Ha; lia).
    cbn [app Float32.int16_elements]. rewrite IH by (cbn in Ha; lia). reflexivity.
Qed.

(** The 32-bit sample read from a decoded mu-law byte. *)
Lemma GETSAMPLE32_ulaw (b : byte) (tail : bytes) :
  GETSAMPLE32 2 (SETSAMPLE32 2 (st_ulaw2linear16 (Z_of_byte b) * 65536) ++ tail)
  = st_ulaw2linear16 (Z_of_byte b) * 65536.
Proof.
  unfold GETSAMPLE32. change (Z.to_nat 2) with 2%nat.
  replace (le_signed 2 (SETSAMPLE32 2 (st_ulaw2linear16 (Z_of_byte b) * 65536) ++ tail))
    with (st_ulaw2linear16 (Z_of_byte b)).
  - rewrite Z.shiftl_mul_pow2 by lia. reflexivity.
  - rewrite <- (proj1 (proj2 (ulaw_byte b))) at 1.
    unfold le_signed, SETSAMPLE32. change (Z.to_nat 2) with 2%nat.
    cbn [le_bytes app firstn]. reflexivity.
Qed.

(** With [inrate = 1] the output loop entered at [d >= 0] ends with the
    current input sample itself. *)
Lemma ratecv_emit_ends_on_input (fuel : nat) :
  forall (outrate prev_i cur_i d : Z) (out : bytes),
    outrate <> 0 ->
    d + 1 = Z.of_nat (S fuel) ->
    exists mid,
      ratecv_emit (S fuel) 2 1 outrate prev_i cur_i d out
      = (-1, (out ++ mid ++ SETSAMPLE32 2 cur_i)%list)
      /\ List.length mid = (2 * fuel)%nat.
Proof.
  induction fuel as [|fuel IH]; intros outrate prev_i cur_i d out Hk Hd.
  - assert (d = 0) as -> by lia. exists []. split; [|reflexivity].
    cbn [ratecv_emit]. change (0 <=? 0) with true. cbv iota.
    rewrite Z.mul_0_r, Z.add_0_l, Z.sub_0_r, Z.quot_mul by exact Hk. reflexivity.
  - cbn [ratecv_emit]. destruct (Z.leb_spec 0 d); [|lia].
    destruct (IH outrate prev_i cur_i (d - 1)
                 (out ++ SETSAMPLE32 2
                    (Z.quot (prev_i * d + cur_i * (outrate - d)) outrate))%list Hk)
      as (mid & E & Hlen); [lia|].
    exists (SETSAMPLE32 2 (Z.quot (prev_i * d + cur_i * (outrate - d)) outrate) ++ mid)%list.
    split.
    + cbn [ratecv_emit] in E. rewrite E, <- !app_assoc. reflexivity.
    + rewrite length_app, SETSAMPLE32_length, Hlen. lia.
Qed.

(** The input loop over decoded mu-law bytes, at a whole factor [k]: each
    byte's sample closes a block of [k] output samples. *)
Lemma ratecv_feed_ulaw (k : nat) (fragment : bytes) :
  (1 <= k)%nat ->
  forall (prev_i cur_i : Z) (out : bytes),
  exists added,
    fst (ratecv_feed (List.length fragment)
           (flat_map (fun b => SETSAMPLE32 2 (st_ulaw2linear16 (Z_of_byte b) * 65536))
                     fragment)
           2 1 (Z.of_nat k) prev_i cur_i (-1) out)
    = (out ++ added)%list
    /\ forall j b,
        nth_error fragment j = Some b ->
        nth_error (Float32.int16_elements added) (k * j + (k - 1))
        = Some (st_ulaw2linear16 (Z_of_byte b)).
Proof.
  intros Hk. induction fragment as [|b0 rest IH]; intros prev_i cur_i out.
  - exists []. split; [cbn; now rewrite app_nil_r|].
    intros j b H. destruct j; discriminate H.
  - cbn [List.length flat_map ratecv_feed].
    rewrite GETSAMPLE32_ulaw.
    replace (Z.quot (1 * (st_ulaw2linear16 (Z_of_byte b0) * 65536) + 0 * cur_i) (1 + 0))
      with (st_ulaw2linear16 (Z_of_byte b0) * 65536)
      by (rewrite Z.mul_1_l, Z.mul_0_l, Z.add_0_r; change (1 + 0) with 1;
          now rewrite Z.quot_1_r).
    replace (Z.to_nat (-1 + Z.of_nat k + 1)) with (S (k - 1)) by lia.
    destruct (ratecv_emit_ends_on_input (k - 1) (Z.of_nat k) cur_i
                (st_ulaw2linear16 (Z_of_byte b0) * 65536) (-1 + Z.of_nat k) out)
      as (mid & E & Hmid); [lia | lia |].
    rewrite E.
    replace (skipn (Z.to_nat 2)
               (SETSAMPLE32 2 (st_ulaw2linear16 (Z_of_byte b0) * 65536)
                ++ flat_map (fun b => SETSAMPLE32 2 (st_ulaw2linear16 (Z_of_byte b) * 65536))
                            rest))
      with (flat_map (fun b => SETSAMPLE32 2 (st_ulaw2linear16 (Z_of_byte b) * 65536)) rest)
      by reflexivity.
    destruct (IH cur_i (st_ulaw2linear16 (Z_of_byte b0) * 65536)
                 (out ++ mid ++ SETSAMPLE32 2 (st_ulaw2linear16 (Z_of_byte b0) * 65536))%list)
      as (added & Hfeed & Hnth).
    exists (mid ++ SETSAMPLE32 2 (st_ulaw2linear16 (Z_of_byte b0) * 65536) ++ added)%list.
    split; [rewrite Hfeed, <- !app_assoc; reflexivity|].
    intros j b Hj.
    rewrite (int16_elements_app (k - 1)) by exact Hmid.
    rewrite int16_elements_sample, (proj1 (proj2 (ulaw_byte b0))).
    pose proof (int16_elements_length (k - 1) mid Hmid) as Hcount.
    rewrite nth_error_app2 by lia. rewrite Hcount.
    destruct j as [|j].
    + injection Hj as <-.
      replace (k * 0 + (k - 1) - (k - 1))%nat with 0%nat by lia. reflexivity.
    + replace (k * S j + (k - 1) - (k - 1))%nat with (S (k * j + (k - 1))) by nia.
      cbn [nth_error]. apply Hnth. exact Hj.
Qed.

End ResamplingSamples.

Section ResamplingContent.
Import Audioop Twilio.
Local Open Scope string_scope.

(** X29: up-sampling by a whole factor keeps every decoded sample.  When
    the target rate is [k] times the 8000 Hz source rate, the sample
    decoded from the mu-law byte at position [j] is the output sample at
    position [k * j]; the samples in between are the interpolated ones. *)
Theorem mulaw_b64_to_pcm16_keeps_decoded_samples
        (mulaw_b64 : string) (mulaw : bytes) (k : nat) :
  Base64.b64decode mulaw_b64 = Ok mulaw ->
  (1 <= k)%nat ->
  (8000 * Z.of_nat k <= INT_MAX)%Z ->
  exists pcm16,
    mulaw_b64_to_pcm16 mulaw_b64 (Some (8000 * Z.of_nat k)%Z) = Ok pcm16
    /\ forall j b,
        nth_error mulaw j = Some b ->
        nth_error (Float32.int16_elements pcm16) (k * j)
        = Some (st_ulaw2linear16 (Z_of_byte b)).
Proof.
  intros Hdec Hk Hmax. unfold mulaw_b64_to_pcm16. rewrite Hdec. cbn [bind].
  unfold ulaw2lin. change (check_size 2) with true. cbv iota. cbn [bind].
  set (pcm := flat_map (fun b => SETSAMPLE32 2 (st_ulaw2linear16 (Z_of_byte b) * 65536))
                       mulaw).
  assert (Hlen : List.length pcm = (2 * List.length mulaw)%nat).
  { apply (ulaw2lin_length mulaw). unfold ulaw2lin. reflexivity. }
  destruct (Nat.eq_dec k 1) as [->|Hk1].
  - change (8000 * Z.of_nat 1)%Z with SOURCE_SAMPLE_RATE_HZ.
    rewrite Z.eqb_refl, andb_false_r.
    exists pcm. split; [reflexivity|]. intros j b Hj.
    subst pcm. rewrite ulaw2lin_samples, Nat.mul_1_l.
    exact (map_nth_error (fun b => st_ulaw2linear16 (Z_of_byte b)) j mulaw Hj).
  - destruct (Z.eqb_spec (8000 * Z.of_nat k) 0); [lia|].
    destruct (Z.eqb_spec (8000 * Z.of_nat k) SOURCE_SAMPLE_RATE_HZ) as [E|_];
      [unfold SOURCE_SAMPLE_RATE_HZ in E; lia|].
    cbn [negb andb].
    unfold ratecv, SOURCE_SAMPLE_RATE_HZ.
    change (check_size 2) with true. cbv [negb].
    unfold INT_MAX, INT_MIN in *.
    destruct (Z.ltb_spec 2147483647 8000); [lia|].
    destruct (Z.ltb_spec 2147483647 (8000 * Z.of_nat k)); [lia|].
    destruct (Z.ltb_spec 8000 (-2147483648)); [lia|].
    destruct (Z.ltb_spec (8000 * Z.of_nat k) (-2147483648)); [lia|]. cbn [orb].
    rewrite Hlen.
    replace (Z.of_nat (2 * List.length mulaw) mod 2)%Z with 0%Z
      by (rewrite Nat2Z.inj_mul, Z.mul_comm, Z.mod_mul; lia).
    change (0 =? 0)%Z with true. cbv iota.
    destruct (Z.leb_spec (8000 * Z.of_nat k) 0); [lia|].
    change (8000 <=? 0)%Z with false. cbn [orb].
    replace (Z.gcd 8000 (8000 * Z.of_nat k)) with 8000%Z.
    2:{ rewrite <- (Z.mul_1_r 8000) at 2.
        rewrite Z.gcd_mul_mono_l_nonneg by lia. rewrite Z.gcd_1_l. reflexivity. }
    change (8000 / 8000)%Z with 1%Z.
    replace (8000 * Z.of_nat k / 8000)%Z with (Z.of_nat k)
      by (rewrite Z.mul_comm, Z.div_mul; lia).
    replace (Z.to_nat (Z.of_nat (2 * List.length mulaw) / 2)) with (List.length mulaw)
      by (rewrite Nat2Z.inj_mul, Z.mul_comm, Z.div_mul; lia).
    cbn [bind]. subst pcm. clear Hlen Hdec.
    destruct mulaw as [|b0 rest].
    + eexists. split; [reflexivity|]. intros j b Hj. destruct j; discriminate Hj.
    + cbn [List.length flat_map ratecv_feed].
      rewrite GETSAMPLE32_ulaw.
      replace (Z.quot (1 * (st_ulaw2linear16 (Z_of_byte b0) * 65536) + 0 * 0) (1 + 0))
        with (st_ulaw2linear16 (Z_of_byte b0) * 65536)%Z
        by (rewrite Z.mul_1_l, Z.mul_0_l, Z.add_0_r; change (1 + 0)%Z with 1%Z;
            now rewrite Z.quot_1_r).
      replace (- Z.of_nat k + Z.of_nat k)%Z with 0%Z by lia.
      change (Z.to_nat (0 + 1)) with 1%nat.
      destruct (ratecv_emit_ends_on_input 0 (Z.of_nat k) 0
                  (st_ulaw2linear16 (Z_of_byte b0) * 65536) 0 [])
        as (mid & E & Hmid); [lia | reflexivity |].
      destruct mid; [|discriminate Hmid]. rewrite E. cbn [app].
      replace (skipn (Z.to_nat 2)
                 (SETSAMPLE32 2 (st_ulaw2linear16 (Z_of_byte b0) * 65536)
                  ++ flat_map
                       (fun b => SETSAMPLE32 2 (st_ulaw2linear16 (Z_of_byte b) * 65536))
                       rest))
        with (flat_map (fun b => SETSAMPLE32 2 (st_ulaw2linear16 (Z_of_byte b) * 65536))
                       rest)
        by reflexivity.
      destruct (ratecv_feed_ulaw k rest Hk 0 (st_ulaw2linear16 (Z_of_byte b0) * 65536)
                  (SETSAMPLE32 2 (st_ulaw2linear16 (Z_of_byte b0) * 65536)))
        as (added & Hfeed & Hnth).
      exists (SETSAMPLE32 2 (st_ulaw2linear16 (Z_of_byte b0) * 65536) ++ added)%list.
      split.
      * rewrite <- Hfeed. reflexivity.
      * intros j b Hj. rewrite int16_elements_sample, (proj1 (proj2 (ulaw_byte b0))).
        destruct j as [|j].
        -- injection Hj as <-. rewrite Nat.mul_0_r. reflexivity.
        -- replace (k * S j)%nat with (S (k * j + (k - 1))) by nia.
           cbn [nth_error]. apply Hnth. exact Hj.
Qed.

Lemma mulaw_b64_to_pcm16_keeps_decoded_samples_witness :
  exists pcm16,
    mulaw_b64_to_pcm16 "ECAwQA==" (Some 24000%Z) = Ok pcm16
    /\ nth_error (Float32.int16_elements pcm16) 6 = Some (-3900)%Z.
Proof.
  destruct (mulaw_b64_to_pcm16_keeps_decoded_samples "ECAwQA==" [x10; x20; x30; x40] 3)
    as (pcm16 & H & Hnth); [reflexivity | lia | vm_compute; discriminate |].
  exists pcm16. split; [exact H|]. apply (Hnth 2%nat x30). reflexivity.
Defined.

End ResamplingContent.
